(** * hft-socket-server: the message plane, embedded and verified

    A shallow embedding of the wire codec and the message factory
    (message.cpp), the interceptor chain and its validation, logging and
    throttling interceptors (interceptor.cpp), the service registry and the
    dispatcher queue with its processor (service_manager.cpp), and the
    message handler and the latency monitor (socket_server.cpp).

    Conventions:
    - a [uint8_t] is a [byte]; [uint32_t], [uint64_t] and [size_t] are [Z]
      with the wrap-around written out where the code can wrap;
    - a [std::vector<uint8_t>] and a [std::string] are [list byte];
    - a [double] stored in a message is carried as its IEEE-754 binary64
      bit pattern (the codec only moves the bits); its numeric meaning,
      used by the comparisons of the validator, is [double_value];
    - a member function that mutates [*this] takes the object and returns
      the new one. *)

From Stdlib Require Import ZArith List Lia Bool.
From Stdlib Require Import Strings.Byte.
From Stdlib Require Import Floats.SpecFloat.
From Stdlib Require Import Sorting.Permutation Sorting.Sorted.
From stdpp Require Import gmap strings list fin_maps sorting pretty.

Local Open Scope Z_scope.

(** ** Bytes and fixed-width integers *)

Definition byte_to_Z (b : byte) : Z := Z.of_N (Byte.to_N b).

(** [static_cast<uint8_t>(z)]: the low eight bits. *)
Definition byte_of_Z (z : Z) : byte :=
  match Byte.of_N (Z.to_N (Z.land z 255)) with
  | Some b => b
  | None => Byte.x00
  end.

Definition UINT32_MOD : Z := 2 ^ 32.
Definition UINT64_MOD : Z := 2 ^ 64.

Definition is_uint32 (z : Z) : Prop := 0 <= z < UINT32_MOD.
Definition is_uint64 (z : Z) : Prop := 0 <= z < UINT64_MOD.

(** The loop [for (i = 0; i < n; ++i) data.push_back((x >> (i * 8)) & 0xFF)]. *)
Definition push_le (n : nat) (x : Z) : list byte :=
  List.map (fun i => byte_of_Z (Z.land (Z.shiftr x (Z.of_nat i * 8)) 255)) (seq 0 n).

(** ** Reading a vector by index

    [data[pos++]] on a [std::vector] is unchecked: an index at or past
    [data.size()] is an out-of-range read.  The reader threads the cursor
    [pos] and records the first such index instead of a value. *)

Inductive read (A : Type) : Type :=
| Got (a : A) (pos : nat)
| OutOfRange (index : nat).
Arguments Got {A} a pos.
Arguments OutOfRange {A} index.

Definition reader (A : Type) : Type := list byte -> nat -> read A.

Definition rret {A} (a : A) : reader A := fun _ pos => Got a pos.

Definition rbind {A B} (m : reader A) (k : A -> reader B) : reader B :=
  fun data pos =>
    match m data pos with
    | Got a pos' => k a data pos'
    | OutOfRange i => OutOfRange i
    end.

#[global] Instance reader_ret : MRet reader := @rret.
#[global] Instance reader_bind : MBind reader := fun A B k m => rbind m k.

(** [data[pos++]] *)
Definition next_byte : reader byte :=
  fun data pos =>
    match data !! pos with
    | Some b => Got b (S pos)
    | None => OutOfRange pos
    end.

(** The current value of [pos]. *)
Definition cursor : reader nat := fun _ pos => Got pos pos.

(** [pos += n] *)
Definition advance (n : nat) : reader unit := fun _ pos => Got tt (pos + n)%nat.

(** The loop [for (i = 0; i < n; ++i) x |= uintN_t(data[pos++]) << (i * 8)],
    entered at iteration [i] with accumulator [x]. *)
Fixpoint read_le_from (i n : nat) (x : Z) : reader Z :=
  match n with
  | O => rret x
  | S n' =>
      b ← next_byte;
      read_le_from (S i) n' (Z.lor x (Z.shiftl (byte_to_Z b) (Z.of_nat i * 8)))
  end.

Definition read_le (n : nat) : reader Z := read_le_from 0 n 0.

(** [data.size()] *)
Definition size : reader nat := fun data pos => Got (length data) pos.

(** [std::string(data.begin() + pos, data.begin() + pos + len)] at the
    current [pos]; the callers check [pos + len <= data.size()] first. *)
Definition substring (len : nat) : reader (list byte) :=
  fun data pos => Got (take len (drop pos data)) pos.

(** [pos < data.size() ? some(data[pos]) : none], [pos] unchanged. *)
Definition peek : reader (option byte) := fun data pos => Got (data !! pos) pos.

(** What a call of [deserialize] comes to: it returns [true] or [false]
    leaving the object in state [self], or it reads out of range. *)
Inductive outcome (A : Type) : Type :=
| Returned (ok : bool) (self : A)
| ReadPastEnd (index : nat).
Arguments Returned {A} ok self.
Arguments ReadPastEnd {A} index.

(** ** Doubles *)

(** A [double] as the 64 bits that [reinterpret_cast<uint64_t*>] sees. *)
Definition double : Type := Z.

Definition b64_prec : Z := 53.
Definition b64_emax : Z := 1024.

(** The IEEE-754 binary64 value denoted by a bit pattern. *)
Definition double_value (bits : double) : spec_float :=
  let s := Z.testbit bits 63 in
  let e := Z.land (Z.shiftr bits 52) 2047 in
  let m := Z.land bits (2 ^ 52 - 1) in
  if e =? 0 then
    (if m =? 0 then S754_zero s else S754_finite s (Z.to_pos m) (-1074))
  else if e =? 2047 then
    (if m =? 0 then S754_infinity s else S754_nan)
  else S754_finite s (Z.to_pos (m + 2 ^ 52)) (e - 1075).

(** The comparison operators of C++ on doubles (false on NaN). *)
Definition double_lt (a b : double) : bool := SFltb (double_value a) (double_value b).
Definition double_le (a b : double) : bool := SFleb (double_value a) (double_value b).
Definition double_ge (a b : double) : bool := double_le b a.
Definition double_gt (a b : double) : bool := double_lt b a.

(** The literal [0.0]. *)
Definition double_zero : double := 0.

(** ** message.hpp / message.cpp *)

(** [enum class MessageType : uint8_t].  A [static_cast] from a wire byte
    can put any byte in a [MessageType] object, so the type is [byte] and
    the enumerators are named bytes. *)
Module MessageType.
Definition t : Type := byte.
Definition ORDER_NEW : t := Byte.x01.
Definition ORDER_CANCEL : t := Byte.x02.
Definition ORDER_REPLACE : t := Byte.x03.
Definition ORDER_FILL : t := Byte.x04.
Definition MARKET_DATA : t := Byte.x05.
Definition HEARTBEAT : t := Byte.x06.
Definition LOGIN : t := Byte.x07.
Definition LOGOUT : t := Byte.x08.
Definition ERROR : t := Byte.x09.
End MessageType.

(** [enum class MessagePriority : uint8_t] *)
Module MessagePriority.
Definition t : Type := byte.
Definition LOW : t := Byte.x01.
Definition NORMAL : t := Byte.x02.
Definition HIGH : t := Byte.x03.
Definition CRITICAL : t := Byte.x04.
End MessagePriority.

(** The base class [Message]. *)
Module Message.
Record t : Type := mk {
  type_ : MessageType.t;
  priority_ : MessagePriority.t;
  sequence_number_ : Z;
  timestamp_ : Z;
  client_id_ : Z;
  receive_time_ : Z
}.

(** The static [global_sequence_counter_], a [std::atomic<uint64_t>]
    initialised to 0 when the process starts. *)
Definition initial_counter : Z := 0.

(** [fetch_add(1)]: the value before the addition, and the counter after
    it (unsigned 64-bit wrap-around). *)
Definition fetch_add_1 (counter : Z) : Z * Z :=
  (counter, (counter + 1) mod UINT64_MOD).

(** The constructor [Message(type, priority)].  [now_us] is what the
    clock gives as microseconds since the epoch; [counter] is the global
    counter before the call.  Returns the object and the counter after. *)
Definition new (type : MessageType.t) (priority : MessagePriority.t)
    (now_us : Z) (counter : Z) : t * Z :=
  let '(seq, counter') := fetch_add_1 counter in
  (mk type priority seq (now_us mod UINT64_MOD) 0 0, counter').

Definition setSequenceNumber (seq : Z) (m : t) : t :=
  mk (type_ m) (priority_ m) seq (timestamp_ m) (client_id_ m) (receive_time_ m).
Definition setClientId (cid : Z) (m : t) : t :=
  mk (type_ m) (priority_ m) (sequence_number_ m) (timestamp_ m) cid (receive_time_ m).
Definition setTimestamp (ts : Z) (m : t) : t :=
  mk (type_ m) (priority_ m) (sequence_number_ m) ts (client_id_ m) (receive_time_ m).
Definition setReceiveTime (time : Z) (m : t) : t :=
  mk (type_ m) (priority_ m) (sequence_number_ m) (timestamp_ m) (client_id_ m) time.

(** The ranges of the C++ field types. *)
Definition wf (m : t) : Prop :=
  is_uint64 (sequence_number_ m) /\ is_uint64 (timestamp_ m) /\
  is_uint64 (client_id_ m).

(** The 26 header bytes every [serialize] starts with. *)
Definition serialize_header (m : t) : list byte :=
  [type_ m; priority_ m]
    ++ push_le 8 (sequence_number_ m)
    ++ push_le 8 (timestamp_ m)
    ++ push_le 8 (client_id_ m).

(** The header part of every [deserialize]: the five assignments to the
    base fields, [receive_time_] untouched. *)
Definition deserialize_header (self : t) : reader t :=
  ty ← next_byte;
  prio ← next_byte;
  seq ← read_le 8;
  ts ← read_le 8;
  cid ← read_le 8;
  mret (mk ty prio seq ts cid (receive_time_ self)).
End Message.

Module OrderMessage.
Record t : Type := mk {
  base : Message.t;
  order_id_ : Z;
  symbol_ : list byte;
  price_ : double;
  quantity_ : Z;
  is_buy_ : bool
}.

(** [OrderMessage()] *)
Definition default (now_us counter : Z) : t * Z :=
  let '(b, counter') :=
    Message.new MessageType.ORDER_NEW MessagePriority.NORMAL now_us counter in
  (mk b 0 [] double_zero 0 true, counter').

(** [OrderMessage(order_id, symbol, price, quantity, is_buy)] *)
Definition new (order_id : Z) (symbol : list byte) (price : double)
    (quantity : Z) (is_buy : bool) (now_us counter : Z) : t * Z :=
  let '(b, counter') :=
    Message.new MessageType.ORDER_NEW MessagePriority.NORMAL now_us counter in
  (mk b order_id symbol price quantity is_buy, counter').

Definition wf (m : t) : Prop :=
  Message.wf (base m) /\ is_uint64 (order_id_ m) /\ is_uint64 (price_ m) /\
  is_uint32 (quantity_ m).

Definition serialize (m : t) : list byte :=
  Message.serialize_header (base m)
    ++ push_le 8 (order_id_ m)
    ++ [byte_of_Z (Z.of_nat (length (symbol_ m)))]
    ++ symbol_ m
    ++ push_le 8 (price_ m)
    ++ push_le 4 (quantity_ m)
    ++ [if is_buy_ m then Byte.x01 else Byte.x00].


(** The body of [deserialize] after the size check: [inl self'] stands
    for [return false] and [inr self'] for [return true], [self'] being
    the object with the assignments made so far. *)
Definition deserialize_body (self : t) : reader (t + t) :=
  b ← Message.deserialize_header (base self);
  oid ← read_le 8;
  symbol_len ← next_byte;
  pos ← cursor;
  n ← size;
  if (n <? pos + Z.to_nat (byte_to_Z symbol_len))%nat
  then mret (inl (mk b oid (symbol_ self) (price_ self) (quantity_ self) (is_buy_ self)))
  else
    symbol ← substring (Z.to_nat (byte_to_Z symbol_len));
    _ ← advance (Z.to_nat (byte_to_Z symbol_len));
    price_bits ← read_le 8;
    qty ← read_le 4;
    flag ← peek;
    mret (inr (mk b oid symbol price_bits qty
                 (match flag with
                  | Some f => negb (byte_to_Z f =? 0)
                  | None => is_buy_ self
                  end))).

Definition deserialize (self : t) (data : list byte) : outcome t :=
  if (length data <? 50)%nat then Returned false self
  else
    match deserialize_body self data 0%nat with
    | Got (inl self') _ => Returned false self'
    | Got (inr self') _ => Returned true self'
    | OutOfRange i => ReadPastEnd i
    end.
End OrderMessage.

Module MarketDataMessage.
Record t : Type := mk {
  base : Message.t;
  symbol_ : list byte;
  bid_ : double;
  ask_ : double;
  bid_size_ : Z;
  ask_size_ : Z
}.

(** [MarketDataMessage()] *)
Definition default (now_us counter : Z) : t * Z :=
  let '(b, counter') :=
    Message.new MessageType.MARKET_DATA MessagePriority.NORMAL now_us counter in
  (mk b [] double_zero double_zero 0 0, counter').

(** [MarketDataMessage(symbol, bid, ask, bid_size, ask_size)] *)
Definition new (symbol : list byte) (bid ask : double) (bid_size ask_size : Z)
    (now_us counter : Z) : t * Z :=
  let '(b, counter') :=
    Message.new MessageType.MARKET_DATA MessagePriority.NORMAL now_us counter in
  (mk b symbol bid ask bid_size ask_size, counter').

Definition wf (m : t) : Prop :=
  Message.wf (base m) /\ is_uint64 (bid_ m) /\ is_uint64 (ask_ m) /\
  is_uint32 (bid_size_ m) /\ is_uint32 (ask_size_ m).

Definition serialize (m : t) : list byte :=
  Message.serialize_header (base m)
    ++ [byte_of_Z (Z.of_nat (length (symbol_ m)))]
    ++ symbol_ m
    ++ push_le 8 (bid_ m)
    ++ push_le 8 (ask_ m)
    ++ push_le 4 (bid_size_ m)
    ++ push_le 4 (ask_size_ m).

Definition deserialize_body (self : t) : reader (t + t) :=
  b ← Message.deserialize_header (base self);
  symbol_len ← next_byte;
  pos ← cursor;
  n ← size;
  if (n <? pos + Z.to_nat (byte_to_Z symbol_len))%nat
  then mret (inl (mk b (symbol_ self) (bid_ self) (ask_ self)
                    (bid_size_ self) (ask_size_ self)))
  else
    symbol ← substring (Z.to_nat (byte_to_Z symbol_len));
    _ ← advance (Z.to_nat (byte_to_Z symbol_len));
    bid_bits ← read_le 8;
    ask_bits ← read_le 8;
    bsz ← read_le 4;
    asz ← read_le 4;
    mret (inr (mk b symbol bid_bits ask_bits bsz asz)).

Definition deserialize (self : t) (data : list byte) : outcome t :=
  if (length data <? 50)%nat then Returned false self
  else
    match deserialize_body self data 0%nat with
    | Got (inl self') _ => Returned false self'
    | Got (inr self') _ => Returned true self'
    | OutOfRange i => ReadPastEnd i
    end.
End MarketDataMessage.

Module HeartbeatMessage.
Record t : Type := mk { base : Message.t }.

(** [HeartbeatMessage()] *)
Definition default (now_us counter : Z) : t * Z :=
  let '(b, counter') :=
    Message.new MessageType.HEARTBEAT MessagePriority.NORMAL now_us counter in
  (mk b, counter').

(** [HeartbeatMessage(client_id)] *)
Definition new (client_id : Z) (now_us counter : Z) : t * Z :=
  let '(b, counter') :=
    Message.new MessageType.HEARTBEAT MessagePriority.NORMAL now_us counter in
  (mk (Message.setClientId client_id b), counter').

Definition wf (m : t) : Prop := Message.wf (base m).

Definition serialize (m : t) : list byte := Message.serialize_header (base m).

Definition deserialize_body (self : t) : reader (t + t) :=
  b ← Message.deserialize_header (base self);
  mret (inr (mk b)).

Definition deserialize (self : t) (data : list byte) : outcome t :=
  if (length data <? 26)%nat then Returned false self
  else
    match deserialize_body self data 0%nat with
    | Got (inl self') _ => Returned false self'
    | Got (inr self') _ => Returned true self'
    | OutOfRange i => ReadPastEnd i
    end.
End HeartbeatMessage.

Module ErrorMessage.
Record t : Type := mk {
  base : Message.t;
  error_code_ : Z;
  error_message_ : list byte
}.

(** [ErrorMessage()] *)
Definition default (now_us counter : Z) : t * Z :=
  let '(b, counter') :=
    Message.new MessageType.ERROR MessagePriority.NORMAL now_us counter in
  (mk b 0 [], counter').

(** [ErrorMessage(error_code, error_message)] *)
Definition new (error_code : Z) (error_message : list byte)
    (now_us counter : Z) : t * Z :=
  let '(b, counter') :=
    Message.new MessageType.ERROR MessagePriority.NORMAL now_us counter in
  (mk b error_code error_message, counter').

Definition wf (m : t) : Prop :=
  Message.wf (base m) /\ is_uint32 (error_code_ m).

Definition serialize (m : t) : list byte :=
  Message.serialize_header (base m)
    ++ push_le 4 (error_code_ m)
    ++ [byte_of_Z (Z.of_nat (length (error_message_ m)))]
    ++ error_message_ m.

Definition deserialize_body (self : t) : reader (t + t) :=
  b ← Message.deserialize_header (base self);
  code ← read_le 4;
  pos ← cursor;
  n ← size;
  if (pos <? n)%nat then
    msg_len ← next_byte;
    pos' ← cursor;
    if (pos' + Z.to_nat (byte_to_Z msg_len) <=? n)%nat then
      msg ← substring (Z.to_nat (byte_to_Z msg_len));
      mret (inr (mk b code msg))
    else mret (inr (mk b code (error_message_ self)))
  else mret (inr (mk b code (error_message_ self))).

Definition deserialize (self : t) (data : list byte) : outcome t :=
  if (length data <? 30)%nat then Returned false self
  else
    match deserialize_body self data 0%nat with
    | Got (inl self') _ => Returned false self'
    | Got (inr self') _ => Returned true self'
    | OutOfRange i => ReadPastEnd i
    end.
End ErrorMessage.

(** A [std::shared_ptr<Message>] that is not null points to an object of one
    of the four concrete classes; [dynamic_pointer_cast] asks which. *)
Inductive AnyMessage : Type :=
| IsOrder (m : OrderMessage.t)
| IsMarketData (m : MarketDataMessage.t)
| IsHeartbeat (m : HeartbeatMessage.t)
| IsError (m : ErrorMessage.t).

(** The [Message] base subobject. *)
Definition base_of (m : AnyMessage) : Message.t :=
  match m with
  | IsOrder o => OrderMessage.base o
  | IsMarketData d => MarketDataMessage.base d
  | IsHeartbeat h => HeartbeatMessage.base h
  | IsError e => ErrorMessage.base e
  end.

(** The virtual calls [serialize] and [deserialize]. *)
Definition serialize (m : AnyMessage) : list byte :=
  match m with
  | IsOrder o => OrderMessage.serialize o
  | IsMarketData d => MarketDataMessage.serialize d
  | IsHeartbeat h => HeartbeatMessage.serialize h
  | IsError e => ErrorMessage.serialize e
  end.

Definition outcome_map {A B} (f : A -> B) (o : outcome A) : outcome B :=
  match o with
  | Returned ok a => Returned ok (f a)
  | ReadPastEnd i => ReadPastEnd i
  end.

Definition deserialize (self : AnyMessage) (data : list byte) : outcome AnyMessage :=
  match self with
  | IsOrder o => outcome_map IsOrder (OrderMessage.deserialize o data)
  | IsMarketData d => outcome_map IsMarketData (MarketDataMessage.deserialize d data)
  | IsHeartbeat h => outcome_map IsHeartbeat (HeartbeatMessage.deserialize h data)
  | IsError e => outcome_map IsError (ErrorMessage.deserialize e data)
  end.

Module MessageFactory.
(** [createMessage(MessageType)]: the default-constructed object of the
    class chosen by the type, or [nullptr]; the constructor advances the
    global sequence counter. *)
Definition createMessage_type (type : MessageType.t) (now_us counter : Z)
    : option AnyMessage * Z :=
  match type with
  | Byte.x01 (* ORDER_NEW *) | Byte.x02 (* ORDER_CANCEL *)
  | Byte.x03 (* ORDER_REPLACE *) | Byte.x04 (* ORDER_FILL *) =>
      let '(m, c) := OrderMessage.default now_us counter in (Some (IsOrder m), c)
  | Byte.x05 (* MARKET_DATA *) =>
      let '(m, c) := MarketDataMessage.default now_us counter in
      (Some (IsMarketData m), c)
  | Byte.x06 (* HEARTBEAT *) =>
      let '(m, c) := HeartbeatMessage.default now_us counter in
      (Some (IsHeartbeat m), c)
  | Byte.x09 (* ERROR *) =>
      let '(m, c) := ErrorMessage.default now_us counter in (Some (IsError m), c)
  | _ => (None, counter)
  end.

(** [createMessage(const std::vector<uint8_t>&)] *)
Definition createMessage (data : list byte) (now_us counter : Z)
    : option AnyMessage * Z :=
  match data with
  | [] => (None, counter)
  | type :: _ => createMessage_type type now_us counter
  end.
End MessageFactory.

(** ** interceptor.hpp / interceptor.cpp *)

Local Open Scope string_scope.
Local Open Scope list_scope.
Local Open Scope Z_scope.

Module InterceptorContext.
(** Time points are tick counts of the clock, in nanoseconds. *)
Record t : Type := mk {
  message_ : option AnyMessage;
  start_time_ : Z;
  end_time_ : Z;
  metadata_ : gmap string string
}.

(** [InterceptorContext(msg)], the clock reading [now] being taken by
    [startTimer]; [end_time_] is default-initialised. *)
Definition new (msg : option AnyMessage) (now : Z) : t := mk msg now 0 ∅.

Definition getMessage (c : t) : option AnyMessage := message_ c.

(** [metadata_[key] = value] *)
Definition setMetadata (key value : string) (c : t) : t :=
  mk (message_ c) (start_time_ c) (end_time_ c) (<[key := value]> (metadata_ c)).

Definition getMetadata (key : string) (c : t) : string :=
  match metadata_ c !! key with
  | Some v => v
  | None => ""
  end.
End InterceptorContext.

Module ValidationInterceptor.
Import InterceptorContext.

(** [return false] after [context.setMetadata("error", why)]. *)
Definition reject (why : string) (context : t) : bool * t :=
  (false, setMetadata "error" why context).

(** The checks of the [ORDER_NEW / ORDER_CANCEL / ORDER_REPLACE] case on
    the result of the [dynamic_pointer_cast<OrderMessage>]: the error
    text of the first check that fires. *)
Definition check_order (message : AnyMessage) : option string :=
  match message with
  | IsOrder order_msg =>
      if OrderMessage.order_id_ order_msg =? 0 then Some "Invalid order ID"
      else if (length (OrderMessage.symbol_ order_msg) =? 0)%nat then Some "Empty symbol"
      else if double_le (OrderMessage.price_ order_msg) double_zero then Some "Invalid price"
      else if OrderMessage.quantity_ order_msg =? 0 then Some "Invalid quantity"
      else None
  | _ => None
  end.

(** The checks of the [MARKET_DATA] case on the result of the
    [dynamic_pointer_cast<MarketDataMessage>]. *)
Definition check_market_data (message : AnyMessage) : option string :=
  match message with
  | IsMarketData md_msg =>
      if (length (MarketDataMessage.symbol_ md_msg) =? 0)%nat then Some "Empty symbol"
      else if double_lt (MarketDataMessage.bid_ md_msg) double_zero
              || double_lt (MarketDataMessage.ask_ md_msg) double_zero
      then Some "Invalid bid/ask"
      else if double_ge (MarketDataMessage.bid_ md_msg) (MarketDataMessage.ask_ md_msg)
      then Some "Bid >= Ask"
      else None
  | _ => None
  end.

(** The [switch (message->getType())]. *)
Definition check_kind (message : AnyMessage) : option string :=
  match Message.type_ (base_of message) with
  | Byte.x01 (* ORDER_NEW *) | Byte.x02 (* ORDER_CANCEL *)
  | Byte.x03 (* ORDER_REPLACE *) => check_order message
  | Byte.x05 (* MARKET_DATA *) => check_market_data message
  | _ => None
  end.

Definition intercept (context : t) : bool * t :=
  match getMessage context with
  | None => reject "Null message" context
  | Some message =>
      if Message.sequence_number_ (base_of message) =? 0
      then reject "Invalid sequence number" context
      else if Message.timestamp_ (base_of message) =? 0
      then reject "Invalid timestamp" context
      else
        match check_kind message with
        | Some why => reject why context
        | None => (true, setMetadata "validation" "passed" context)
        end
  end.
End ValidationInterceptor.

Module ThrottlingInterceptor.
Import InterceptorContext.

(** [size_t] is 64 bits wide. *)
Definition SIZE_MOD : Z := 2 ^ 64.

Record t : Type := mk {
  max_messages_per_second_ : Z;
  last_check_ : Z;
  message_count_ : Z
}.

(** [ThrottlingInterceptor(max_messages_per_second)] built when the
    steady clock reads [now]. *)
Definition new (max_messages_per_second : Z) (now : Z) : t :=
  mk max_messages_per_second now 0.

(** [duration_cast<milliseconds>(now - last_check_).count()]: nanosecond
    ticks to whole milliseconds, rounded toward zero. *)
Definition elapsed_ms (now last_check : Z) : Z := Z.quot (now - last_check) 1000000.

(** The first [if]: the window is reset when a second has elapsed. *)
Definition reset_if_elapsed (now : Z) (self : t) : t :=
  if 1000 <=? elapsed_ms now (last_check_ self)
  then mk (max_messages_per_second_ self) now 0
  else self.

(** [intercept], the steady clock reading [now] at entry. *)
Definition intercept (now : Z) (context : InterceptorContext.t) (self : t)
    : bool * InterceptorContext.t * t :=
  let self := reset_if_elapsed now self in
  if max_messages_per_second_ self <=? message_count_ self
  then (false, setMetadata "throttled" "Rate limit exceeded" context, self)
  else
    (true, setMetadata "throttle_status" "accepted" context,
     mk (max_messages_per_second_ self) (last_check_ self)
        ((message_count_ self + 1) mod SIZE_MOD)).

(** The interceptor called once per entry of [calls] (clock reading and
    context of the call), in order. *)
Fixpoint intercept_all (calls : list (Z * InterceptorContext.t)) (self : t)
    : list (bool * InterceptorContext.t) * t :=
  match calls with
  | [] => ([], self)
  | (now, context) :: rest =>
      let '(ok, context', self') := intercept now context self in
      let '(results, self'') := intercept_all rest self' in
      ((ok, context') :: results, self'')
  end.
End ThrottlingInterceptor.

(** The interface [IInterceptor] and [InterceptorChain].  The interceptor
    objects live behind shared pointers and may keep state between calls
    (the throttler does); [W] is the state of everything the interceptors
    of a chain can read or change besides the context. *)
Section InterceptorChain.
Context {W : Type}.

(** [virtual bool intercept(InterceptorContext&)] *)
Definition IInterceptor : Type :=
  InterceptorContext.t -> W -> bool * InterceptorContext.t * W.

(** [interceptors_], in [push_back] order. *)
Definition InterceptorChain : Type := list IInterceptor.

Definition addInterceptor (interceptor : IInterceptor) (chain : InterceptorChain)
    : InterceptorChain :=
  (chain ++ [interceptor])%list.

Definition clear (chain : InterceptorChain) : InterceptorChain := [].

(** [process]: the range-for loop with its early [return false]. *)
Fixpoint process (chain : InterceptorChain) (context : InterceptorContext.t) (w : W)
    : bool * InterceptorContext.t * W :=
  match chain with
  | [] => (true, context, w)
  | interceptor :: rest =>
      let '(ok, context', w') := interceptor context w in
      if ok then process rest context' w' else (false, context', w')
  end.
End InterceptorChain.
Arguments IInterceptor W : clear implicits.
Arguments InterceptorChain W : clear implicits.

(** ** service_manager.hpp / service_manager.cpp: the dispatcher queue *)

Module ServiceManager.
(** [message_queue_], a [std::queue] of (service name, message) pairs:
    front of the queue first. *)
Definition queue : Type := list (string * AnyMessage).

(** [sendMessage(service_name, message)]; the function is [void], so the
    queue after the call is all there is to observe. *)
Definition sendMessage (service_name : string) (message : option AnyMessage)
    (message_queue_ : queue) : queue :=
  match message with
  | None => message_queue_
  | Some m => (message_queue_ ++ [(service_name, m)])%list
  end.
End ServiceManager.

(** ** socket_server.hpp / socket_server.cpp: PerformanceMonitor *)

(** Arithmetic on [double] values, IEEE-754 binary64, round to nearest
    even. *)
Module B64.
Definition t : Type := spec_float.

Definition add : t -> t -> t := SFadd b64_prec b64_emax.
Definition mul : t -> t -> t := SFmul b64_prec b64_emax.
Definition div : t -> t -> t := SFdiv b64_prec b64_emax.
Definition ltb : t -> t -> bool := SFltb.

(** Conversion of an integer to [double]. *)
Definition of_Z (z : Z) : t := binary_normalize b64_prec b64_emax z 0 false.

(** [static_cast<size_t>(x)]: the fraction is discarded; a value with no
    [size_t] to hold it has no defined conversion. *)
Definition to_size_t (x : t) : option Z :=
  match x with
  | S754_zero _ => Some 0
  | S754_finite false m e =>
      let z := Z.shiftl (Z.pos m) e in
      if z <? 2 ^ 64 then Some z else None
  | S754_finite true m e =>
      if Z.shiftl (Z.pos m) e =? 0 then Some 0 else None
  | _ => None
  end.

Definition zero : t := S754_zero false.

(** The literals [0.95] and [0.99]: the doubles nearest to the decimals. *)
Definition lit_0_95 : t := double_value 0x3FEE666666666666.
Definition lit_0_99 : t := double_value 0x3FEFAE147AE147AE.

Definition eqb (x y : t) : bool :=
  match x, y with
  | S754_zero a, S754_zero b => Bool.eqb a b
  | S754_infinity a, S754_infinity b => Bool.eqb a b
  | S754_nan, S754_nan => true
  | S754_finite a m e, S754_finite b n f => Bool.eqb a b && Pos.eqb m n && Z.eqb e f
  | _, _ => false
  end.
End B64.

Module PerformanceMonitor.
Definition MAX_SAMPLES : Z := 100000.

(** [latency_samples_]; [begin()] is the head. *)
Definition t : Type := list B64.t.

(** A monitor after construction or [reset]. *)
Definition empty : t := [].

Definition recordLatency (latency_us : B64.t) (latency_samples_ : t) : t :=
  let kept :=
    if MAX_SAMPLES <=? Z.of_nat (length latency_samples_)
    then drop 1 latency_samples_
    else latency_samples_ in
  (kept ++ [latency_us])%list.

(** [std::accumulate(begin, end, 0.0)] *)
Definition accumulate (samples : list B64.t) : B64.t :=
  fold_left B64.add samples B64.zero.

(** [std::sort] with [operator<]: insertion of each element before the
    first one greater than it.  On values without NaN the result of any
    sorting algorithm agrees with it up to the sign of zeros. *)
Fixpoint insert_sorted (x : B64.t) (l : list B64.t) : list B64.t :=
  match l with
  | [] => [x]
  | y :: l' => if B64.ltb y x then y :: insert_sorted x l' else x :: y :: l'
  end.

Definition sort (l : list B64.t) : list B64.t := fold_right insert_sorted [] l.

(** What a reader call comes to.  [stats_mutex_] is a plain [std::mutex]:
    a thread that locks it while holding it does not come back, which is
    what happens when a percentile reader, holding the lock, calls
    [getAverageLatency].  [BadIndex] stands for a subscript outside the
    vector or a size with no conversion. *)
Inductive reading : Type :=
| Value (v : B64.t)
| SelfDeadlock
| BadIndex.

Definition getAverageLatency (latency_samples_ : t) : reading :=
  match latency_samples_ with
  | [] => Value B64.zero
  | _ => Value (B64.div (accumulate latency_samples_)
                        (B64.of_Z (Z.of_nat (length latency_samples_))))
  end.

(** The common shape of [getP95Latency] and [getP99Latency]. *)
Definition percentile (min_samples : nat) (fraction : B64.t) (latency_samples_ : t)
    : reading :=
  if (length latency_samples_ <? min_samples)%nat then SelfDeadlock
  else
    let sorted_samples := sort latency_samples_ in
    match B64.to_size_t
            (B64.mul (B64.of_Z (Z.of_nat (length sorted_samples))) fraction) with
    | Some index =>
        match sorted_samples !! Z.to_nat index with
        | Some v => Value v
        | None => BadIndex
        end
    | None => BadIndex
    end.

Definition getP95Latency : t -> reading := percentile 20 B64.lit_0_95.
Definition getP99Latency : t -> reading := percentile 100 B64.lit_0_99.

(** [recordLatency] called once per element of [samples], in order. *)
Definition record_all (samples : list B64.t) (m : t) : t :=
  fold_left (fun m x => recordLatency x m) samples m.
End PerformanceMonitor.

(** ** The rest of the message plane *)

(** [setReceiveTime] called through a [std::shared_ptr<Message>]. *)
Definition set_receive_time (time : Z) (m : AnyMessage) : AnyMessage :=
  match m with
  | IsOrder o =>
      IsOrder (OrderMessage.mk (Message.setReceiveTime time (OrderMessage.base o))
                 (OrderMessage.order_id_ o) (OrderMessage.symbol_ o)
                 (OrderMessage.price_ o) (OrderMessage.quantity_ o)
                 (OrderMessage.is_buy_ o))
  | IsMarketData d =>
      IsMarketData
        (MarketDataMessage.mk (Message.setReceiveTime time (MarketDataMessage.base d))
           (MarketDataMessage.symbol_ d) (MarketDataMessage.bid_ d)
           (MarketDataMessage.ask_ d) (MarketDataMessage.bid_size_ d)
           (MarketDataMessage.ask_size_ d))
  | IsHeartbeat h =>
      IsHeartbeat (HeartbeatMessage.mk (Message.setReceiveTime time (HeartbeatMessage.base h)))
  | IsError e =>
      IsError (ErrorMessage.mk (Message.setReceiveTime time (ErrorMessage.base e))
                 (ErrorMessage.error_code_ e) (ErrorMessage.error_message_ e))
  end.

(** socket_server.cpp, [MessageHandler::handleMessage(client_fd, data,
    length)]: [data] is [None] for a null pointer and otherwise the [length]
    bytes it points to.  The result is the message handed to the callback
    (when one is set), if the function gets that far, and the global
    sequence counter after the call; [now_us] is the clock read by the
    constructor and [receive_now] the one read for the receive time. *)
Module MessageHandler.
Definition handleMessage (data : option (list byte)) (now_us receive_now counter : Z)
    : option AnyMessage * Z :=
  match data with
  | None => (None, counter)
  | Some message_data =>
      if (length message_data =? 0)%nat then (None, counter)
      else
        match MessageFactory.createMessage message_data now_us counter with
        | (None, counter') => (None, counter')
        | (Some message, counter') =>
            (Some (set_receive_time receive_now message), counter')
        end
  end.
End MessageHandler.

(** interceptor.cpp, [LoggingInterceptor::intercept]: the numbers are
    written in decimal by [operator<<]. *)
Module LoggingInterceptor.
Definition summary (message : AnyMessage) : string :=
  "Processing message: Type=" +:+ pretty (byte_to_Z (Message.type_ (base_of message)))
    +:+ ", Seq=" +:+ pretty (Message.sequence_number_ (base_of message))
    +:+ ", Client=" +:+ pretty (Message.client_id_ (base_of message))
    +:+ ", Priority=" +:+ pretty (byte_to_Z (Message.priority_ (base_of message))).

Definition intercept (context : InterceptorContext.t) : bool * InterceptorContext.t :=
  match InterceptorContext.getMessage context with
  | None => (false, context)
  | Some message => (true, InterceptorContext.setMetadata "log" (summary message) context)
  end.
End LoggingInterceptor.

(** The logger and the throttler as links of a chain.  The logger keeps no
    state; the throttler is called when the steady clock reads [now]. *)
Definition logging_link {W : Type} : IInterceptor W :=
  fun context w =>
    let '(ok, context') := LoggingInterceptor.intercept context in (ok, context', w).

Definition throttling_link (now : Z) : IInterceptor ThrottlingInterceptor.t :=
  fun context self => ThrottlingInterceptor.intercept now context self.

(** service_manager.cpp: the three concrete services.  Each has a name, the
    flag [running_] and a worker thread that [start] spawns and [stop]
    joins; [processMessage] returns at once on a null message or when the
    service is not running, and otherwise looks at the message without
    changing anything.  [received_] is the journal of the messages that got
    past that guard, kept to observe the deliveries. *)
Module Service.
Record t : Type := mk {
  name_ : string;
  running_ : bool;
  received_ : list AnyMessage
}.

Definition getName (s : t) : string := name_ s.
Definition isRunning (s : t) : bool := running_ s.

Definition start (s : t) : t :=
  if running_ s then s else mk (name_ s) true (received_ s).

Definition stop (s : t) : t :=
  if running_ s then mk (name_ s) false (received_ s) else s.

Definition processMessage (message : option AnyMessage) (s : t) : t :=
  match message with
  | None => s
  | Some m => if running_ s then mk (name_ s) (running_ s) (received_ s ++ [m]) else s
  end.
End Service.

(** service_manager.cpp, [ServiceManager]: the registry [services_] (an
    unordered map from names to shared services, here the store of their
    states), the flag [running_], the queue, and whether the processor
    thread has been started. *)
Module Dispatcher.
Record t : Type := mk {
  services_ : gmap string Service.t;
  running_ : bool;
  message_queue_ : ServiceManager.queue;
  processor_started_ : bool
}.

Definition initial : t := mk ∅ false [] false.

(** [services_[service->getName()] = service]; a null pointer is ignored. *)
Definition registerService (service : option Service.t) (self : t) : t :=
  match service with
  | None => self
  | Some s =>
      mk (<[Service.getName s := s]> (services_ self)) (running_ self)
         (message_queue_ self) (processor_started_ self)
  end.

(** [unregisterService]: the service found under the name is stopped if it
    runs and erased; the result holds the service as it is left. *)
Definition unregisterService (service_name : string) (self : t) : t * option Service.t :=
  match services_ self !! service_name with
  | Some s =>
      (mk (delete service_name (services_ self)) (running_ self)
          (message_queue_ self) (processor_started_ self),
       Some (if Service.isRunning s then Service.stop s else s))
  | None => (self, None)
  end.

Definition startAllServices (self : t) : t :=
  mk ((fun s => if Service.isRunning s then s else Service.start s) <$> services_ self)
     true (message_queue_ self) true.

Definition stopAllServices (self : t) : t :=
  mk ((fun s => if Service.isRunning s then Service.stop s else s) <$> services_ self)
     false (message_queue_ self) (processor_started_ self).

Definition sendMessage (service_name : string) (message : option AnyMessage) (self : t) : t :=
  mk (services_ self) (running_ self)
     (ServiceManager.sendMessage service_name message (message_queue_ self))
     (processor_started_ self).

Definition broadcastMessage (message : option AnyMessage) (self : t) : t :=
  match message with
  | None => self
  | Some m =>
      mk ((fun s => if Service.isRunning s then Service.processMessage (Some m) s else s)
            <$> services_ self)
         (running_ self) (message_queue_ self) (processor_started_ self)
  end.

Definition getService (service_name : string) (self : t) : option Service.t :=
  services_ self !! service_name.

(** The loop that counts the running services, over the entries of the map
    in whatever order the map lists them. *)
Definition getActiveServiceCount (self : t) : nat :=
  length (List.filter (fun entry => Service.isRunning (snd entry))
            (map_to_list (services_ self))).

(** One turn of the loop of [processMessageQueue]: the front entry is
    popped, and handed to the service of that name if there is one and it
    runs. *)
Definition deliver (service_name : string) (message : AnyMessage)
    (services : gmap string Service.t) : gmap string Service.t :=
  match services !! service_name with
  | Some service =>
      if Service.isRunning service
      then <[service_name := Service.processMessage (Some message) service]> services
      else services
  | None => services
  end.

(** The loop [while (!message_queue_.empty() && processed < max_batch)],
    with [budget] turns left, no producer adding to the queue meanwhile. *)
Fixpoint process_batch (budget : nat) (self : t) : t :=
  match budget with
  | O => self
  | S budget' =>
      match message_queue_ self with
      | [] => self
      | (service_name, message) :: rest =>
          process_batch budget'
            (mk (deliver service_name message (services_ self)) (running_ self)
                rest (processor_started_ self))
      end
  end.

Definition max_batch : nat := 100.

(** [processMessageQueue]: on an empty queue it waits and returns. *)
Definition processMessageQueue (self : t) : t := process_batch max_batch self.

(** [messageProcessorLoop]: [while (running_) processMessageQueue()],
    followed for at most [rounds] turns. *)
Fixpoint messageProcessorLoop (rounds : nat) (self : t) : t :=
  match rounds with
  | O => self
  | S rounds' =>
      if running_ self then messageProcessorLoop rounds' (processMessageQueue self)
      else self
  end.
End Dispatcher.

(** ** Runs and observations used by the statements *)

(** The sequence numbers given to the objects built by successive calls of
    the [Message] constructor, one call per entry of [calls] (type, priority
    and clock reading of the call), the global counter being [counter]
    before the first. *)
Fixpoint sequence_numbers (calls : list (MessageType.t * MessagePriority.t * Z))
    (counter : Z) : list Z :=
  match calls with
  | [] => []
  | (type, priority, now_us) :: rest =>
      let '(m, counter') := Message.new type priority now_us counter in
      Message.sequence_number_ m :: sequence_numbers rest counter'
  end.

(** An interceptor that also appends its name and what it returned to a
    journal kept beside the interceptors' state: the journal after
    [process] lists the interceptors that were invoked, in the order of the
    calls. *)
Definition journaled {W : Type} (name : nat) (i : IInterceptor W)
    : IInterceptor (W * list (nat * bool)) :=
  fun context '(w, journal) =>
    let '(ok, context', w') := i context w in
    (ok, context', (w', (journal ++ [(name, ok)])%list)).

(** The chain with its [k]-th interceptor journaled under the name
    [first + k]. *)
Fixpoint journaled_chain {W : Type} (first : nat) (chain : InterceptorChain W)
    : InterceptorChain (W * list (nat * bool)) :=
  match chain with
  | [] => []
  | i :: rest => journaled first i :: journaled_chain (S first) rest
  end.


(** What the throttler hands back for a message it lets through, and for one
    it turns down. *)
Definition accepted (context : InterceptorContext.t) : bool * InterceptorContext.t :=
  (true, InterceptorContext.setMetadata "throttle_status" "accepted" context).
Definition throttled (context : InterceptorContext.t) : bool * InterceptorContext.t :=
  (false, InterceptorContext.setMetadata "throttled" "Rate limit exceeded" context).

(** The kind-specific invariants of the data model, as the specification
    words them: for an order of type New, Cancel or Replace, [order_id != 0],
    a non-empty symbol, [price > 0] and [quantity > 0]; for market data,
    [bid < ask] and both [>= 0]. *)
Definition documented_invariant (message : AnyMessage) : bool :=
  match message with
  | IsOrder o =>
      match Message.type_ (OrderMessage.base o) with
      | Byte.x01 | Byte.x02 | Byte.x03 =>
          negb (OrderMessage.order_id_ o =? 0)
          && negb (length (OrderMessage.symbol_ o) =? 0)%nat
          && double_gt (OrderMessage.price_ o) double_zero
          && negb (OrderMessage.quantity_ o =? 0)
      | _ => true
      end
  | IsMarketData d =>
      double_lt (MarketDataMessage.bid_ d) (MarketDataMessage.ask_ d)
      && double_ge (MarketDataMessage.bid_ d) double_zero
      && double_ge (MarketDataMessage.ask_ d) double_zero
  | _ => true
  end.

(** When the validator rejects, as the specification words it. *)
Definition documented_rejection (context : InterceptorContext.t) : bool :=
  match InterceptorContext.message_ context with
  | None => true
  | Some message =>
      (Message.sequence_number_ (base_of message) =? 0)
      || (Message.timestamp_ (base_of message) =? 0)
      || negb (documented_invariant message)
  end.

(** The tests of the branches of [intercept]: the order checks apply to an
    [OrderMessage] object whose type byte is New, Cancel or Replace, the
    market data checks to a [MarketDataMessage] object whose type byte is
    MarketData. *)
Definition order_rejected (o : OrderMessage.t) : bool :=
  (OrderMessage.order_id_ o =? 0)
  || (length (OrderMessage.symbol_ o) =? 0)%nat
  || double_le (OrderMessage.price_ o) double_zero
  || (OrderMessage.quantity_ o =? 0).

Definition market_data_rejected (d : MarketDataMessage.t) : bool :=
  (length (MarketDataMessage.symbol_ d) =? 0)%nat
  || double_lt (MarketDataMessage.bid_ d) double_zero
  || double_lt (MarketDataMessage.ask_ d) double_zero
  || double_ge (MarketDataMessage.bid_ d) (MarketDataMessage.ask_ d).

Definition is_order_type (type : MessageType.t) : bool :=
  match type with
  | Byte.x01 | Byte.x02 | Byte.x03 => true
  | _ => false
  end.

Definition is_market_data_type (type : MessageType.t) : bool :=
  match type with
  | Byte.x05 => true
  | _ => false
  end.

(** A double that is a number: its bits do not encode a NaN. *)
Definition is_number (d : double) : bool :=
  match double_value d with
  | S754_nan => false
  | _ => true
  end.

(** The doubles the validator compares -- the price of an order, the bid
    and the ask of market data -- are numbers. *)
Definition prices_are_numbers (message : AnyMessage) : bool :=
  match message with
  | IsOrder o => is_number (OrderMessage.price_ o)
  | IsMarketData d =>
      is_number (MarketDataMessage.bid_ d) && is_number (MarketDataMessage.ask_ d)
  | _ => true
  end.

Definition compares_numbers (context : InterceptorContext.t) : bool :=
  match InterceptorContext.message_ context with
  | Some message => prices_are_numbers message
  | None => true
  end.

(** When the validator rejects a message whose prices are numbers: the
    message is absent, or its sequence number or its timestamp is 0, or it
    violates a documented invariant (an order object of type New, Cancel or
    Replace; a market data object of type MarketData), or it is a market
    data object of type MarketData with an empty symbol. *)
Definition rejection (context : InterceptorContext.t) : bool :=
  match InterceptorContext.message_ context with
  | None => true
  | Some message =>
      (Message.sequence_number_ (base_of message) =? 0)
      || (Message.timestamp_ (base_of message) =? 0)
      || match message with
         | IsOrder o => negb (documented_invariant message)
         | IsMarketData d =>
             is_market_data_type (Message.type_ (MarketDataMessage.base d))
             && ((length (MarketDataMessage.symbol_ d) =? 0)%nat
                 || negb (documented_invariant message))
         | _ => false
         end
  end.

(** ** Vocabulary of the codec proofs *)

(** The value the loop of [read_le_from] builds from the bytes [bs]. *)
Fixpoint le_acc (i : nat) (bs : list byte) (x : Z) : Z :=
  match bs with
  | [] => x
  | b :: bs' => le_acc (S i) bs' (Z.lor x (Z.shiftl (byte_to_Z b) (Z.of_nat i * 8)))
  end.

(** The value of the bytes [bs], least significant first. *)
Fixpoint le_value (bs : list byte) : Z :=
  match bs with
  | [] => 0
  | b :: bs' => byte_to_Z b + 256 * le_value bs'
  end.

(** The [n] bytes of a frame from index [pos] on, the integer they spell,
    and the byte at an index. *)
Definition segment (data : list byte) (pos n : nat) : list byte := take n (drop pos data).
Definition field (data : list byte) (pos n : nat) : Z := le_value (segment data pos n).
Definition byte_at (data : list byte) (pos : nat) : byte := default Byte.x00 (data !! pos).

(** The length that the length byte at index [pos] announces. *)
Definition announced (data : list byte) (pos : nat) : nat :=
  Z.to_nat (byte_to_Z (byte_at data pos)).

(** Two runs of segments that differ only in how their positions are
    written. *)
Ltac same_segments :=
  repeat match goal with
         | |- segment _ ?a _ ++ _ = segment _ ?b _ ++ _ =>
             replace b with a by lia; f_equal
         | |- segment _ ?a _ = segment _ ?b _ =>
             replace b with a by lia; reflexivity
         end.

(** The objects that a frame spells, field by field, when it is long
    enough: what [deserialize] leaves in [self] when it returns true. *)
Definition header_of_bytes (data : list byte) (receive_time : Z) : Message.t :=
  Message.mk (byte_at data 0) (byte_at data 1)
    (field data 2 8) (field data 10 8) (field data 18 8) receive_time.

Definition order_of_bytes (data : list byte) (self : OrderMessage.t) : OrderMessage.t :=
  let len := Z.to_nat (byte_to_Z (byte_at data 34)) in
  OrderMessage.mk
    (header_of_bytes data (Message.receive_time_ (OrderMessage.base self)))
    (field data 26 8) (segment data 35 len)
    (field data (35 + len) 8) (field data (35 + len + 8) 4)
    (match data !! (35 + len + 8 + 4)%nat with
     | Some f => negb (byte_to_Z f =? 0)
     | None => OrderMessage.is_buy_ self
     end).

Definition market_data_of_bytes (data : list byte) (self : MarketDataMessage.t)
    : MarketDataMessage.t :=
  let len := Z.to_nat (byte_to_Z (byte_at data 26)) in
  MarketDataMessage.mk
    (header_of_bytes data (Message.receive_time_ (MarketDataMessage.base self)))
    (segment data 27 len)
    (field data (27 + len) 8) (field data (27 + len + 8) 8)
    (field data (27 + len + 8 + 8) 4) (field data (27 + len + 8 + 8 + 4) 4).

Definition heartbeat_of_bytes (data : list byte) (self : HeartbeatMessage.t)
    : HeartbeatMessage.t :=
  HeartbeatMessage.mk
    (header_of_bytes data (Message.receive_time_ (HeartbeatMessage.base self))).

Definition error_of_bytes (data : list byte) (self : ErrorMessage.t) : ErrorMessage.t :=
  let len := Z.to_nat (byte_to_Z (byte_at data 30)) in
  ErrorMessage.mk
    (header_of_bytes data (Message.receive_time_ (ErrorMessage.base self)))
    (field data 26 4)
    (if (31 <=? length data)%nat && (31 + len <=? length data)%nat
     then segment data 31 len
     else ErrorMessage.error_message_ self).

(** [reads pre post r bs a]: in a vector made of [pre], [bs] and [post],
    the reader [r] started just after [pre] stays in range, consumes exactly
    [bs] and yields [a]. *)
Definition reads {A} (pre post : list byte) (r : reader A) (bs : list byte) (a : A)
    : Prop :=
  r (pre ++ bs ++ post) (length pre) = Got a (length (pre ++ bs)).

(** The flag byte that [OrderMessage::serialize] writes last. *)
Definition flag_byte (is_buy : bool) : byte := if is_buy then Byte.x01 else Byte.x00.

(** The length byte written before a string. *)
Definition length_byte (s : list byte) : byte := byte_of_Z (Z.of_nat (length s)).

(** The object [self] after it has taken every serialized field of [m]: it
    is [m], but for the receive time, which stays that of [self]. *)
Definition order_decoded (self m : OrderMessage.t) : OrderMessage.t :=
  OrderMessage.mk
    (Message.setReceiveTime (Message.receive_time_ (OrderMessage.base self))
       (OrderMessage.base m))
    (OrderMessage.order_id_ m) (OrderMessage.symbol_ m) (OrderMessage.price_ m)
    (OrderMessage.quantity_ m) (OrderMessage.is_buy_ m).

Definition market_data_decoded (self m : MarketDataMessage.t) : MarketDataMessage.t :=
  MarketDataMessage.mk
    (Message.setReceiveTime (Message.receive_time_ (MarketDataMessage.base self))
       (MarketDataMessage.base m))
    (MarketDataMessage.symbol_ m) (MarketDataMessage.bid_ m) (MarketDataMessage.ask_ m)
    (MarketDataMessage.bid_size_ m) (MarketDataMessage.ask_size_ m).

Definition heartbeat_decoded (self m : HeartbeatMessage.t) : HeartbeatMessage.t :=
  HeartbeatMessage.mk
    (Message.setReceiveTime (Message.receive_time_ (HeartbeatMessage.base self))
       (HeartbeatMessage.base m)).

Definition error_decoded (self m : ErrorMessage.t) : ErrorMessage.t :=
  ErrorMessage.mk
    (Message.setReceiveTime (Message.receive_time_ (ErrorMessage.base self))
       (ErrorMessage.base m))
    (ErrorMessage.error_code_ m) (ErrorMessage.error_message_ m).

(** A validly constructed message, after the data model: fields within the
    ranges of their types, a sequence number and a timestamp other than 0,
    strings of at most 255 bytes, and the invariants of the kind. *)
Definition string_fits (m : AnyMessage) : Prop :=
  match m with
  | IsOrder o => (length (OrderMessage.symbol_ o) <= 255)%nat
  | IsMarketData d => (length (MarketDataMessage.symbol_ d) <= 255)%nat
  | IsHeartbeat _ => True
  | IsError e => (length (ErrorMessage.error_message_ e) <= 255)%nat
  end.

Definition in_range (m : AnyMessage) : Prop :=
  match m with
  | IsOrder o => OrderMessage.wf o
  | IsMarketData d => MarketDataMessage.wf d
  | IsHeartbeat h => HeartbeatMessage.wf h
  | IsError e => ErrorMessage.wf e
  end.

Definition valid (m : AnyMessage) : Prop :=
  in_range m /\ string_fits m
  /\ Message.sequence_number_ (base_of m) <> 0
  /\ Message.timestamp_ (base_of m) <> 0
  /\ documented_invariant m = true.

(** Two objects are of the same class. *)
Definition same_class (a b : AnyMessage) : Prop :=
  match a, b with
  | IsOrder _, IsOrder _ | IsMarketData _, IsMarketData _
  | IsHeartbeat _, IsHeartbeat _ | IsError _, IsError _ => True
  | _, _ => False
  end.

(** [self] after taking every serialized field of [m], class by class. *)
Definition decoded (self m : AnyMessage) : AnyMessage :=
  match self, m with
  | IsOrder s, IsOrder o => IsOrder (order_decoded s o)
  | IsMarketData s, IsMarketData d => IsMarketData (market_data_decoded s d)
  | IsHeartbeat s, IsHeartbeat h => IsHeartbeat (heartbeat_decoded s h)
  | IsError s, IsError e => IsError (error_decoded s e)
  | _, _ => m
  end.

(** An order with a symbol of less than two bytes. *)
Definition short_symbol (m : AnyMessage) : Prop :=
  match m with
  | IsOrder o => (length (OrderMessage.symbol_ o) < 2)%nat
  | _ => False
  end.

(** ** Vocabulary of the monitor proofs *)

(** [p * 2^k], and the number of binary digits of [p]. *)
Definition shl (p : positive) (k : nat) : positive := Nat.iter k xO p.
Definition digits (p : positive) : Z := Z.pos (digits2_pos p).

(** The double that holds the integer [p] of at most 53 bits: the mantissa
    is [p] moved up to 53 bits. *)
Definition int_double (p : positive) : B64.t :=
  S754_finite false (shl p (Z.to_nat (53 - digits p))) (digits p - 53).

(** An integer that a double holds exactly for being positive and of at
    most 53 bits. *)
Definition small (z : Z) : Prop := 0 < z < 2 ^ 53.

(** The sort of [PerformanceMonitor.sort], on integers. *)
Fixpoint insert_Z (x : Z) (l : list Z) : list Z :=
  match l with
  | [] => [x]
  | y :: l' => if y <? x then y :: insert_Z x l' else x :: y :: l'
  end.

Definition sort_Z (l : list Z) : list Z := fold_right insert_Z [] l.

Definition sum_Z (l : list Z) : Z := fold_right Z.add 0 l.

(** The integers 1, 2, ..., 100, ascending, and the same as latencies in
    microseconds. *)
Definition one_to_100 : list Z := seqZ 1 100.

Definition latencies (l : list Z) : list B64.t := List.map B64.of_Z l.

(** The monitor after the samples [l] have been recorded, in the order of
    the list, starting from an empty monitor. *)
Definition recorded (l : list Z) : PerformanceMonitor.t :=
  PerformanceMonitor.record_all (latencies l) PerformanceMonitor.empty.

(** The double [50.5]. *)
Definition lit_50_5 : B64.t := double_value 0x4049400000000000.

(** ** Sample data *)

(** The string ["AAPL"]. *)
Definition AAPL : list byte := [Byte.x41; Byte.x41; Byte.x50; Byte.x4c].

(** The bits of the literals [150.50], [150.45], [150.55], [1.0], [2.0] and
    of a quiet NaN. *)
Definition bits_150_50 : double := 0x4062D00000000000.
Definition bits_150_45 : double := 0x4062CE6666666666.
Definition bits_150_55 : double := 0x4062D1999999999A.
Definition bits_1_0 : double := 0x3FF0000000000000.
Definition bits_2_0 : double := 0x4000000000000000.
Definition bits_nan : double := 0x7FF8000000000000.

(** A header as the constructor leaves it after the first message. *)
Definition sample_header (type : MessageType.t) : Message.t :=
  Message.mk type MessagePriority.NORMAL 1 1700000000000000 0 0.

(** The order of main.cpp, [OrderMessage(12345, "AAPL", 150.50, 100, true)],
    built as the first message of a process. *)
Definition first_order : OrderMessage.t :=
  fst (OrderMessage.new 12345 AAPL bits_150_50 100 true
         1700000000000000 Message.initial_counter).

(** Scenarios E1, E2 and E4: the order of main.cpp built as the second
    message of a process; a quote with bid 150.55 above ask 150.45; the
    heartbeat decoded from a frame whose header fields are all zero. *)
Definition second_order_context : InterceptorContext.t :=
  InterceptorContext.new
    (Some (IsOrder (fst (OrderMessage.new 12345 AAPL bits_150_50 100 true
                           1700000000000000 1)))) 0.

Definition crossed_quote_context : InterceptorContext.t :=
  InterceptorContext.new
    (Some (IsMarketData
             (MarketDataMessage.mk (sample_header MessageType.MARKET_DATA)
                AAPL bits_150_55 bits_150_45 1000 1000))) 0.

Definition zero_heartbeat_context : InterceptorContext.t :=
  InterceptorContext.new
    (Some (IsHeartbeat (HeartbeatMessage.mk (Message.mk Byte.x06 Byte.x02 0 0 0 0)))) 0.

(** The validator as a link of a chain whose interceptors share the state
    [W], and a second link that counts its calls. *)
Definition validator_link {W : Type} : IInterceptor W :=
  fun context w =>
    let '(ok, context') := ValidationInterceptor.intercept context in (ok, context', w).

(** A quote with no symbol and sound prices, 1.0 < 2.0. *)
Definition unnamed_quote_context : InterceptorContext.t :=
  InterceptorContext.new
    (Some (IsMarketData
             (MarketDataMessage.mk (sample_header MessageType.MARKET_DATA)
                [] bits_1_0 bits_2_0 1000 1000))) 0.

(** An order whose price is not a number. *)
Definition nan_price_context : InterceptorContext.t :=
  InterceptorContext.new
    (Some (IsOrder
             (OrderMessage.mk (sample_header MessageType.ORDER_NEW)
                12345 AAPL bits_nan 100 true))) 0.

(** An OrderFill with order id 0, no symbol, price 0.0 and quantity 0. *)
Definition blank_fill : OrderMessage.t :=
  OrderMessage.mk (sample_header MessageType.ORDER_FILL) 0 [] double_zero 0 true.
Definition blank_fill_context : InterceptorContext.t :=
  InterceptorContext.new (Some (IsOrder blank_fill)) 0.

(** Interceptors over a counter of calls: [pass] and [stop] count the call
    and return continue and stop. *)
Definition pass : IInterceptor nat := fun context calls => (true, context, S calls).
Definition stop : IInterceptor nat := fun context calls => (false, context, S calls).

(** Scenario E3: three messages 0, 3 and 7 ms after the start of the
    window of a throttler that allows two per second. *)
Definition three_calls : list (Z * InterceptorContext.t) :=
  [(0, InterceptorContext.new None 0);
   (3000000, InterceptorContext.new None 3000000);
   (7000000, InterceptorContext.new None 7000000)].

(** [OrderMessage(1, "F", 1.0, 1, true)], built as the second message of a
    process. *)
Definition order_F : OrderMessage.t :=
  fst (OrderMessage.new 1 [Byte.x46] bits_1_0 1 true 1700000000000000 1).

(** A frame of 50 bytes: type OrderNew, zeros up to the symbol length at
    index 34, which is 15, and 15 bytes of symbol. *)
Definition order_frame_50 : list byte :=
  Byte.x01 :: repeat Byte.x00 33 ++ [Byte.x0f] ++ repeat Byte.x41 15.

(** A frame of 50 bytes: type MarketData, zeros, among them the symbol
    length at index 26. *)
Definition quote_frame_50 : list byte := Byte.x05 :: repeat Byte.x00 49.

(** A frame of 33 bytes: type Error, zeros up to the text length at index
    30, which is 5, and 2 bytes of text. *)
Definition error_frame_33 : list byte :=
  Byte.x09 :: repeat Byte.x00 29 ++ [Byte.x05; Byte.x41; Byte.x42].

(** A frame of 60 bytes of type OrderNew announcing a symbol of 200 bytes at
    index 34. *)
Definition order_frame_60 : list byte :=
  Byte.x01 :: repeat Byte.x00 33 ++ [Byte.xc8] ++ repeat Byte.x41 25.

(** A frame of 26 bytes: type Heartbeat, priority Normal, zeros. *)
Definition heartbeat_frame_zeros : list byte :=
  Byte.x06 :: Byte.x02 :: repeat Byte.x00 24.

(** A frame of 50 bytes of type OrderNew, sequence number and timestamp 1,
    order id 1, symbol "AA", price 1.0, quantity 1 and a flag byte 2. *)
Definition order_frame_flag_2 : list byte :=
  [Byte.x01; Byte.x02]
    ++ push_le 8 1 ++ push_le 8 1 ++ push_le 8 0
    ++ push_le 8 1 ++ [Byte.x02; Byte.x41; Byte.x41]
    ++ push_le 8 bits_1_0 ++ push_le 4 1 ++ [Byte.x02].

(** Objects as the factory builds them for a frame. *)
Definition blank_heartbeat : HeartbeatMessage.t :=
  fst (HeartbeatMessage.default 1700000000000000 7).
Definition blank_order : OrderMessage.t := fst (OrderMessage.default 1700000000000000 7).
Definition blank_quote : MarketDataMessage.t :=
  fst (MarketDataMessage.default 1700000000000000 7).
Definition blank_error : ErrorMessage.t := fst (ErrorMessage.default 1700000000000000 7).

(** ** Vocabulary and sample data of the further properties *)

(** The receive time of a message. *)
Definition receive_time (m : AnyMessage) : Z := Message.receive_time_ (base_of m).

(** The type byte of the message is one for which [MessageFactory] builds
    an object of the class of the message. *)
Definition type_of_class (m : AnyMessage) : Prop :=
  match m with
  | IsOrder o =>
      Message.type_ (OrderMessage.base o) = MessageType.ORDER_NEW
      \/ Message.type_ (OrderMessage.base o) = MessageType.ORDER_CANCEL
      \/ Message.type_ (OrderMessage.base o) = MessageType.ORDER_REPLACE
      \/ Message.type_ (OrderMessage.base o) = MessageType.ORDER_FILL
  | IsMarketData d => Message.type_ (MarketDataMessage.base d) = MessageType.MARKET_DATA
  | IsHeartbeat h => Message.type_ (HeartbeatMessage.base h) = MessageType.HEARTBEAT
  | IsError e => Message.type_ (ErrorMessage.base e) = MessageType.ERROR
  end.

(** An order with a symbol of 256 bytes. *)
Definition order_256 : OrderMessage.t :=
  OrderMessage.mk (sample_header MessageType.ORDER_NEW) 12345 (repeat Byte.x41 256)
    bits_150_50 100 true.

(** Three constructor calls. *)
Definition three_constructions : list (MessageType.t * MessagePriority.t * Z) :=
  [(MessageType.ORDER_NEW, MessagePriority.NORMAL, 1700000000000000);
   (MessageType.HEARTBEAT, MessagePriority.NORMAL, 1700000000000001);
   (MessageType.MARKET_DATA, MessagePriority.HIGH, 1700000000000002)].

(** What the validator answers on a message: whether it returns continue,
    and the texts it leaves under "error" and "validation". *)
Definition verdict (m : AnyMessage) : bool * string * string :=
  let result := ValidationInterceptor.intercept (InterceptorContext.new (Some m) 0) in
  (fst result,
   InterceptorContext.getMetadata "error" (snd result),
   InterceptorContext.getMetadata "validation" (snd result)).

(** A context that holds the order of main.cpp and a validation mark. *)
Definition marked_context : InterceptorContext.t :=
  InterceptorContext.setMetadata "validation" "passed"
    (InterceptorContext.new (Some (IsOrder first_order)) 0).

(** Two calls 999.0 ms and 999.5 ms after the start of a window, and the
    call 1000.5 ms after it, which follows the one that opens the next
    window at 1000.0 ms. *)
Definition late_calls : list (Z * InterceptorContext.t) :=
  [(999000000, InterceptorContext.new None 0); (999500000, InterceptorContext.new None 0)].
Definition next_calls : list (Z * InterceptorContext.t) :=
  [(1000500000, InterceptorContext.new None 0)].

(** ** Vocabulary of the dispatcher proofs *)

(** The messages of the queue entries addressed to a service, front
    first. *)
Definition addressed (service_name : string) (q : list (string * AnyMessage))
    : list AnyMessage :=
  (filter (fun entry => fst entry = service_name) q).*2.

(** A service after the messages have been handed to it one by one: a
    running service has taken them all, in order; a stopped one none. *)
Definition after_delivery (messages : list AnyMessage) (s : Service.t) : Service.t :=
  fold_left (fun s m => Service.processMessage (Some m) s) messages s.

(** [sendMessage] called once per entry of [sends], in order. *)
Definition send_all (sends : list (string * AnyMessage)) (self : Dispatcher.t)
    : Dispatcher.t :=
  fold_left (fun self entry => Dispatcher.sendMessage (fst entry) (Some (snd entry)) self)
    sends self.

(** Sample services: order matching (running) and market data (stopped),
    and a running dispatcher in which both were registered afterwards. *)
Definition matching_service : Service.t := Service.mk "OrderMatching" true [].
Definition market_service : Service.t := Service.mk "MarketData" false [].
Definition two_services : Dispatcher.t :=
  Dispatcher.registerService (Some market_service)
    (Dispatcher.registerService (Some matching_service)
       (Dispatcher.startAllServices Dispatcher.initial)).

(** Two messages for order matching with one for market data in between. *)
Definition three_sends : list (string * AnyMessage) :=
  [("OrderMatching", IsOrder first_order);
   ("MarketData", IsHeartbeat blank_heartbeat);
   ("OrderMatching", IsOrder order_F)].

(** The quotient of [m] by [2^s] rounded to nearest, ties to even, the way
    [shr] and [round_nearest_even] compute it: from the quotient, the bit
    below it and whether any lower bit is set. *)
Definition nearest_even (m s : Z) : Z :=
  round_nearest_even (m / 2 ^ s)
    (loc_of_shr_record
       (Build_shr_record (m / 2 ^ s) (Z.odd (m / 2 ^ (s - 1)))
          (negb (m mod 2 ^ (s - 1) =? 0)))).

(** The literal [0.5] of the benchmark in main.cpp. *)
Definition lit_0_5 : B64.t := double_value 0x3FE0000000000000.

(** The samples that the monitor holds after the samples [l] have been
    recorded into an empty monitor: the latest [MAX_SAMPLES] of them. *)
Definition window (l : list Z) : list Z :=
  drop (length l - Z.to_nat PerformanceMonitor.MAX_SAMPLES) l.

(** Twenty samples of 7 us. *)
Definition twenty_sevens : list Z := repeat 7 20.

(** * Properties *)

(** ** Sequence numbers (message.cpp, [Message::Message]) *)

Lemma sequence_numbers_length calls counter :
  length (sequence_numbers calls counter) = length calls.
Proof.
  revert counter. induction calls as [|[[ty prio] now] rest IH]; intros counter.
  - reflexivity.
  - cbn. f_equal. apply IH.
Qed.

(** While the counter does not wrap, successive constructions are given
    successive numbers, starting from the value of the counter. *)
Lemma sequence_numbers_consecutive calls counter :
  0 <= counter ->
  counter + Z.of_nat (length calls) <= UINT64_MOD ->
  sequence_numbers calls counter =
  List.map (fun i => counter + Z.of_nat i) (seq 0 (length calls)).
Proof.
  revert counter. induction calls as [|[[ty prio] now] rest IH]; intros counter Hlo Hhi.
  - reflexivity.
  - cbn [sequence_numbers Message.new Message.fetch_add_1 Message.sequence_number_
         length seq List.map].
    f_equal; [lia|].
    destruct rest as [|call rest'] eqn:E; [reflexivity|]. rewrite <- E in *.
    assert (Hlen : (1 <= length rest)%nat) by (subst rest; cbn; lia).
    cbn [length] in Hhi.
    rewrite Z.mod_small by lia.
    rewrite IH by lia.
    rewrite <- seq_shift, List.map_map.
    apply List.map_ext. intros i. lia.
Qed.

(** Hence they are strictly increasing, and pairwise distinct. *)
Lemma sequence_numbers_increasing calls counter :
  0 <= counter ->
  counter + Z.of_nat (length calls) <= UINT64_MOD ->
  forall i j a b,
    sequence_numbers calls counter !! i = Some a ->
    sequence_numbers calls counter !! j = Some b ->
    (i < j)%nat -> a < b.
Proof.
  intros Hlo Hhi i j a b Hi Hj Hij.
  rewrite sequence_numbers_consecutive in Hi, Hj by assumption.
  rewrite list_lookup_fmap in Hi, Hj.
  destruct (seq 0 (length calls) !! i) as [x|] eqn:Ex; [|discriminate].
  destruct (seq 0 (length calls) !! j) as [y|] eqn:Ey; [|discriminate].
  apply lookup_seq in Ex as [-> _]. apply lookup_seq in Ey as [-> _].
  cbn in Hi, Hj. injection Hi as <-. injection Hj as <-. lia.
Qed.

(** After [2^64] constructions the counter is back where it started. *)
Lemma counter_wraps :
  snd (Message.fetch_add_1 (UINT64_MOD - 1)) = 0.
Proof. reflexivity. Qed.

(** C4: every constructed message is given a sequence number that is never
    zero.  Evaluated on the code: the first message constructed in a
    process, whatever its type, priority and time of construction, is given
    the sequence number 0, because [fetch_add] returns the value the
    counter had before the addition and the counter starts at 0. *)
Theorem first_message_sequence_number_zero :
  forall (type : MessageType.t) (priority : MessagePriority.t) (now_us : Z),
    Message.sequence_number_
      (fst (Message.new type priority now_us Message.initial_counter)) = 0.
Proof. intros. reflexivity. Qed.

(** The order that [runPerformanceTest] of main.cpp builds first, when it is
    the first message of the process, is turned down by the validator of
    the same code base. *)
Example first_order_is_rejected :
  ValidationInterceptor.intercept
    (InterceptorContext.new (Some (IsOrder first_order)) 0)
  = (false,
     InterceptorContext.setMetadata "error" "Invalid sequence number"
       (InterceptorContext.new (Some (IsOrder first_order)) 0)).
Proof. reflexivity. Qed.

(** ** The dispatcher queue (service_manager.cpp, [sendMessage]) *)

(** C9, as stated: there is a capacity at which [sendMessage] leaves the
    queue as it is.  The code has none. *)
Lemma sendMessage_has_no_capacity :
  ~ (exists capacity : nat,
       forall (service_name : string) (m : AnyMessage) (q : ServiceManager.queue),
         (capacity <= length q)%nat ->
         ServiceManager.sendMessage service_name (Some m) q = q).
Proof.
  intros [capacity H].
  pose (hb := IsHeartbeat (HeartbeatMessage.mk (Message.mk Byte.x06 Byte.x02 1 1 0 0))).
  specialize (H "Risk" hb (repeat ("Risk", hb) capacity)).
  rewrite repeat_length in H. specialize (H (le_n _)).
  apply (f_equal (@length _)) in H.
  cbn [ServiceManager.sendMessage] in H.
  rewrite length_app, repeat_length in H. cbn in H. lia.
Qed.

(** C9, amended: [sendMessage] with a message appends the pair (name,
    message) at the back of the queue, whatever the length of the queue,
    which grows by one and keeps its earlier entries in place; with a null
    message it leaves the queue as it is.  It reports nothing. *)
Theorem sendMessage_always_enqueues :
  forall (service_name : string) (m : AnyMessage) (q : ServiceManager.queue),
    ServiceManager.sendMessage service_name (Some m) q = (q ++ [(service_name, m)])%list
    /\ length (ServiceManager.sendMessage service_name (Some m) q) = S (length q)
    /\ (forall i, (i < length q)%nat ->
          ServiceManager.sendMessage service_name (Some m) q !! i = q !! i)
    /\ ServiceManager.sendMessage service_name None q = q.
Proof.
  intros service_name m q. cbn [ServiceManager.sendMessage].
  repeat split.
  - rewrite length_app. cbn. lia.
  - intros i Hi. apply lookup_app_l. exact Hi.
Qed.

(** ** The validator (interceptor.cpp, [ValidationInterceptor::intercept]) *)

Lemma check_order_spec o :
  ValidationInterceptor.check_order (IsOrder o) = None <-> order_rejected o = false.
Proof.
  unfold ValidationInterceptor.check_order, order_rejected.
  destruct (OrderMessage.order_id_ o =? 0); [cbn; split; discriminate|].
  destruct (length (OrderMessage.symbol_ o) =? 0)%nat; [cbn; split; discriminate|].
  destruct (double_le (OrderMessage.price_ o) double_zero); [cbn; split; discriminate|].
  destruct (OrderMessage.quantity_ o =? 0); cbn; split; congruence.
Qed.

Lemma check_market_data_spec d :
  ValidationInterceptor.check_market_data (IsMarketData d) = None
  <-> market_data_rejected d = false.
Proof.
  unfold ValidationInterceptor.check_market_data, market_data_rejected.
  destruct (length (MarketDataMessage.symbol_ d) =? 0)%nat; [cbn; split; discriminate|].
  destruct (double_lt (MarketDataMessage.bid_ d) double_zero); [cbn; split; discriminate|].
  destruct (double_lt (MarketDataMessage.ask_ d) double_zero); [cbn; split; discriminate|].
  destruct (double_ge (MarketDataMessage.bid_ d) (MarketDataMessage.ask_ d));
    cbn; split; congruence.
Qed.

(** The [switch] reaches the order checks for the three order types, the
    market data checks for MarketData, and nothing otherwise. *)
Lemma check_kind_spec message :
  ValidationInterceptor.check_kind message = None <->
  match message with
  | IsOrder o => is_order_type (Message.type_ (OrderMessage.base o)) && order_rejected o
  | IsMarketData d =>
      is_market_data_type (Message.type_ (MarketDataMessage.base d))
      && market_data_rejected d
  | _ => false
  end = false.
Proof.
  unfold ValidationInterceptor.check_kind.
  destruct message as [o|d|h|e]; cbn [base_of].
  - destruct (Message.type_ (OrderMessage.base o)); cbn [is_order_type andb];
      first [apply check_order_spec | split; reflexivity].
  - destruct (Message.type_ (MarketDataMessage.base d)); cbn [is_market_data_type andb];
      first [apply check_market_data_spec | split; reflexivity].
  - destruct (Message.type_ (HeartbeatMessage.base h)); split; reflexivity.
  - destruct (Message.type_ (ErrorMessage.base e)); split; reflexivity.
Qed.

(** C5, as stated, fails on a market data message with an empty symbol and
    sound prices (1.0 < 2.0): no documented invariant is violated, and the
    validator stops with "Empty symbol". *)
Lemma validator_rejects_empty_market_symbol :
  documented_rejection unnamed_quote_context = false
  /\ ValidationInterceptor.intercept unnamed_quote_context
     = (false,
        InterceptorContext.setMetadata "error" "Empty symbol" unnamed_quote_context).
Proof. split; reflexivity. Qed.

(** The sample bit patterns are the doubles nearest to the decimals they
    stand for. *)
Example sample_bits :
  double_value bits_150_50 = B64.div (B64.of_Z 15050) (B64.of_Z 100)
  /\ double_value bits_150_45 = B64.div (B64.of_Z 15045) (B64.of_Z 100)
  /\ double_value bits_150_55 = B64.div (B64.of_Z 15055) (B64.of_Z 100)
  /\ double_value bits_1_0 = B64.of_Z 1
  /\ double_value bits_2_0 = B64.of_Z 2
  /\ double_value bits_nan = S754_nan.
Proof. repeat split; vm_compute; reflexivity. Qed.

(** Scenarios E1, E2 and E4 of the specification. *)
Example scenario_E1 :
  process [validator_link; pass] second_order_context 0%nat
  = (true, InterceptorContext.setMetadata "validation" "passed" second_order_context,
     1%nat).
Proof. reflexivity. Qed.

Example scenario_E2 :
  process [validator_link; pass] crossed_quote_context 0%nat
  = (false, InterceptorContext.setMetadata "error" "Bid >= Ask" crossed_quote_context,
     0%nat).
Proof. reflexivity. Qed.

Example scenario_E4 :
  ValidationInterceptor.intercept zero_heartbeat_context
  = (false,
     InterceptorContext.setMetadata "error" "Invalid sequence number"
       zero_heartbeat_context).
Proof. reflexivity. Qed.

(** A price that is not a number violates [price > 0] and slips through the
    check [price <= 0.0]: the validator lets the order pass. *)
Example validator_accepts_nan_price :
  documented_rejection nan_price_context = true
  /\ fst (ValidationInterceptor.intercept nan_price_context) = true.
Proof. split; reflexivity. Qed.

(** Two doubles that are numbers compare one way or the other. *)
Lemma SFcompare_antisym x y :
  x <> S754_nan -> y <> S754_nan ->
  exists c, SFcompare x y = Some c /\ SFcompare y x = Some (CompOpp c).
Proof.
  intros Hx Hy.
  destruct x as [sx|sx| |sx mx ex], y as [sy|sy| |sy my ey]; try contradiction;
    try (destruct sx); try (destruct sy); cbn [SFcompare];
    try (eexists; split; reflexivity).
  - rewrite (Z.compare_antisym ex ey).
    destruct (ex ?= ey); cbn [CompOpp]; eexists; (split; [reflexivity|]); try reflexivity.
    rewrite CompOpp_involutive. apply (f_equal Some).
    exact (Pos.compare_cont_antisym my mx Eq).
  - rewrite (Z.compare_antisym ex ey).
    destruct (ex ?= ey); cbn [CompOpp]; eexists; (split; [reflexivity|]); try reflexivity.
    apply (f_equal Some). symmetry. exact (Pos.compare_cont_antisym mx my Eq).
Qed.

Lemma is_number_value d : is_number d = true -> double_value d <> S754_nan.
Proof. unfold is_number. intros H E. rewrite E in H. discriminate. Qed.

(** On numbers, [a <= b] is the negation of [b < a]. *)
Lemma double_le_not_lt a b :
  is_number a = true -> is_number b = true ->
  double_le a b = negb (double_lt b a).
Proof.
  intros Ha Hb. unfold double_le, double_lt, SFleb, SFltb.
  destruct (SFcompare_antisym (double_value a) (double_value b)) as (c & H1 & H2);
    [apply is_number_value; exact Ha | apply is_number_value; exact Hb |].
  rewrite H1, H2. destruct c; reflexivity.
Qed.

Lemma zero_is_number : is_number double_zero = true.
Proof. reflexivity. Qed.

(** On numbers, the tests of the branches are the negations of the
    documented invariants, and the test of the market data symbol. *)
Lemma rejection_by_branches message :
  prices_are_numbers message = true ->
  match message with
  | IsOrder o => is_order_type (Message.type_ (OrderMessage.base o)) && order_rejected o
  | IsMarketData d =>
      is_market_data_type (Message.type_ (MarketDataMessage.base d))
      && market_data_rejected d
  | _ => false
  end
  = match message with
    | IsOrder o => negb (documented_invariant message)
    | IsMarketData d =>
        is_market_data_type (Message.type_ (MarketDataMessage.base d))
        && ((length (MarketDataMessage.symbol_ d) =? 0)%nat
            || negb (documented_invariant message))
    | _ => false
    end.
Proof.
  destruct message as [o|d|h|e]; cbn; intros Hn; try reflexivity.
  - unfold order_rejected, double_gt.
    rewrite (double_le_not_lt _ _ Hn zero_is_number).
    destruct (Message.type_ (OrderMessage.base o)); cbn [is_order_type andb negb];
      try reflexivity;
      destruct (OrderMessage.order_id_ o =? 0), (length (OrderMessage.symbol_ o) =? 0)%nat,
        (double_lt double_zero (OrderMessage.price_ o)), (OrderMessage.quantity_ o =? 0);
      reflexivity.
  - apply andb_true_iff in Hn as [Hb Ha].
    unfold market_data_rejected, double_ge.
    rewrite (double_le_not_lt _ _ zero_is_number Hb), (double_le_not_lt _ _ zero_is_number Ha),
      (double_le_not_lt _ _ Ha Hb).
    destruct (is_market_data_type _); cbn [andb]; [|reflexivity].
    destruct (length (MarketDataMessage.symbol_ d) =? 0)%nat,
      (double_lt (MarketDataMessage.bid_ d) double_zero),
      (double_lt (MarketDataMessage.ask_ d) double_zero),
      (double_lt (MarketDataMessage.bid_ d) (MarketDataMessage.ask_ d)); reflexivity.
Qed.

(** C5, amended: for a message whose price, bid and ask are numbers, the
    validator returns stop and sets [metadata["error"]] if and only if the
    message is absent, or its sequence number is 0, or its timestamp is 0,
    or it is an order object of type New, Cancel or Replace that violates
    [order_id != 0], a non-empty symbol, [price > 0] or [quantity > 0], or a
    market data object of type MarketData that has an empty symbol or
    violates [bid < ask], [bid >= 0] or [ask >= 0]; otherwise it returns
    continue and sets [metadata["validation"] = "passed"], and nothing else
    in the context changes either way. *)
Theorem validator_rejects_iff :
  forall context : InterceptorContext.t,
    compares_numbers context = true ->
    (rejection context = true <->
       exists why : string,
         ValidationInterceptor.intercept context
         = (false, InterceptorContext.setMetadata "error" why context))
    /\ (rejection context = false <->
          ValidationInterceptor.intercept context
          = (true, InterceptorContext.setMetadata "validation" "passed" context)).
Proof.
  intros context.
  unfold compares_numbers, rejection, ValidationInterceptor.intercept,
    InterceptorContext.getMessage, ValidationInterceptor.reject.
  destruct (InterceptorContext.message_ context) as [message|]; intros Hn.
  2: { split; split; try discriminate; eauto. }
  destruct (Message.sequence_number_ (base_of message) =? 0).
  { cbn [orb]. split; split; try discriminate; eauto. }
  destruct (Message.timestamp_ (base_of message) =? 0).
  { cbn [orb]. split; split; try discriminate; eauto. }
  cbn [orb]. pose proof (check_kind_spec message) as Hk.
  rewrite (rejection_by_branches message Hn) in Hk.
  destruct (ValidationInterceptor.check_kind message) as [why|].
  - destruct Hk as [_ Hk].
    match goal with |- (?b = true <-> _) /\ _ => destruct b end.
    + split; split; try discriminate; eauto.
    + specialize (Hk eq_refl). discriminate.
  - destruct Hk as [Hk _]. rewrite (Hk eq_refl).
    split; split; try discriminate; eauto. intros [why' H]. discriminate.
Qed.

(** Scenario E2: the prices of the crossed quote are numbers, it violates
    [bid < ask], and the validator stops. *)
Lemma validator_rejects_iff_witness :
  compares_numbers crossed_quote_context = true
  /\ rejection crossed_quote_context = true
  /\ exists why : string,
       ValidationInterceptor.intercept crossed_quote_context
       = (false, InterceptorContext.setMetadata "error" why crossed_quote_context).
Proof.
  split; [reflexivity|]. split; [reflexivity|].
  apply (proj1 (proj1 (validator_rejects_iff crossed_quote_context eq_refl))).
  reflexivity.
Defined.

(** C10: an order object whose type is OrderFill, with a sequence number and
    a timestamp other than 0, passes the validator whatever its order id,
    symbol, price and quantity: the validator returns continue and sets
    [metadata["validation"] = "passed"]; and the factory does build an
    order object for the type OrderFill. *)
Theorem order_fill_is_not_validated :
  forall (o : OrderMessage.t) (context : InterceptorContext.t),
    Message.type_ (OrderMessage.base o) = MessageType.ORDER_FILL ->
    Message.sequence_number_ (OrderMessage.base o) <> 0 ->
    Message.timestamp_ (OrderMessage.base o) <> 0 ->
    InterceptorContext.message_ context = Some (IsOrder o) ->
    ValidationInterceptor.intercept context
    = (true, InterceptorContext.setMetadata "validation" "passed" context)
    /\ InterceptorContext.getMetadata "validation"
         (snd (ValidationInterceptor.intercept context)) = "passed"
    /\ forall now_us counter,
         fst (MessageFactory.createMessage_type MessageType.ORDER_FILL now_us counter)
         = Some (IsOrder (fst (OrderMessage.default now_us counter))).
Proof.
  intros o context Hty Hseq Hts Hmsg.
  assert (H : ValidationInterceptor.intercept context
              = (true, InterceptorContext.setMetadata "validation" "passed" context)).
  { unfold ValidationInterceptor.intercept, InterceptorContext.getMessage.
    rewrite Hmsg. cbn [base_of].
    apply Z.eqb_neq in Hseq, Hts. rewrite Hseq, Hts.
    unfold ValidationInterceptor.check_kind. cbn [base_of]. rewrite Hty. reflexivity. }
  split; [exact H|]. split.
  - rewrite H. cbn [snd]. unfold InterceptorContext.getMetadata,
      InterceptorContext.setMetadata. cbn [InterceptorContext.metadata_].
    rewrite lookup_insert_eq. reflexivity.
  - intros now_us counter. reflexivity.
Qed.

(** An OrderFill with order id 0, no symbol, price 0.0 and quantity 0. *)
Lemma order_fill_is_not_validated_witness :
  ValidationInterceptor.intercept blank_fill_context
  = (true, InterceptorContext.setMetadata "validation" "passed" blank_fill_context).
Proof.
  refine (proj1 (order_fill_is_not_validated blank_fill blank_fill_context _ _ _ _)).
  - reflexivity.
  - cbn. lia.
  - cbn. lia.
  - reflexivity.
Defined.

(** ** The chain (interceptor.cpp, [InterceptorChain::process]) *)

Section ChainProperties.
Context {W : Type}.
Implicit Types (chain pre post : InterceptorChain W) (s : IInterceptor W).

(** Running a chain made of two parts: the second part runs only if the
    first returned true, from the context and state the first left. *)
Lemma process_app pre post context w :
  process (pre ++ post) context w =
  let '(ok, context', w') := process pre context w in
  if ok then process post context' w' else (false, context', w').
Proof.
  revert context w. induction pre as [|i pre IH]; intros context w; cbn.
  - reflexivity.
  - destruct (i context w) as [[[] context'] w']; [apply IH | reflexivity].
Qed.

(** Whatever comes after the first interceptor that returns stop makes no
    difference to the outcome. *)
Lemma process_stops_at_first_stop pre s post context w context1 w1 context2 w2 :
  process pre context w = (true, context1, w1) ->
  s context1 w1 = (false, context2, w2) ->
  process (pre ++ s :: post) context w = (false, context2, w2).
Proof.
  intros Hpre Hs. rewrite process_app, Hpre. cbn. rewrite Hs. reflexivity.
Qed.

End ChainProperties.


(** The chain [A, Stop, C]: [C] is not invoked (two calls are counted, the
    journal ends with the stop). *)
Example chain_A_Stop_C :
  process [pass; stop; pass] (InterceptorContext.new None 0) 0%nat
  = (false, InterceptorContext.new None 0, 2%nat)
  /\ process (journaled_chain 0 [pass; stop; pass]) (InterceptorContext.new None 0)
       (0%nat, [])
     = (false, InterceptorContext.new None 0, (2%nat, [(0%nat, true); (1%nat, false)])).
Proof. split; reflexivity. Qed.

(** ** The throttler (interceptor.cpp, [ThrottlingInterceptor::intercept]) *)

Section ThrottleProperties.
Import ThrottlingInterceptor.

(** Inside the window nothing is reset. *)
Lemma reset_if_elapsed_in_window now self :
  elapsed_ms now (last_check_ self) < 1000 ->
  reset_if_elapsed now self = self.
Proof.
  intros H. unfold reset_if_elapsed.
  destruct (Z.leb_spec 1000 (elapsed_ms now (last_check_ self))); [lia | reflexivity].
Qed.

(** One call inside the window. *)
Lemma intercept_in_window N window_start count now context :
  0 <= count -> N < SIZE_MOD ->
  elapsed_ms now window_start < 1000 ->
  intercept now context (mk N window_start count) =
  if count <? N
  then (accepted context, mk N window_start (count + 1))
  else (throttled context, mk N window_start count).
Proof.
  intros Hc HN Hw. unfold intercept.
  rewrite reset_if_elapsed_in_window by exact Hw.
  cbn [max_messages_per_second_ message_count_ last_check_].
  destruct (Z.leb_spec N count), (Z.ltb_spec count N); try lia; [reflexivity|].
  rewrite Z.mod_small by lia. reflexivity.
Qed.

(** One call after the window has run out. *)
Lemma intercept_after_window N window_start count now context :
  1000 <= elapsed_ms now window_start ->
  intercept now context (mk N window_start count) =
  intercept now context (mk N now 0).
Proof.
  intros Hw. unfold intercept, reset_if_elapsed.
  cbn [max_messages_per_second_ message_count_ last_check_].
  replace (elapsed_ms now now) with 0 by (unfold elapsed_ms; rewrite Z.sub_diag; reflexivity).
  destruct (Z.leb_spec 1000 (elapsed_ms now window_start)); [|lia].
  reflexivity.
Qed.

(** A run of calls inside one window, entered with [count] messages
    already let through. *)
Lemma intercept_all_in_window N window_start calls :
  N < SIZE_MOD ->
  Forall (fun call => elapsed_ms (fst call) window_start < 1000) calls ->
  forall count, 0 <= count <= N ->
    length (fst (intercept_all calls (mk N window_start count))) = length calls
    /\ (forall (i : nat) now context,
          calls !! i = Some (now, context) ->
          fst (intercept_all calls (mk N window_start count)) !! i
          = Some (if count + Z.of_nat i <? N then accepted context else throttled context))
    /\ snd (intercept_all calls (mk N window_start count))
       = mk N window_start (Z.min N (count + Z.of_nat (length calls)))
    /\ Z.of_nat (length (List.filter fst
                           (fst (intercept_all calls (mk N window_start count)))))
       = Z.min N (count + Z.of_nat (length calls)) - count.
Proof.
  intros HN Hall. induction Hall as [|[now context] rest Hnow Hrest IH]; intros count Hc.
  - cbn. repeat split; try lia.
    + intros i now context H. rewrite lookup_nil in H. discriminate.
    + f_equal. lia.
  - cbn [fst] in Hnow. cbn [intercept_all].
    rewrite intercept_in_window by (lia || assumption).
    destruct (Z.ltb_spec count N) as [Hlt|Hge].
    + destruct (IH (count + 1)) as (Hlen & Hidx & Hst & Hacc); [lia|].
      destruct (intercept_all rest (mk N window_start (count + 1))) as [results self'].
      cbn [fst snd accepted] in *. repeat split.
      * cbn. lia.
      * intros [|i] now' context' H; cbn in H |- *.
        -- injection H as <- <-. rewrite Z.add_0_r.
           destruct (Z.ltb_spec count N); [reflexivity | lia].
        -- replace (count + Z.of_nat (S i)) with (count + 1 + Z.of_nat i) by lia.
           exact (Hidx i now' context' H).
      * rewrite Hst. f_equal. cbn [length]. lia.
      * cbn [List.filter fst length]. cbn [length] in *. lia.
    + assert (count = N) by lia. subst count.
      destruct (IH N) as (Hlen & Hidx & Hst & Hacc); [lia|].
      destruct (intercept_all rest (mk N window_start N)) as [results self'].
      cbn [fst snd throttled] in *. repeat split.
      * cbn. lia.
      * intros [|i] now' context' H; cbn in H |- *.
        -- injection H as <- <-. rewrite Z.add_0_r.
           destruct (Z.ltb_spec N N); [lia | reflexivity].
        -- replace (N + Z.of_nat (S i) <? N) with (N + Z.of_nat i <? N).
           ++ exact (Hidx i now' context' H).
           ++ destruct (Z.ltb_spec (N + Z.of_nat i) N),
                (Z.ltb_spec (N + Z.of_nat (S i)) N); try lia; reflexivity.
      * rewrite Hst. f_equal. cbn [length]. lia.
      * cbn [List.filter fst length]. cbn [length] in *. lia.
Qed.

(** The clock counts nanoseconds and [duration_cast] truncates: less than
    1000 ms have elapsed exactly when less than 1 000 000 000 ticks have. *)
Lemma elapsed_ms_in_window now window_start :
  elapsed_ms now window_start < 1000 <-> now - window_start < 1000000000.
Proof.
  unfold elapsed_ms.
  pose proof (Z.quot_rem' (now - window_start) 1000000) as Hd.
  destruct (Z.le_gt_cases 0 (now - window_start)) as [Hs|Hs].
  - pose proof (Z.rem_bound_pos (now - window_start) 1000000 Hs ltac:(lia)). lia.
  - pose proof (Z.rem_bound_pos_neg (now - window_start) 1000000 ltac:(lia) ltac:(lia)). lia.
Qed.

(** One call 1000 ms or more after the start of the window. *)
Lemma intercept_on_reset N window_start count now context :
  0 <= N < SIZE_MOD ->
  1000000000 <= now - window_start ->
  intercept now context (mk N window_start count) =
  if 0 <? N
  then (accepted context, mk N now 1)
  else (throttled context, mk N now 0).
Proof.
  intros HN Hw.
  rewrite intercept_after_window
    by (pose proof (elapsed_ms_in_window now window_start); lia).
  rewrite intercept_in_window; [reflexivity | lia | lia |].
  apply elapsed_ms_in_window. lia.
Qed.
End ThrottleProperties.

(** C7: with [max_per_second = N] and the clock read in nanoseconds, inside
    one window (less than 1000 ms, that is 1 000 000 000 ns, since
    [window_start]) a call with fewer than [N] messages counted returns
    continue, sets [metadata["throttle_status"] = "accepted"] and adds one
    to the count, and a call with [N] counted sets
    [metadata["throttled"] = "Rate limit exceeded"], returns stop and leaves
    the count as it is; so, from the start of a window, the first [N] calls
    of the window are let through and every later one is turned down, and
    at most [N] calls return continue.  Once 1000 ms or more have elapsed
    since [window_start], the state is reset to [(now, 0)] before the check:
    the call behaves as on the state [(now, 0)], so it is let through and
    leaves the state [(now, 1)] when [N > 0], and is turned down and leaves
    [(now, 0)] when [N = 0]. *)
Theorem throttle_fixed_window :
  forall (N window_start : Z),
    0 <= N < ThrottlingInterceptor.SIZE_MOD ->
    (forall count now context,
        0 <= count ->
        now - window_start < 1000000000 ->
        ThrottlingInterceptor.intercept now context
          (ThrottlingInterceptor.mk N window_start count)
        = if count <? N
          then (accepted context, ThrottlingInterceptor.mk N window_start (count + 1))
          else (throttled context, ThrottlingInterceptor.mk N window_start count))
    /\ (forall calls,
          Forall (fun call => fst call - window_start < 1000000000) calls ->
          let run :=
            ThrottlingInterceptor.intercept_all calls
              (ThrottlingInterceptor.mk N window_start 0) in
          length (fst run) = length calls
          /\ (forall (i : nat) now context,
                calls !! i = Some (now, context) ->
                fst run !! i
                = Some (if Z.of_nat i <? N then accepted context else throttled context))
          /\ snd run
             = ThrottlingInterceptor.mk N window_start (Z.min N (Z.of_nat (length calls)))
          /\ Z.of_nat (length (List.filter fst (fst run))) <= N)
    /\ (forall count now context,
          1000000000 <= now - window_start ->
          ThrottlingInterceptor.intercept now context
            (ThrottlingInterceptor.mk N window_start count)
          = ThrottlingInterceptor.intercept now context
              (ThrottlingInterceptor.mk N now 0)
          /\ ThrottlingInterceptor.intercept now context
               (ThrottlingInterceptor.mk N window_start count)
             = if 0 <? N
               then (accepted context, ThrottlingInterceptor.mk N now 1)
               else (throttled context, ThrottlingInterceptor.mk N now 0)).
Proof.
  intros N window_start [HN0 HN]. split; [|split].
  - intros count now context Hc Hw. apply intercept_in_window; try assumption.
    apply elapsed_ms_in_window. exact Hw.
  - intros calls Hall run.
    assert (Hall' : Forall (fun call =>
                              ThrottlingInterceptor.elapsed_ms (fst call) window_start < 1000)
                      calls).
    { eapply Forall_impl; [exact Hall|].
      intros call Hc. apply elapsed_ms_in_window. exact Hc. }
    destruct (intercept_all_in_window N window_start calls HN Hall' 0)
      as (Hlen & Hidx & Hst & Hacc); [lia|].
    fold run in Hlen, Hidx, Hst, Hacc.
    split; [exact Hlen|]. split; [|split].
    + intros i now context H. rewrite (Hidx i now context H). reflexivity.
    + rewrite Hst. reflexivity.
    + rewrite Hacc. lia.
  - intros count now context Hw. split.
    + apply intercept_after_window. apply Z.nlt_ge. intros H.
      apply elapsed_ms_in_window in H. lia.
    + apply intercept_on_reset; [lia | exact Hw].
Qed.

(** Scenario E3, continued: a limit of two and three messages within 10 ms,
    the third turned down; a fourth message 999 999 999 ns after the start
    of the window is turned down as well, and one at 1 000 000 000 ns opens
    a new window and is let through. *)
Lemma throttle_fixed_window_witness :
  fst (ThrottlingInterceptor.intercept_all three_calls (ThrottlingInterceptor.new 2 0))
    !! 2%nat
  = Some (throttled (InterceptorContext.new None 7000000))
  /\ snd (ThrottlingInterceptor.intercept_all three_calls (ThrottlingInterceptor.new 2 0))
     = ThrottlingInterceptor.mk 2 0 2
  /\ ThrottlingInterceptor.intercept 999999999 (InterceptorContext.new None 999999999)
       (ThrottlingInterceptor.mk 2 0 2)
     = (throttled (InterceptorContext.new None 999999999), ThrottlingInterceptor.mk 2 0 2)
  /\ ThrottlingInterceptor.intercept 1000000000 (InterceptorContext.new None 1000000000)
       (ThrottlingInterceptor.mk 2 0 2)
     = (accepted (InterceptorContext.new None 1000000000),
        ThrottlingInterceptor.mk 2 1000000000 1).
Proof.
  assert (Hrange : 0 <= 2 < ThrottlingInterceptor.SIZE_MOD) by (vm_compute; split; congruence).
  assert (Hwin : Forall (fun call => fst call - 0 < 1000000000) three_calls).
  { repeat constructor. }
  destruct (throttle_fixed_window 2 0 Hrange) as (Hone & Hrun & Hreset).
  destruct (Hrun three_calls Hwin) as (_ & Hidx & Hst & _).
  split; [|split; [|split]].
  - exact (Hidx 2%nat 7000000 (InterceptorContext.new None 7000000) eq_refl).
  - exact Hst.
  - exact (Hone 2 999999999 (InterceptorContext.new None 999999999) ltac:(lia) eq_refl).
  - exact (proj2 (Hreset 2 1000000000 (InterceptorContext.new None 1000000000)
                    ltac:(lia))).
Defined.

(** ** The codec (message.cpp) *)

Section Bytes.
Lemma byte_to_Z_range b : 0 <= byte_to_Z b < 256.
Proof.
  unfold byte_to_Z. pose proof (Byte.to_N_bounded b). lia.
Qed.

Lemma byte_of_to_Z b : byte_of_Z (byte_to_Z b) = b.
Proof.
  unfold byte_of_Z. pose proof (byte_to_Z_range b) as Hr.
  change 255 with (Z.ones 8). rewrite Z.land_ones by lia.
  rewrite Z.mod_small by (change (2 ^ 8) with 256; lia).
  unfold byte_to_Z. rewrite N2Z.id, Byte.of_to_N. reflexivity.
Qed.

Lemma byte_to_of_Z z : byte_to_Z (byte_of_Z z) = Z.land z 255.
Proof.
  unfold byte_of_Z.
  assert (Hr : 0 <= Z.land z 255 < 256).
  { change 255 with (Z.ones 8). rewrite Z.land_ones by lia.
    change (2 ^ 8) with 256. apply Z.mod_pos_bound. lia. }
  destruct (Byte.of_N (Z.to_N (Z.land z 255))) as [b|] eqn:E.
  - apply Byte.to_of_N in E. unfold byte_to_Z. rewrite E. lia.
  - apply Byte.of_N_None_iff in E. lia.
Qed.

Lemma byte_to_of_Z_small z : 0 <= z < 256 -> byte_to_Z (byte_of_Z z) = z.
Proof.
  intros Hz. rewrite byte_to_of_Z. change 255 with (Z.ones 8).
  rewrite Z.land_ones by lia. apply Z.mod_small. change (2 ^ 8) with 256. lia.
Qed.

(** One turn of the decoding loop puts back the byte that the encoding
    loop took out at the same place. *)
Lemma lor_next_byte v (i : nat) :
  Z.lor (Z.land v (Z.ones (Z.of_nat i * 8)))
        (Z.shiftl (byte_to_Z (byte_of_Z (Z.land (Z.shiftr v (Z.of_nat i * 8)) 255)))
           (Z.of_nat i * 8))
  = Z.land v (Z.ones (Z.of_nat (S i) * 8)).
Proof.
  rewrite byte_to_of_Z. change 255 with (Z.ones 8).
  apply Z.bits_inj'. intros k Hk.
  rewrite Z.lor_spec, !Z.land_spec, Z.shiftl_spec, !Z.land_spec by lia.
  rewrite (Z.testbit_ones_nonneg (Z.of_nat i * 8) k) by lia.
  rewrite (Z.testbit_ones_nonneg (Z.of_nat (S i) * 8) k) by lia.
  destruct (Z.ltb_spec k (Z.of_nat i * 8)) as [Hlt|Hge].
  - rewrite !(Z.testbit_neg_r _ (k - Z.of_nat i * 8)) by lia.
    destruct (Z.ltb_spec k (Z.of_nat (S i) * 8)); [|lia].
    destruct (Z.testbit v k); reflexivity.
  - rewrite Z.shiftr_spec by lia.
    replace (k - Z.of_nat i * 8 + Z.of_nat i * 8) with k by lia.
    rewrite (Z.testbit_ones_nonneg 8 (k - Z.of_nat i * 8)) by lia.
    destruct (Z.ltb_spec (k - Z.of_nat i * 8) 8), (Z.ltb_spec k (Z.of_nat (S i) * 8));
      try lia; destruct (Z.testbit v k); reflexivity.
Qed.

Lemma le_acc_push n : forall i v,
  le_acc i
    (List.map (fun k => byte_of_Z (Z.land (Z.shiftr v (Z.of_nat k * 8)) 255)) (seq i n))
    (Z.land v (Z.ones (Z.of_nat i * 8)))
  = Z.land v (Z.ones (Z.of_nat (i + n) * 8)).
Proof.
  induction n as [|n IH]; intros i v; cbn [seq List.map le_acc].
  - rewrite Nat.add_0_r. reflexivity.
  - rewrite lor_next_byte, IH.
    replace (S i + n)%nat with (i + S n)%nat by lia. reflexivity.
Qed.

(** Decoding what [push_le] wrote gives the value back, when it fits the
    [n] bytes. *)
Lemma le_acc_push_le n v :
  0 <= v < 2 ^ (Z.of_nat n * 8) ->
  le_acc 0 (push_le n v) 0 = v.
Proof.
  intros Hv. unfold push_le.
  pose proof (le_acc_push n 0 v) as H.
  change (Z.ones (Z.of_nat 0 * 8)) with 0 in H. rewrite Z.land_0_r in H.
  rewrite H. cbn [Nat.add]. rewrite Z.land_ones by lia. apply Z.mod_small. exact Hv.
Qed.

Lemma push_le_length n v : length (push_le n v) = n.
Proof. unfold push_le. rewrite length_map, length_seq. reflexivity. Qed.
End Bytes.

Section Readers.
Context {A B : Type}.
Implicit Types (pre post bs : list byte).

Lemma reads_ret pre post (a : A) : reads pre post (mret a) [] a.
Proof. unfold reads. cbn. rewrite app_nil_r. reflexivity. Qed.

Lemma reads_bind pre post (m : reader A) (k : A -> reader B) bs1 bs2 a b :
  reads pre (bs2 ++ post) m bs1 a ->
  reads (pre ++ bs1) post (k a) bs2 b ->
  reads pre post (m ≫= k) (bs1 ++ bs2) b.
Proof.
  unfold reads. intros Hm Hk.
  change ((m ≫= k) (pre ++ (bs1 ++ bs2) ++ post) (length pre))
    with (rbind m k (pre ++ (bs1 ++ bs2) ++ post) (length pre)).
  unfold rbind.
  replace (pre ++ (bs1 ++ bs2) ++ post) with (pre ++ bs1 ++ bs2 ++ post)
    by (rewrite <- !app_assoc; reflexivity).
  rewrite Hm.
  replace (pre ++ bs1 ++ bs2 ++ post) with ((pre ++ bs1) ++ bs2 ++ post)
    by (rewrite <- !app_assoc; reflexivity).
  rewrite Hk. rewrite <- !app_assoc. reflexivity.
Qed.

(** Steps that consume nothing. *)
Lemma reads_cursor_bind pre post (k : nat -> reader B) bs b :
  reads pre post (k (length pre)) bs b ->
  reads pre post (cursor ≫= k) bs b.
Proof. unfold reads. intros H. exact H. Qed.

Lemma reads_size_bind pre post (k : nat -> reader B) bs b :
  reads pre post (k (length (pre ++ bs ++ post))) bs b ->
  reads pre post (size ≫= k) bs b.
Proof. unfold reads. intros H. exact H. Qed.

Lemma reads_substring_bind pre post len (k : list byte -> reader B) bs b :
  reads pre post (k (take len (bs ++ post))) bs b ->
  reads pre post (substring len ≫= k) bs b.
Proof.
  unfold reads. intros H.
  change ((substring len ≫= k) (pre ++ bs ++ post) (length pre))
    with (k (take len (drop (length pre) (pre ++ bs ++ post)))
            (pre ++ bs ++ post) (length pre)).
  rewrite drop_app_length. exact H.
Qed.

Lemma reads_peek_bind pre post (k : option byte -> reader B) bs b :
  reads pre post (k ((bs ++ post) !! 0%nat)) bs b ->
  reads pre post (peek ≫= k) bs b.
Proof.
  unfold reads. intros H.
  change ((peek ≫= k) (pre ++ bs ++ post) (length pre))
    with (k ((pre ++ bs ++ post) !! length pre) (pre ++ bs ++ post) (length pre)).
  rewrite lookup_app_r by lia. rewrite Nat.sub_diag. exact H.
Qed.

Lemma reads_advance_bind pre post n (k : unit -> reader B) bs1 bs2 b :
  length bs1 = n ->
  reads (pre ++ bs1) post (k tt) bs2 b ->
  reads pre post (advance n ≫= k) (bs1 ++ bs2) b.
Proof.
  unfold reads. intros Hn H.
  change ((advance n ≫= k) (pre ++ (bs1 ++ bs2) ++ post) (length pre))
    with (k tt (pre ++ (bs1 ++ bs2) ++ post) (length pre + n)%nat).
  replace (pre ++ (bs1 ++ bs2) ++ post) with ((pre ++ bs1) ++ bs2 ++ post)
    by (rewrite <- !app_assoc; reflexivity).
  replace (length pre + n)%nat with (length (pre ++ bs1))
    by (rewrite length_app; lia).
  rewrite H. rewrite <- !app_assoc. reflexivity.
Qed.
End Readers.

Lemma reads_next_byte pre post b : reads pre post next_byte [b] b.
Proof.
  unfold reads, next_byte. cbn [app].
  rewrite list_lookup_middle by reflexivity.
  rewrite length_app. cbn. f_equal. lia.
Qed.

Lemma reads_read_le_from n : forall pre post i x bs,
  length bs = n ->
  reads pre post (read_le_from i n x) bs (le_acc i bs x).
Proof.
  induction n as [|n IH]; intros pre post i x bs Hlen.
  - destruct bs; [|discriminate]. apply reads_ret.
  - destruct bs as [|b bs]; [discriminate|]. injection Hlen as Hlen.
    cbn [read_le_from le_acc].
    change (b :: bs) with ([b] ++ bs).
    eapply reads_bind; [apply reads_next_byte|].
    apply IH. exact Hlen.
Qed.

Lemma reads_read_le n pre post v :
  0 <= v < 2 ^ (Z.of_nat n * 8) ->
  reads pre post (read_le n) (push_le n v) v.
Proof.
  intros Hv. unfold read_le.
  rewrite <- (le_acc_push_le n v Hv) at 2.
  apply reads_read_le_from. apply push_le_length.
Qed.

(** *** The header *)

Lemma serialize_header_length m : length (Message.serialize_header m) = 26%nat.
Proof.
  unfold Message.serialize_header. rewrite !length_app, !push_le_length. reflexivity.
Qed.

Lemma reads_header pre post self m :
  Message.wf m ->
  reads pre post (Message.deserialize_header self) (Message.serialize_header m)
    (Message.setReceiveTime (Message.receive_time_ self) m).
Proof.
  intros (Hseq & Hts & Hcid).
  unfold Message.deserialize_header, Message.serialize_header, Message.setReceiveTime.
  change ([Message.type_ m; Message.priority_ m] ++ ?rest)
    with ([Message.type_ m] ++ [Message.priority_ m] ++ rest).
  rewrite <- (app_nil_r (push_le 8 (Message.client_id_ m))).
  eapply reads_bind; [apply reads_next_byte|].
  eapply reads_bind; [apply reads_next_byte|].
  eapply reads_bind; [apply reads_read_le; exact Hseq|].
  eapply reads_bind; [apply reads_read_le; exact Hts|].
  eapply reads_bind; [apply reads_read_le; exact Hcid|].
  apply reads_ret.
Qed.

Lemma length_byte_value s :
  (length s <= 255)%nat -> Z.to_nat (byte_to_Z (length_byte s)) = length s.
Proof.
  intros H. unfold length_byte. rewrite byte_to_of_Z_small by lia. lia.
Qed.

Lemma flag_byte_value b : negb (byte_to_Z (flag_byte b) =? 0) = b.
Proof. destruct b; reflexivity. Qed.

(** *** Orders *)

Section OrderCodec.
Import OrderMessage.

Lemma order_serialize_length m :
  length (serialize m) = (48 + length (symbol_ m))%nat.
Proof.
  unfold serialize.
  rewrite !length_app, serialize_header_length, !push_le_length. cbn [length]. lia.
Qed.

Lemma order_body_reads self m :
  wf m -> (length (symbol_ m) <= 255)%nat ->
  reads [] [flag_byte (is_buy_ m)] (deserialize_body self)
    (Message.serialize_header (base m) ++ push_le 8 (order_id_ m)
       ++ [length_byte (symbol_ m)] ++ symbol_ m
       ++ push_le 8 (price_ m) ++ push_le 4 (quantity_ m))
    (inr (order_decoded self m)).
Proof.
  intros (Hbase & Hoid & Hprice & Hqty) Hsym. unfold deserialize_body.
  eapply reads_bind; [apply reads_header; exact Hbase|].
  eapply reads_bind; [apply reads_read_le; exact Hoid|].
  eapply reads_bind; [apply reads_next_byte|].
  apply reads_cursor_bind, reads_size_bind.
  rewrite length_byte_value by exact Hsym.
  match goal with
  | |- context [(?n <? ?p)%nat] => destruct (Nat.ltb_spec n p) as [Hbad|_]
  end.
  { rewrite !length_app in Hbad. lia. }
  apply reads_substring_bind.
  rewrite <- (app_assoc (symbol_ m)), take_app_length.
  eapply reads_advance_bind; [reflexivity|].
  eapply reads_bind; [apply reads_read_le; exact Hprice|].
  rewrite <- (app_nil_r (push_le 4 (quantity_ m))).
  eapply reads_bind; [apply reads_read_le; exact Hqty|].
  apply reads_peek_bind. cbn [app lookup list_lookup].
  rewrite flag_byte_value. apply reads_ret.
Qed.

(** An order with a symbol of 2 to 255 bytes comes back from its own
    bytes, whatever object receives them. *)
Lemma order_roundtrip self m :
  wf m -> (2 <= length (symbol_ m) <= 255)%nat ->
  deserialize self (serialize m) = Returned true (order_decoded self m).
Proof.
  intros Hwf Hsym. unfold deserialize.
  rewrite order_serialize_length.
  destruct (Nat.ltb_spec (48 + length (symbol_ m)) 50); [lia|].
  pose proof (order_body_reads self m Hwf ltac:(lia)) as Hbody. unfold reads in Hbody.
  change (length (@nil byte)) with 0%nat in Hbody.
  match type of Hbody with
  | _ ?data _ = _ => replace (serialize m) with data
  end.
  - rewrite Hbody. reflexivity.
  - unfold serialize, flag_byte, length_byte. rewrite <- !app_assoc. reflexivity.
Qed.

(** An order with a symbol of one byte, or none, is refused whole. *)
Lemma order_short_symbol_refused self m :
  (length (symbol_ m) <= 1)%nat ->
  deserialize self (serialize m) = Returned false self.
Proof.
  intros Hsym. unfold deserialize. rewrite order_serialize_length.
  destruct (Nat.ltb_spec (48 + length (symbol_ m)) 50); [reflexivity | lia].
Qed.
End OrderCodec.

(** *** Market data *)

Section MarketDataCodec.
Import MarketDataMessage.

Lemma market_data_serialize_length m :
  length (serialize m) = (51 + length (symbol_ m))%nat.
Proof.
  unfold serialize.
  rewrite !length_app, serialize_header_length, !push_le_length. cbn [length]. lia.
Qed.

Lemma market_data_body_reads self m :
  wf m -> (length (symbol_ m) <= 255)%nat ->
  reads [] [] (deserialize_body self)
    (Message.serialize_header (base m) ++ [length_byte (symbol_ m)] ++ symbol_ m
       ++ push_le 8 (bid_ m) ++ push_le 8 (ask_ m)
       ++ push_le 4 (bid_size_ m) ++ push_le 4 (ask_size_ m) ++ [])
    (inr (market_data_decoded self m)).
Proof.
  intros (Hbase & Hbid & Hask & Hbsz & Hasz) Hsym. unfold deserialize_body.
  eapply reads_bind; [apply reads_header; exact Hbase|].
  eapply reads_bind; [apply reads_next_byte|].
  apply reads_cursor_bind, reads_size_bind.
  rewrite length_byte_value by exact Hsym.
  match goal with
  | |- context [(?n <? ?p)%nat] => destruct (Nat.ltb_spec n p) as [Hbad|_]
  end.
  { rewrite !length_app in Hbad. lia. }
  apply reads_substring_bind.
  rewrite <- (app_assoc (symbol_ m)), take_app_length.
  eapply reads_advance_bind; [reflexivity|].
  eapply reads_bind; [apply reads_read_le; exact Hbid|].
  eapply reads_bind; [apply reads_read_le; exact Hask|].
  eapply reads_bind; [apply reads_read_le; exact Hbsz|].
  eapply reads_bind; [apply reads_read_le; exact Hasz|].
  apply reads_ret.
Qed.

(** A quote with a symbol of at most 255 bytes comes back from its own
    bytes. *)
Lemma market_data_roundtrip self m :
  wf m -> (length (symbol_ m) <= 255)%nat ->
  deserialize self (serialize m) = Returned true (market_data_decoded self m).
Proof.
  intros Hwf Hsym. unfold deserialize.
  rewrite market_data_serialize_length.
  destruct (Nat.ltb_spec (51 + length (symbol_ m)) 50); [lia|].
  pose proof (market_data_body_reads self m Hwf Hsym) as Hbody. unfold reads in Hbody.
  change (length (@nil byte)) with 0%nat in Hbody.
  match type of Hbody with
  | _ ?data _ = _ => replace (serialize m) with data
  end.
  - rewrite Hbody. reflexivity.
  - unfold serialize, length_byte. rewrite !app_nil_r, <- ?app_assoc. reflexivity.
Qed.
End MarketDataCodec.

(** *** Heartbeats *)

Section HeartbeatCodec.
Import HeartbeatMessage.

Lemma heartbeat_roundtrip self m :
  wf m ->
  deserialize self (serialize m) = Returned true (heartbeat_decoded self m).
Proof.
  intros Hwf. unfold deserialize, serialize.
  rewrite serialize_header_length. cbn [Nat.ltb Nat.leb].
  assert (Hbody : reads [] [] (deserialize_body self)
                    (Message.serialize_header (base m) ++ [])
                    (inr (heartbeat_decoded self m))).
  { unfold deserialize_body.
    eapply reads_bind; [apply reads_header; exact Hwf|]. apply reads_ret. }
  unfold reads in Hbody. rewrite !app_nil_r in Hbody. cbn [app length] in Hbody.
  rewrite Hbody. reflexivity.
Qed.
End HeartbeatCodec.

(** *** Errors *)

Section ErrorCodec.
Import ErrorMessage.

Lemma error_serialize_length m :
  length (serialize m) = (31 + length (error_message_ m))%nat.
Proof.
  unfold serialize.
  rewrite !length_app, serialize_header_length, !push_le_length. cbn [length]. lia.
Qed.

Lemma error_body_reads self m :
  wf m -> (length (error_message_ m) <= 255)%nat ->
  reads [] (error_message_ m) (deserialize_body self)
    (Message.serialize_header (base m) ++ push_le 4 (error_code_ m)
       ++ [length_byte (error_message_ m)] ++ [])
    (inr (error_decoded self m)).
Proof.
  intros (Hbase & Hcode) Hmsg. unfold deserialize_body.
  eapply reads_bind; [apply reads_header; exact Hbase|].
  eapply reads_bind; [apply reads_read_le; exact Hcode|].
  apply reads_cursor_bind, reads_size_bind.
  match goal with
  | |- context [(?p <? ?n)%nat] => destruct (Nat.ltb_spec p n) as [_|Hbad]
  end.
  2: { rewrite !length_app in Hbad. cbn [length] in Hbad. lia. }
  eapply reads_bind; [apply reads_next_byte|].
  apply reads_cursor_bind.
  rewrite length_byte_value by exact Hmsg.
  match goal with
  | |- context [(?p <=? ?n)%nat] => destruct (Nat.leb_spec p n) as [_|Hbad]
  end.
  2: { rewrite !length_app, serialize_header_length, push_le_length in Hbad.
       cbn [length] in Hbad. lia. }
  apply reads_substring_bind. cbn [app].
  rewrite firstn_all. apply reads_ret.
Qed.

(** An error message with a text of at most 255 bytes comes back from its
    own bytes. *)
Lemma error_roundtrip self m :
  wf m -> (length (error_message_ m) <= 255)%nat ->
  deserialize self (serialize m) = Returned true (error_decoded self m).
Proof.
  intros Hwf Hmsg. unfold deserialize.
  rewrite error_serialize_length.
  destruct (Nat.ltb_spec (31 + length (error_message_ m)) 30); [lia|].
  pose proof (error_body_reads self m Hwf Hmsg) as Hbody. unfold reads in Hbody.
  change (length (@nil byte)) with 0%nat in Hbody.
  match type of Hbody with
  | _ ?data _ = _ => replace (serialize m) with data
  end.
  - rewrite Hbody. reflexivity.
  - unfold serialize, length_byte. rewrite !app_nil_r, <- ?app_assoc. reflexivity.
Qed.
End ErrorCodec.

(** *** Round trip *)

(** [serialize] is a function of the message alone, and the length of its
    result is fixed by the kind and the length of the string. *)
Lemma serialize_length m :
  length (serialize m) =
  match m with
  | IsOrder o => (48 + length (OrderMessage.symbol_ o))%nat
  | IsMarketData d => (51 + length (MarketDataMessage.symbol_ d))%nat
  | IsHeartbeat _ => 26%nat
  | IsError e => (31 + length (ErrorMessage.error_message_ e))%nat
  end.
Proof.
  destruct m as [o|d|h|e]; cbn [serialize].
  - apply order_serialize_length.
  - apply market_data_serialize_length.
  - apply serialize_header_length.
  - apply error_serialize_length.
Qed.

(** Every valid message other than an order with a symbol of less than two
    bytes comes back from its own bytes, in every field but the receive
    time. *)
Lemma roundtrip_but_short_symbols self m :
  valid m -> same_class self m -> ~ short_symbol m ->
  deserialize self (serialize m) = Returned true (decoded self m).
Proof.
  intros (Hrange & Hfits & _) Hclass Hlong.
  destruct self as [s|s|s|s], m as [o|d|h|e]; try contradiction;
    cbn [in_range string_fits short_symbol deserialize serialize decoded] in *.
  - rewrite order_roundtrip by (assumption || lia). reflexivity.
  - rewrite market_data_roundtrip by assumption. reflexivity.
  - rewrite heartbeat_roundtrip by assumption. reflexivity.
  - rewrite error_roundtrip by assumption. reflexivity.
Qed.

Lemma order_F_valid : valid (IsOrder order_F).
Proof.
  unfold valid. cbn [in_range string_fits base_of].
  repeat split; try (vm_compute; congruence); cbn; lia.
Qed.

(** C1: every valid message comes back from [serialize] through
    [deserialize], and the length of the bytes is fixed by the message.
    Evaluated on the code: the valid order
    [OrderMessage(1, "F", 1.0, 1, true)] serializes to 49 bytes, and
    [OrderMessage::deserialize] returns false on them without touching the
    receiving object, because it refuses every frame shorter than 50 bytes
    while an order frame is 48 bytes plus the symbol. *)
Theorem one_letter_order_is_refused :
  valid (IsOrder order_F)
  /\ length (OrderMessage.serialize order_F) = 49%nat
  /\ forall self : OrderMessage.t,
       OrderMessage.deserialize self (OrderMessage.serialize order_F)
       = Returned false self.
Proof.
  split; [exact order_F_valid|]. split; [reflexivity|].
  intros self. apply order_short_symbol_refused. cbn. lia.
Qed.

(** *** Which indices [deserialize] reads *)

Section Stepping.
Context {A B : Type}.
Implicit Types (data : list byte) (pos : nat).

Lemma bind_got (m : reader A) (k : A -> reader B) data pos a pos' :
  m data pos = Got a pos' -> (m ≫= k) data pos = k a data pos'.
Proof.
  intros H. change ((m ≫= k) data pos) with (rbind m k data pos).
  unfold rbind. rewrite H. reflexivity.
Qed.

Lemma bind_out_of_range (m : reader A) (k : A -> reader B) data pos i :
  m data pos = OutOfRange i -> (m ≫= k) data pos = OutOfRange i.
Proof.
  intros H. change ((m ≫= k) data pos) with (rbind m k data pos).
  unfold rbind. rewrite H. reflexivity.
Qed.
End Stepping.

Section SteppingInPlace.
Context {B : Type}.
Implicit Types (data : list byte) (pos : nat).

Lemma bind_cursor (k : nat -> reader B) data pos :
  (cursor ≫= k) data pos = k pos data pos.
Proof. reflexivity. Qed.

Lemma bind_size (k : nat -> reader B) data pos :
  (size ≫= k) data pos = k (length data) data pos.
Proof. reflexivity. Qed.

Lemma bind_substring len (k : list byte -> reader B) data pos :
  (substring len ≫= k) data pos = k (take len (drop pos data)) data pos.
Proof. reflexivity. Qed.

Lemma bind_advance n (k : unit -> reader B) data pos :
  (advance n ≫= k) data pos = k tt data (pos + n)%nat.
Proof. reflexivity. Qed.

Lemma bind_peek (k : option byte -> reader B) data pos :
  (peek ≫= k) data pos = k (data !! pos) data pos.
Proof. reflexivity. Qed.
End SteppingInPlace.

Lemma read_le_from_in_range n : forall i x data pos,
  (pos + n <= length data)%nat ->
  exists v, read_le_from i n x data pos = Got v (pos + n)%nat.
Proof.
  induction n as [|n IH]; intros i x data pos Hlen; cbn [read_le_from].
  - exists x. rewrite Nat.add_0_r. reflexivity.
  - destruct (lookup_lt_is_Some_2 data pos ltac:(lia)) as [b Hb].
    destruct (IH (S i) (Z.lor x (Z.shiftl (byte_to_Z b) (Z.of_nat i * 8))) data (S pos))
      as [v Hv]; [lia|].
    exists v. erewrite bind_got by (unfold next_byte; rewrite Hb; reflexivity).
    rewrite Hv. f_equal. lia.
Qed.

Lemma read_le_from_out_of_range n : forall i x data pos,
  (pos <= length data < pos + n)%nat ->
  read_le_from i n x data pos = OutOfRange (length data).
Proof.
  induction n as [|n IH]; intros i x data pos Hlen; [lia|]. cbn [read_le_from].
  destruct (data !! pos) as [b|] eqn:Hb.
  - erewrite bind_got by (unfold next_byte; rewrite Hb; reflexivity).
    apply lookup_lt_Some in Hb. apply IH. lia.
  - erewrite bind_out_of_range by (unfold next_byte; rewrite Hb; reflexivity).
    apply lookup_ge_None in Hb. f_equal. lia.
Qed.

Lemma header_in_range self data :
  (26 <= length data)%nat ->
  exists b, Message.deserialize_header self data 0%nat = Got b 26%nat
            /\ Message.receive_time_ b = Message.receive_time_ self.
Proof.
  intros Hlen. unfold Message.deserialize_header.
  destruct (lookup_lt_is_Some_2 data 0%nat ltac:(lia)) as [ty Hty].
  destruct (lookup_lt_is_Some_2 data 1%nat ltac:(lia)) as [prio Hprio].
  destruct (read_le_from_in_range 8 0 0 data 2 ltac:(lia)) as [seq Hseq].
  destruct (read_le_from_in_range 8 0 0 data 10 ltac:(lia)) as [ts Hts].
  destruct (read_le_from_in_range 8 0 0 data 18 ltac:(lia)) as [cid Hcid].
  eexists. split.
  - erewrite bind_got by (unfold next_byte; rewrite Hty; reflexivity).
    erewrite bind_got by (unfold next_byte; rewrite Hprio; reflexivity).
    erewrite bind_got by exact Hseq.
    erewrite bind_got by exact Hts.
    erewrite bind_got by exact Hcid.
    reflexivity.
  - reflexivity.
Qed.

(** [OrderMessage::deserialize], case by case on the length of the frame
    and the symbol length [len] found at index 34: a frame shorter than 50
    bytes, or too short for the symbol, is refused; a frame that holds the
    symbol but not the 12 bytes of price and quantity after it is read past
    its end; any other frame is accepted. *)
Lemma order_deserialize_cases self data :
  ((length data < 50)%nat -> OrderMessage.deserialize self data = Returned false self)
  /\ forall len,
       (50 <= length data)%nat -> data !! 34%nat = Some len ->
       ((length data < 35 + Z.to_nat (byte_to_Z len))%nat ->
          exists self', OrderMessage.deserialize self data = Returned false self')
       /\ ((35 + Z.to_nat (byte_to_Z len) <= length data < 47 + Z.to_nat (byte_to_Z len))%nat ->
             OrderMessage.deserialize self data = ReadPastEnd (length data))
       /\ ((47 + Z.to_nat (byte_to_Z len) <= length data)%nat ->
             exists self', OrderMessage.deserialize self data = Returned true self').
Proof.
  unfold OrderMessage.deserialize. split.
  { intros H. destruct (Nat.ltb_spec (length data) 50); [reflexivity | lia]. }
  intros len Hlen Hsym.
  destruct (Nat.ltb_spec (length data) 50) as [|_]; [lia|].
  unfold OrderMessage.deserialize_body.
  destruct (header_in_range (OrderMessage.base self) data ltac:(lia)) as (b & Hb & _).
  destruct (read_le_from_in_range 8 0 0 data 26 ltac:(lia)) as [oid Hoid].
  erewrite bind_got by exact Hb.
  erewrite bind_got by exact Hoid.
  change (26 + 8)%nat with 34%nat.
  erewrite bind_got by (unfold next_byte; rewrite Hsym; reflexivity).
  rewrite bind_cursor, bind_size. set (L := Z.to_nat (byte_to_Z len)).
  destruct (Nat.ltb_spec (length data) (35 + L)) as [Hshort|Hfits].
  { split; [|split]; intros H; try lia. eexists. reflexivity. }
  rewrite bind_substring, bind_advance.
  split; [intros H; lia|]. split.
  - intros H.
    destruct (Nat.le_gt_cases (35 + L + 8) (length data)) as [Hprice|Hprice].
    + destruct (read_le_from_in_range 8 0 0 data (35 + L) ltac:(lia)) as [price Hp].
      erewrite bind_got by exact Hp.
      erewrite bind_out_of_range; [reflexivity|].
      apply read_le_from_out_of_range. lia.
    + erewrite bind_out_of_range; [reflexivity|].
      apply read_le_from_out_of_range. lia.
  - intros H.
    destruct (read_le_from_in_range 8 0 0 data (35 + L) ltac:(lia)) as [price Hp].
    destruct (read_le_from_in_range 4 0 0 data (35 + L + 8) ltac:(lia)) as [qty Hq].
    erewrite bind_got by exact Hp.
    erewrite bind_got by exact Hq.
    eexists. reflexivity.
Qed.

(** [MarketDataMessage::deserialize], case by case on the length of the
    frame and the symbol length [len] found at index 26: the 24 bytes of
    bid, ask and sizes after the symbol are read without a check. *)
Lemma market_data_deserialize_cases self data :
  ((length data < 50)%nat -> MarketDataMessage.deserialize self data = Returned false self)
  /\ forall len,
       (50 <= length data)%nat -> data !! 26%nat = Some len ->
       ((length data < 27 + Z.to_nat (byte_to_Z len))%nat ->
          exists self', MarketDataMessage.deserialize self data = Returned false self')
       /\ ((27 + Z.to_nat (byte_to_Z len) <= length data < 51 + Z.to_nat (byte_to_Z len))%nat ->
             MarketDataMessage.deserialize self data = ReadPastEnd (length data))
       /\ ((51 + Z.to_nat (byte_to_Z len) <= length data)%nat ->
             exists self', MarketDataMessage.deserialize self data = Returned true self').
Proof.
  unfold MarketDataMessage.deserialize. split.
  { intros H. destruct (Nat.ltb_spec (length data) 50); [reflexivity | lia]. }
  intros len Hlen Hsym.
  destruct (Nat.ltb_spec (length data) 50) as [|_]; [lia|].
  unfold MarketDataMessage.deserialize_body.
  destruct (header_in_range (MarketDataMessage.base self) data ltac:(lia)) as (b & Hb & _).
  erewrite bind_got by exact Hb.
  erewrite bind_got by (unfold next_byte; rewrite Hsym; reflexivity).
  rewrite bind_cursor, bind_size. set (L := Z.to_nat (byte_to_Z len)).
  destruct (Nat.ltb_spec (length data) (27 + L)) as [Hshort|Hfits].
  { split; [|split]; intros H; try lia. eexists. reflexivity. }
  rewrite bind_substring, bind_advance.
  split; [intros H; lia|]. split.
  - intros H.
    destruct (Nat.le_gt_cases (27 + L + 8) (length data)) as [Hbid|Hbid].
    2: { erewrite bind_out_of_range; [reflexivity|].
         apply read_le_from_out_of_range. lia. }
    destruct (read_le_from_in_range 8 0 0 data (27 + L) ltac:(lia)) as [bid Hb1].
    erewrite bind_got by exact Hb1.
    destruct (Nat.le_gt_cases (27 + L + 8 + 8) (length data)) as [Hask|Hask].
    2: { erewrite bind_out_of_range; [reflexivity|].
         apply read_le_from_out_of_range. lia. }
    destruct (read_le_from_in_range 8 0 0 data (27 + L + 8) ltac:(lia)) as [ask Ha1].
    erewrite bind_got by exact Ha1.
    destruct (Nat.le_gt_cases (27 + L + 8 + 8 + 4) (length data)) as [Hbsz|Hbsz].
    2: { erewrite bind_out_of_range; [reflexivity|].
         apply read_le_from_out_of_range. lia. }
    destruct (read_le_from_in_range 4 0 0 data (27 + L + 8 + 8) ltac:(lia)) as [bsz Hs1].
    erewrite bind_got by exact Hs1.
    erewrite bind_out_of_range; [reflexivity|].
    apply read_le_from_out_of_range. lia.
  - intros H.
    destruct (read_le_from_in_range 8 0 0 data (27 + L) ltac:(lia)) as [bid Hb1].
    destruct (read_le_from_in_range 8 0 0 data (27 + L + 8) ltac:(lia)) as [ask Ha1].
    destruct (read_le_from_in_range 4 0 0 data (27 + L + 8 + 8) ltac:(lia)) as [bsz Hs1].
    destruct (read_le_from_in_range 4 0 0 data (27 + L + 8 + 8 + 4) ltac:(lia)) as [asz Hs2].
    erewrite bind_got by exact Hb1.
    erewrite bind_got by exact Ha1.
    erewrite bind_got by exact Hs1.
    erewrite bind_got by exact Hs2.
    eexists. reflexivity.
Qed.

(** [HeartbeatMessage::deserialize] reads inside every frame. *)
Lemma heartbeat_deserialize_in_range self data :
  exists ok self', HeartbeatMessage.deserialize self data = Returned ok self'.
Proof.
  unfold HeartbeatMessage.deserialize.
  destruct (Nat.ltb_spec (length data) 26) as [|Hlen]; [eauto|].
  unfold HeartbeatMessage.deserialize_body.
  destruct (header_in_range (HeartbeatMessage.base self) data Hlen) as (b & Hb & _).
  erewrite bind_got by exact Hb. eexists _, _. reflexivity.
Qed.

(** [ErrorMessage::deserialize] reads inside every frame, and accepts every
    frame of 30 bytes or more: when the text length is missing, or more than
    the bytes left after it, the text of the object stays as it was. *)
Lemma error_deserialize_cases self data :
  ((length data < 30)%nat -> ErrorMessage.deserialize self data = Returned false self)
  /\ ((30 <= length data)%nat ->
      exists b code,
        ((length data = 30)%nat ->
           ErrorMessage.deserialize self data
           = Returned true (ErrorMessage.mk b code (ErrorMessage.error_message_ self)))
        /\ forall len,
             data !! 30%nat = Some len ->
             ErrorMessage.deserialize self data
             = Returned true
                 (ErrorMessage.mk b code
                    (if (31 + Z.to_nat (byte_to_Z len) <=? length data)%nat
                     then take (Z.to_nat (byte_to_Z len)) (drop 31 data)
                     else ErrorMessage.error_message_ self))).
Proof.
  unfold ErrorMessage.deserialize. split.
  { intros H. destruct (Nat.ltb_spec (length data) 30); [reflexivity | lia]. }
  intros Hlen.
  destruct (Nat.ltb_spec (length data) 30) as [|_]; [lia|].
  unfold ErrorMessage.deserialize_body.
  destruct (header_in_range (ErrorMessage.base self) data ltac:(lia)) as (b & Hb & _).
  destruct (read_le_from_in_range 4 0 0 data 26 ltac:(lia)) as [code Hcode].
  exists b, code.
  erewrite bind_got by exact Hb.
  erewrite bind_got by exact Hcode.
  change (26 + 4)%nat with 30%nat.
  rewrite bind_cursor, bind_size. split.
  - intros H30. destruct (Nat.ltb_spec 30 (length data)); [lia | reflexivity].
  - intros len Hsym. pose proof (lookup_lt_Some _ _ _ Hsym) as Hlt.
    destruct (Nat.ltb_spec 30 (length data)); [|lia].
    erewrite bind_got by (unfold next_byte; rewrite Hsym; reflexivity).
    rewrite bind_cursor.
    destruct (31 + Z.to_nat (byte_to_Z len) <=? length data)%nat; reflexivity.
Qed.

(** Between the frames that are refused and those that hold every field,
    the decoders of orders and market data leave the frame: a frame of 50
    bytes of type OrderNew whose symbol length byte is 15 passes both checks
    of [OrderMessage::deserialize], which then reads the price at index 50,
    past the end; and the frame of 50 bytes of type MarketData with a symbol
    length of 0 is read at index 50 by [MarketDataMessage::deserialize],
    whatever object receives it. *)
Theorem deserialize_reads_past_end :
  length order_frame_50 = 50%nat
  /\ (forall self, OrderMessage.deserialize self order_frame_50 = ReadPastEnd 50)
  /\ length quote_frame_50 = 50%nat
  /\ (forall self, MarketDataMessage.deserialize self quote_frame_50 = ReadPastEnd 50).
Proof.
  split; [reflexivity|]. split; [|split; [reflexivity|]].
  - intros self.
    destruct (order_deserialize_cases self order_frame_50) as [_ H].
    destruct (H Byte.x0f) as (_ & Hpast & _); [cbn; lia | reflexivity |].
    apply Hpast. cbn. lia.
  - intros self.
    destruct (market_data_deserialize_cases self quote_frame_50) as [_ H].
    destruct (H Byte.x00) as (_ & Hpast & _); [cbn; lia | reflexivity |].
    apply Hpast. cbn. lia.
Qed.

(** C6, as stated, fails for errors: in a frame of 33 bytes whose text
    length byte is 5, with 2 bytes after it, [ErrorMessage::deserialize]
    returns true, the text of the object being left empty. *)
Lemma error_overlong_text_accepted :
  error_frame_33 !! 30%nat = Some Byte.x05
  /\ length error_frame_33 = 33%nat
  /\ ErrorMessage.deserialize blank_error error_frame_33
     = Returned true
         (ErrorMessage.mk (Message.mk Byte.x09 Byte.x00 0 0 0 0) 0 []).
Proof. repeat split. Qed.

(** C6, amended: when the symbol length byte of an order frame (index 34)
    or of a market data frame (index 26) exceeds the number of bytes after
    it, [deserialize] returns false; when the text length byte of an error
    frame (index 30) exceeds the number of bytes after it, [deserialize]
    returns true and the text of the object stays as it was. *)
Theorem overlong_string_length :
  forall (data : list byte) (len : byte),
    (forall self,
        data !! 34%nat = Some len ->
        (length data < 35 + Z.to_nat (byte_to_Z len))%nat ->
        exists self', OrderMessage.deserialize self data = Returned false self')
    /\ (forall self,
          data !! 26%nat = Some len ->
          (length data < 27 + Z.to_nat (byte_to_Z len))%nat ->
          exists self', MarketDataMessage.deserialize self data = Returned false self')
    /\ (forall self,
          data !! 30%nat = Some len ->
          (length data < 31 + Z.to_nat (byte_to_Z len))%nat ->
          exists self',
            ErrorMessage.deserialize self data = Returned true self'
            /\ ErrorMessage.error_message_ self' = ErrorMessage.error_message_ self).
Proof.
  intros data len. split; [|split]; intros self Hsym Hshort.
  - destruct (order_deserialize_cases self data) as [Hsmall Hbig].
    destruct (Nat.lt_ge_cases (length data) 50) as [H|H]; [eauto|].
    destruct (Hbig len H Hsym) as (Hrefused & _). apply Hrefused. exact Hshort.
  - destruct (market_data_deserialize_cases self data) as [Hsmall Hbig].
    destruct (Nat.lt_ge_cases (length data) 50) as [H|H]; [eauto|].
    destruct (Hbig len H Hsym) as (Hrefused & _). apply Hrefused. exact Hshort.
  - pose proof (lookup_lt_Some _ _ _ Hsym) as Hlt.
    destruct (error_deserialize_cases self data) as [_ Hbig].
    destruct (Hbig ltac:(lia)) as (b & code & _ & Hlen).
    rewrite (Hlen len Hsym).
    destruct (Nat.leb_spec (31 + Z.to_nat (byte_to_Z len)) (length data)); [lia|].
    eexists. split; reflexivity.
Qed.

(** An order frame of 60 bytes announcing a symbol of 200 bytes. *)
Lemma overlong_string_length_witness :
  exists self', OrderMessage.deserialize blank_order order_frame_60 = Returned false self'.
Proof.
  refine (proj1 (overlong_string_length order_frame_60 Byte.xc8) blank_order _ _).
  - reflexivity.
  - cbn. lia.
Defined.

(** ** The monitor (socket_server.cpp, [PerformanceMonitor]) *)

(** *** Doubles that hold integers

    Integers of at most 53 bits are held exactly, and their sums and
    comparisons are those of the integers. *)

Lemma digits_pos p : 1 <= digits p.
Proof. unfold digits. lia. Qed.

Lemma digits_shl p k : digits (shl p k) = digits p + Z.of_nat k.
Proof.
  unfold digits, shl. induction k as [|k IH].
  - cbn. lia.
  - change (Nat.iter (S k) xO p) with (xO (Nat.iter k xO p)).
    cbn [digits2_pos]. rewrite Pos2Z.inj_succ, IH. lia.
Qed.

Lemma digits_bounds p : 2 ^ (digits p - 1) <= Z.pos p < 2 ^ digits p.
Proof.
  unfold digits. induction p as [p IH|p IH|]; cbn [digits2_pos].
  - rewrite Pos2Z.inj_succ, (Pos2Z.inj_xI p).
    replace (Z.succ (Z.pos (digits2_pos p)) - 1) with (Z.pos (digits2_pos p)) by lia.
    rewrite (Z.pow_succ_r 2 (Z.pos (digits2_pos p))) by lia.
    replace (2 ^ Z.pos (digits2_pos p)) with (2 * 2 ^ (Z.pos (digits2_pos p) - 1)) in *
      by (rewrite <- Z.pow_succ_r by lia; f_equal; lia).
    lia.
  - rewrite Pos2Z.inj_succ, (Pos2Z.inj_xO p).
    replace (Z.succ (Z.pos (digits2_pos p)) - 1) with (Z.pos (digits2_pos p)) by lia.
    rewrite (Z.pow_succ_r 2 (Z.pos (digits2_pos p))) by lia.
    replace (2 ^ Z.pos (digits2_pos p)) with (2 * 2 ^ (Z.pos (digits2_pos p) - 1)) in *
      by (rewrite <- Z.pow_succ_r by lia; f_equal; lia).
    lia.
  - cbn. lia.
Qed.

Lemma digits_mono p q : (p <= q)%positive -> digits p <= digits q.
Proof.
  intros Hpq. pose proof (digits_bounds p) as [Hp _]. pose proof (digits_bounds q) as [_ Hq].
  destruct (Z.le_gt_cases (digits p) (digits q)) as [|Hgt]; [assumption|].
  assert (2 ^ digits q <= 2 ^ (digits p - 1)) by (apply Z.pow_le_mono_r; lia).
  lia.
Qed.

Lemma shl_add p j k : shl (shl p j) k = shl p (j + k).
Proof.
  unfold shl. rewrite Nat.add_comm. symmetry. apply Nat.iter_add.
Qed.

Lemma shl_Z p k : Z.pos (shl p k) = Z.pos p * 2 ^ Z.of_nat k.
Proof.
  unfold shl. induction k as [|k IH].
  - cbn. lia.
  - change (Nat.iter (S k) xO p) with (xO (Nat.iter k xO p)).
    rewrite (Pos2Z.inj_xO (Nat.iter k xO p)), IH, Nat2Z.inj_succ, Z.pow_succ_r by lia. lia.
Qed.

Lemma pos_iter_shl p d : Pos.iter xO p d = shl p (Pos.to_nat d).
Proof. unfold shl. apply Pos2Nat.inj_iter. Qed.

Lemma iter_pos_nat {A} (f : A -> A) n : forall x, SpecFloat.iter_pos f n x = Nat.iter (Pos.to_nat n) f x.
Proof.
  induction n as [n IH|n IH|]; intros x; cbn [SpecFloat.iter_pos].
  - rewrite !IH, Pos2Nat.inj_xI.
    replace (S (2 * Pos.to_nat n)) with (Pos.to_nat n + Pos.to_nat n + 1)%nat by lia.
    rewrite !Nat.iter_add. reflexivity.
  - rewrite !IH, Pos2Nat.inj_xO.
    replace (2 * Pos.to_nat n)%nat with (Pos.to_nat n + Pos.to_nat n)%nat by lia.
    rewrite Nat.iter_add. reflexivity.
  - reflexivity.
Qed.

Lemma shr_shl p (n : nat) : forall k, (n <= k)%nat ->
  Nat.iter n shr_1 (Build_shr_record (Z.pos (shl p k)) false false)
  = Build_shr_record (Z.pos (shl p (k - n))) false false.
Proof.
  induction n as [|n IH]; intros k Hk.
  - rewrite Nat.sub_0_r. reflexivity.
  - change (Nat.iter (S n) shr_1 ?x) with (shr_1 (Nat.iter n shr_1 x)).
    rewrite IH by lia.
    replace (k - n)%nat with (S (k - S n)) by lia. reflexivity.
Qed.

Lemma shr_fexp_exact p k e :
  digits p <= 53 -> 53 <= digits p + Z.of_nat k ->
  -1074 <= e + digits p + Z.of_nat k - 53 ->
  shr_fexp 53 1024 (Z.pos (shl p k)) e loc_Exact
  = (Build_shr_record (Z.pos (shl p (Z.to_nat (53 - digits p)))) false false,
     e + digits p + Z.of_nat k - 53).
Proof.
  intros Hd Hk He. unfold shr_fexp, fexp, emin, Zdigits2.
  change (Z.pos (digits2_pos (shl p k))) with (digits (shl p k)).
  rewrite digits_shl. rewrite Z.max_l by lia.
  change (shr_record_of_loc (Z.pos (shl p k)) loc_Exact)
    with (Build_shr_record (Z.pos (shl p k)) false false).
  unfold shr.
  destruct (digits p + Z.of_nat k + e - 53 - e) as [|q|q] eqn:En.
  - f_equal; [|lia]. do 3 f_equal. lia.
  - rewrite iter_pos_nat, shr_shl by lia. f_equal; [|lia]. do 3 f_equal. lia.
  - lia.
Qed.

Lemma round_aux_exact p k e :
  digits p <= 53 -> 53 <= digits p + Z.of_nat k ->
  -1074 <= e + digits p + Z.of_nat k - 53 <= 971 ->
  binary_round_aux 53 1024 false (Z.pos (shl p k)) e loc_Exact
  = S754_finite false (shl p (Z.to_nat (53 - digits p)))
      (e + digits p + Z.of_nat k - 53).
Proof.
  intros Hd Hk He. unfold binary_round_aux.
  rewrite shr_fexp_exact by lia.
  cbn [shr_m loc_of_shr_record round_nearest_even].
  rewrite shr_fexp_exact by lia.
  cbn [shr_m].
  replace (e + digits p + Z.of_nat k - 53 + digits p + Z.of_nat (Z.to_nat (53 - digits p)) - 53)
    with (e + digits p + Z.of_nat k - 53) by lia.
  destruct (Z.leb_spec (e + digits p + Z.of_nat k - 53) (1024 - 53)); [reflexivity | lia].
Qed.

Lemma of_Z_int p : digits p <= 53 -> B64.of_Z (Z.pos p) = int_double p.
Proof.
  intros Hd. pose proof (digits_pos p) as Hp.
  unfold B64.of_Z, binary_normalize, binary_round, int_double.
  unfold shl_align, fexp, emin, b64_prec, b64_emax.
  change (Z.pos (digits2_pos p)) with (digits p).
  rewrite Z.add_0_r, Z.max_l by lia.
  destruct (digits p - 53 - 0) as [|q|q] eqn:En.
  - change p with (shl p 0) at 1.
    rewrite (round_aux_exact p 0 0) by lia. f_equal; lia.
  - lia.
  - rewrite pos_iter_shl.
    rewrite (round_aux_exact p (Pos.to_nat q) (digits p - 53)) by lia.
    f_equal; try f_equal; lia.
Qed.

Lemma shl_sum a b k : (Z.pos (shl a k) + Z.pos (shl b k))%Z = Z.pos (shl (a + b) k).
Proof.
  rewrite !shl_Z, Pos2Z.inj_add. lia.
Qed.

Lemma shl_inj_Z p q : Z.pos p = Z.pos q -> p = q.
Proof. intros H. injection H as ->. reflexivity. Qed.

(** The mantissa of [int_double p] moved to the exponent [ez]. *)
Lemma shl_align_int p ez :
  digits p <= 53 -> ez <= digits p - 53 ->
  fst (shl_align (shl p (Z.to_nat (53 - digits p))) (digits p - 53) ez)
  = shl p (Z.to_nat (- ez)).
Proof.
  intros Hd He. unfold shl_align.
  destruct (ez - (digits p - 53)) as [|q|q] eqn:En; cbn [fst].
  - f_equal. lia.
  - lia.
  - rewrite pos_iter_shl, shl_add. f_equal. lia.
Qed.

Lemma add_int a b :
  digits (a + b) <= 53 ->
  B64.add (int_double a) (int_double b) = int_double (a + b).
Proof.
  intros Hd.
  assert (Ha : digits a <= digits (a + b)) by (apply digits_mono; lia).
  assert (Hb : digits b <= digits (a + b)) by (apply digits_mono; lia).
  pose proof (digits_pos a). pose proof (digits_pos b).
  unfold B64.add, int_double, SFadd, b64_prec, b64_emax.
  set (ez := Z.min (digits a - 53) (digits b - 53)).
  rewrite !shl_align_int by (subst ez; lia).
  cbn [cond_Zopp]. rewrite shl_sum.
  unfold binary_normalize, binary_round, shl_align, fexp, emin.
  change (Z.pos (digits2_pos (shl (a + b) (Z.to_nat (- ez)))))
    with (digits (shl (a + b) (Z.to_nat (- ez)))).
  rewrite digits_shl. rewrite Z.max_l by (subst ez; lia).
  destruct (digits (a + b) + Z.of_nat (Z.to_nat (- ez)) + ez - 53 - ez) as [|q|q] eqn:En.
  - rewrite round_aux_exact by (subst ez; lia). f_equal; subst ez; lia.
  - rewrite round_aux_exact by (subst ez; lia). f_equal; subst ez; lia.
  - subst ez; lia.
Qed.

Lemma small_digits z :
  small z -> exists p, z = Z.pos p /\ digits p <= 53.
Proof.
  intros [Hlo Hhi]. destruct z as [|p|p]; try lia.
  exists p. split; [reflexivity|].
  pose proof (digits_bounds p) as [Hd _].
  destruct (Z.le_gt_cases (digits p) 53) as [|Hgt]; [assumption|].
  assert (2 ^ 53 <= 2 ^ (digits p - 1)) by (apply Z.pow_le_mono_r; lia).
  lia.
Qed.

Lemma ltb_int a b :
  digits a <= 53 -> digits b <= 53 ->
  B64.ltb (int_double a) (int_double b) = (Z.pos a <? Z.pos b).
Proof.
  intros Ha Hb.
  pose proof (digits_bounds a) as [Ha1 Ha2]. pose proof (digits_bounds b) as [Hb1 Hb2].
  unfold B64.ltb, SFltb, int_double, SFcompare.
  destruct (Z.compare_spec (digits a - 53) (digits b - 53)) as [He|He|He].
  - replace (digits b) with (digits a) by lia.
    change (Pos.compare_cont Eq ?x ?y) with (Pos.compare x y).
    rewrite Pos2Z.inj_compare, !shl_Z.
    pose proof (Z.pow_pos_nonneg 2 (Z.of_nat (Z.to_nat (53 - digits a))) ltac:(lia) ltac:(lia)).
    destruct (Z.compare_spec (Z.pos a * 2 ^ Z.of_nat (Z.to_nat (53 - digits a)))
                (Z.pos b * 2 ^ Z.of_nat (Z.to_nat (53 - digits a))));
      destruct (Z.ltb_spec (Z.pos a) (Z.pos b)); try reflexivity; nia.
  - assert (2 ^ digits a <= 2 ^ (digits b - 1)) by (apply Z.pow_le_mono_r; lia).
    destruct (Z.ltb_spec (Z.pos a) (Z.pos b)); [reflexivity | lia].
  - assert (2 ^ digits b <= 2 ^ (digits a - 1)) by (apply Z.pow_le_mono_r; lia).
    destruct (Z.ltb_spec (Z.pos a) (Z.pos b)); [lia | reflexivity].
Qed.

Lemma of_Z_add a b :
  0 <= a -> 0 < b -> a + b < 2 ^ 53 ->
  B64.add (B64.of_Z a) (B64.of_Z b) = B64.of_Z (a + b).
Proof.
  intros Ha Hb Hsum.
  destruct (small_digits b) as (q & -> & Hq); [split; lia|].
  destruct a as [|p|p]; [| |lia].
  - rewrite Z.add_0_l, of_Z_int by exact Hq. reflexivity.
  - destruct (small_digits (Z.pos p + Z.pos q)) as (r & Hr & Hdr); [split; lia|].
    assert (r = (p + q)%positive) by lia. subst r.
    assert (digits p <= 53).
    { transitivity (digits (p + q)); [apply digits_mono; lia | exact Hdr]. }
    rewrite !of_Z_int by assumption.
    rewrite add_int by exact Hdr.
    change (Z.pos p + Z.pos q) with (Z.pos (p + q)).
    rewrite of_Z_int by exact Hdr. reflexivity.
Qed.

Lemma of_Z_ltb a b :
  small a -> small b -> B64.ltb (B64.of_Z a) (B64.of_Z b) = (a <? b).
Proof.
  intros Ha Hb.
  destruct (small_digits a Ha) as (p & -> & Hp).
  destruct (small_digits b Hb) as (q & -> & Hq).
  rewrite !of_Z_int by assumption. apply ltb_int; assumption.
Qed.

(** *** Recording, summing and sorting integer latencies *)

Section MonitorProperties.
Import PerformanceMonitor.

(** Below [MAX_SAMPLES] nothing is evicted. *)
Lemma record_all_app samples : forall m,
  Z.of_nat (length m + length samples) <= MAX_SAMPLES ->
  record_all samples m = m ++ samples.
Proof.
  unfold record_all.
  induction samples as [|x samples IH]; intros m Hlen; cbn [fold_left].
  - rewrite app_nil_r. reflexivity.
  - cbn [length] in Hlen. unfold recordLatency at 2.
    destruct (Z.leb_spec MAX_SAMPLES (Z.of_nat (length m))); [lia|].
    rewrite IH by (rewrite length_app; cbn [length]; lia).
    rewrite <- app_assoc. reflexivity.
Qed.

Lemma fold_add_latencies l : forall acc,
  0 <= acc -> Forall (fun x => 0 < x) l -> acc + sum_Z l < 2 ^ 53 ->
  fold_left B64.add (latencies l) (B64.of_Z acc) = B64.of_Z (acc + sum_Z l).
Proof.
  induction l as [|x l IH]; intros acc Hacc Hpos Hsum; cbn [latencies List.map fold_left sum_Z fold_right].
  - rewrite Z.add_0_r. reflexivity.
  - inversion Hpos as [|? ? Hx Hl]; subst.
    assert (0 <= sum_Z l).
    { clear -Hl. induction Hl; cbn [sum_Z fold_right]; [lia|]. fold (sum_Z l). lia. }
    cbn [sum_Z fold_right] in Hsum. fold (sum_Z l) in Hsum |- *.
    rewrite of_Z_add by lia.
    fold (latencies l). rewrite IH by (assumption || lia).
    f_equal. lia.
Qed.

Lemma accumulate_latencies l :
  Forall (fun x => 0 < x) l -> sum_Z l < 2 ^ 53 ->
  accumulate (latencies l) = B64.of_Z (sum_Z l).
Proof.
  intros Hpos Hsum. unfold accumulate.
  change B64.zero with (B64.of_Z 0).
  rewrite fold_add_latencies by (assumption || lia). reflexivity.
Qed.

Lemma sum_Z_Permutation l l' : l ≡ₚ l' -> sum_Z l = sum_Z l'.
Proof.
  induction 1; cbn [sum_Z fold_right]; fold sum_Z in *; try fold (sum_Z l) in *;
    try fold (sum_Z l') in *; lia.
Qed.

Lemma insert_Z_Permutation x l : insert_Z x l ≡ₚ x :: l.
Proof.
  induction l as [|y l IH]; cbn [insert_Z]; [reflexivity|].
  destruct (y <? x); [|reflexivity].
  rewrite IH. apply Permutation_swap.
Qed.

Lemma sort_Z_Permutation l : sort_Z l ≡ₚ l.
Proof.
  induction l as [|x l IH]; cbn [sort_Z fold_right]; [reflexivity|].
  fold (sort_Z l). rewrite insert_Z_Permutation, IH. reflexivity.
Qed.

Lemma insert_Z_Sorted x l : Sorted Z.le l -> Sorted Z.le (insert_Z x l).
Proof.
  induction 1 as [|y l Hsorted IH Hhd]; cbn [insert_Z]; [repeat constructor|].
  destruct (Z.ltb_spec y x) as [Hlt|Hge].
  - constructor; [exact IH|].
    destruct Hhd as [|z l Hz]; cbn [insert_Z]; [constructor; lia|].
    destruct (z <? x); constructor; lia.
  - constructor; [constructor; assumption | constructor; lia].
Qed.

Lemma sort_Z_Sorted l : Sorted Z.le (sort_Z l).
Proof.
  induction l as [|x l IH]; cbn [sort_Z fold_right]; [constructor|].
  apply insert_Z_Sorted, IH.
Qed.

(** On integers that doubles hold exactly, the sort of the monitor is the
    sort of the integers. *)
Lemma insert_sorted_latencies x l :
  small x -> Forall small l ->
  insert_sorted (B64.of_Z x) (latencies l) = latencies (insert_Z x l).
Proof.
  intros Hx Hl. induction Hl as [|y l Hy Hl IH]; cbn [latencies List.map insert_sorted insert_Z].
  - reflexivity.
  - rewrite of_Z_ltb by assumption.
    destruct (y <? x); cbn [latencies List.map]; [|reflexivity].
    fold (latencies l). rewrite IH. reflexivity.
Qed.

Lemma sort_latencies l :
  Forall small l -> sort (latencies l) = latencies (sort_Z l).
Proof.
  intros Hl. induction Hl as [|x l Hx Hl IH]; cbn [latencies List.map sort sort_Z fold_right].
  - reflexivity.
  - fold (latencies l). fold (sort (latencies l)). fold (sort_Z l). rewrite IH.
    apply insert_sorted_latencies; [exact Hx|].
    eapply Permutation_Forall; [symmetry; apply sort_Z_Permutation | exact Hl].
Qed.

Lemma one_to_100_small : Forall small one_to_100.
Proof.
  apply Forall_forall. intros x Hx. apply elem_of_seqZ in Hx.
  unfold small. split; [lia|].
  assert (2 ^ 7 <= 2 ^ 53) by (apply Z.pow_le_mono_r; lia).
  change (2 ^ 7) with 128 in *. lia.
Qed.

Lemma one_to_100_Sorted : Sorted Z.le one_to_100.
Proof.
  apply Sorted_LocallySorted_iff.
  unfold one_to_100. vm_compute seqZ.
  repeat (first [apply LSorted_cons1 | apply LSorted_consn; [|lia]]).
Qed.

(** Whatever the order in which 1, ..., 100 were recorded, the samples
    sorted are 1, ..., 100 ascending. *)
Lemma sort_one_to_100 l :
  l ≡ₚ one_to_100 -> sort (latencies l) = latencies one_to_100.
Proof.
  intros Hperm.
  rewrite sort_latencies
    by (eapply Permutation_Forall; [symmetry; exact Hperm | apply one_to_100_small]).
  f_equal. apply (Sorted_unique Z.le).
  - apply sort_Z_Sorted.
  - apply one_to_100_Sorted.
  - rewrite sort_Z_Permutation. exact Hperm.
Qed.

Lemma recorded_one_to_100 l :
  l ≡ₚ one_to_100 -> recorded l = latencies l /\ length (latencies l) = 100%nat.
Proof.
  intros Hperm.
  assert (Hlen : length (latencies l) = 100%nat).
  { unfold latencies. rewrite length_map, (Permutation_length Hperm). reflexivity. }
  split; [|exact Hlen].
  unfold recorded. rewrite record_all_app; [reflexivity|].
  rewrite Hlen. unfold MAX_SAMPLES, empty. cbn [length]. lia.
Qed.
End MonitorProperties.

(** The literals are the doubles nearest to 0.95, 0.99 and 50.5, and the
    products that index the sorted samples are exact. *)
Example literals_are_nearest :
  B64.lit_0_95 = B64.div (B64.of_Z 95) (B64.of_Z 100)
  /\ B64.lit_0_99 = B64.div (B64.of_Z 99) (B64.of_Z 100)
  /\ lit_50_5 = B64.div (B64.of_Z 101) (B64.of_Z 2)
  /\ B64.to_size_t (B64.mul (B64.of_Z 100) B64.lit_0_95) = Some 95
  /\ B64.to_size_t (B64.mul (B64.of_Z 100) B64.lit_0_99) = Some 99.
Proof. repeat split; vm_compute; reflexivity. Qed.

(** C3, as stated, fails: with 1, ..., 100 recorded in ascending order, the
    sample at index 95 of the sorted samples is 96 and the one at index 99
    is 100, so that [getP95Latency] is not 95 and [getP99Latency] is not
    99. *)
Lemma percentiles_are_not_95_and_99 :
  PerformanceMonitor.getP95Latency (recorded one_to_100)
    <> PerformanceMonitor.Value (B64.of_Z 95)
  /\ PerformanceMonitor.getP99Latency (recorded one_to_100)
       <> PerformanceMonitor.Value (B64.of_Z 99).
Proof. split; vm_compute; discriminate. Qed.

(** C3, amended: for the samples 1 us, 2 us, ..., 100 us recorded into an
    empty monitor in any order, [getAverageLatency] is 50.5,
    [getP95Latency] is 96 and [getP99Latency] is 100: the percentile is the
    sample at index floor(0.95 n), resp. floor(0.99 n), counted from 0, of
    the sorted samples. *)
Theorem percentiles_of_1_to_100 :
  forall l : list Z,
    l ≡ₚ one_to_100 ->
    PerformanceMonitor.getAverageLatency (recorded l) = PerformanceMonitor.Value lit_50_5
    /\ PerformanceMonitor.getP95Latency (recorded l)
       = PerformanceMonitor.Value (B64.of_Z 96)
    /\ PerformanceMonitor.getP99Latency (recorded l)
       = PerformanceMonitor.Value (B64.of_Z 100).
Proof.
  intros l Hperm.
  destruct (recorded_one_to_100 l Hperm) as [-> Hlen].
  assert (Hsorted : length (PerformanceMonitor.sort (latencies l)) = 100%nat).
  { rewrite (sort_one_to_100 l Hperm). reflexivity. }
  split; [|split].
  - assert (Havg : PerformanceMonitor.getAverageLatency (latencies l)
                   = PerformanceMonitor.Value
                       (B64.div (PerformanceMonitor.accumulate (latencies l))
                          (B64.of_Z (Z.of_nat (length (latencies l)))))).
    { destruct (latencies l); [discriminate | reflexivity]. }
    rewrite Havg, Hlen, accumulate_latencies.
    + rewrite (sum_Z_Permutation _ _ Hperm). vm_compute. reflexivity.
    + eapply Permutation_Forall; [symmetry; exact Hperm|].
      apply Forall_forall. intros z Hz. apply elem_of_seqZ in Hz. lia.
    + rewrite (sum_Z_Permutation _ _ Hperm). vm_compute. reflexivity.
  - unfold PerformanceMonitor.getP95Latency, PerformanceMonitor.percentile.
    rewrite Hlen, Hsorted, (sort_one_to_100 l Hperm). vm_compute. reflexivity.
  - unfold PerformanceMonitor.getP99Latency, PerformanceMonitor.percentile.
    rewrite Hlen, Hsorted, (sort_one_to_100 l Hperm). vm_compute. reflexivity.
Qed.

(** The samples recorded from 100 us down to 1 us. *)
Lemma percentiles_of_1_to_100_witness :
  PerformanceMonitor.getAverageLatency (recorded (reverse one_to_100))
  = PerformanceMonitor.Value lit_50_5
  /\ PerformanceMonitor.getP95Latency (recorded (reverse one_to_100))
     = PerformanceMonitor.Value (B64.of_Z 96)
  /\ PerformanceMonitor.getP99Latency (recorded (reverse one_to_100))
     = PerformanceMonitor.Value (B64.of_Z 100).
Proof.
  apply (percentiles_of_1_to_100 (reverse one_to_100)).
  apply reverse_Permutation.
Defined.

(** *** What the accepted frames decode to, and encode back to *)

(** Bits that do not overlap add up. *)
Lemma lor_shiftl_add x b k :
  0 <= k -> 0 <= x < 2 ^ k -> 0 <= b ->
  Z.lor x (Z.shiftl b k) = x + b * 2 ^ k.
Proof.
  intros Hk Hx Hb.
  rewrite <- Z.shiftl_mul_pow2 by exact Hk.
  rewrite <- Z.lxor_lor, <- Z.add_nocarry_lxor; try reflexivity.
  all: apply Z.bits_inj'; intros j Hj;
    rewrite Z.land_spec, Z.bits_0;
    destruct (Z.lt_ge_cases j k) as [Hlt|Hge];
    [ rewrite (Z.shiftl_spec_low b k j) by exact Hlt; apply andb_false_r
    | destruct (Z.eq_dec x 0) as [->|Hnz];
      [ rewrite Z.bits_0; reflexivity
      | rewrite (Z.bits_above_log2 x j);
        [ reflexivity | lia | apply Z.lt_le_trans with k; [apply Z.log2_lt_pow2; lia | exact Hge] ] ] ].
Qed.

Lemma le_value_range bs : 0 <= le_value bs < 2 ^ (Z.of_nat (length bs) * 8).
Proof.
  induction bs as [|b bs IH]; cbn [le_value length].
  - cbn. lia.
  - pose proof (byte_to_Z_range b).
    replace (Z.of_nat (S (length bs)) * 8) with (8 + Z.of_nat (length bs) * 8) by lia.
    rewrite Z.pow_add_r by lia. change (2 ^ 8) with 256. lia.
Qed.

Lemma le_acc_value bs : forall i x,
  0 <= x < 2 ^ (Z.of_nat i * 8) ->
  le_acc i bs x = x + 2 ^ (Z.of_nat i * 8) * le_value bs.
Proof.
  induction bs as [|b bs IH]; intros i x Hx; cbn [le_acc le_value].
  - lia.
  - pose proof (byte_to_Z_range b).
    rewrite lor_shiftl_add by lia.
    assert (Hpow : 2 ^ (Z.of_nat (S i) * 8) = 256 * 2 ^ (Z.of_nat i * 8)).
    { replace (Z.of_nat (S i) * 8) with (8 + Z.of_nat i * 8) by lia.
      rewrite Z.pow_add_r by lia. reflexivity. }
    rewrite IH; [rewrite Hpow; lia|].
    rewrite Hpow. nia.
Qed.

Lemma le_acc_0 bs : le_acc 0 bs 0 = le_value bs.
Proof. rewrite le_acc_value by (cbn; lia). cbn. lia. Qed.

Lemma push_le_S n v :
  push_le (S n) v = byte_of_Z (Z.land v 255) :: push_le n (Z.shiftr v 8).
Proof.
  unfold push_le. cbn [seq List.map]. f_equal.
  rewrite <- seq_shift, List.map_map. apply List.map_ext. intros k.
  rewrite Z.shiftr_shiftr by lia. do 3 f_equal. lia.
Qed.

(** Encoding the value of [n] bytes gives the bytes back. *)
Lemma push_le_value bs : push_le (length bs) (le_value bs) = bs.
Proof.
  induction bs as [|b bs IH]; [reflexivity|].
  cbn [length le_value]. rewrite push_le_S.
  pose proof (byte_to_Z_range b).
  change 255 with (Z.ones 8). rewrite Z.land_ones, Z.shiftr_div_pow2 by lia.
  change (2 ^ 8) with 256.
  replace (byte_to_Z b + 256 * le_value bs) with (byte_to_Z b + le_value bs * 256) by lia.
  rewrite Z.mod_add, Z.div_add by lia.
  rewrite Z.mod_small, Z.div_small, Z.add_0_l by lia.
  rewrite byte_of_to_Z, IH. reflexivity.
Qed.

Lemma segment_length data pos n :
  (pos + n <= length data)%nat -> length (segment data pos n) = n.
Proof.
  intros H. unfold segment. rewrite length_take, length_drop. lia.
Qed.

Lemma segment_split data pos a b :
  segment data pos (a + b) = segment data pos a ++ segment data (pos + a) b.
Proof.
  unfold segment. rewrite <- (take_take_drop (drop pos data) a b), drop_drop. reflexivity.
Qed.

Lemma segment_cons data pos n b :
  data !! pos = Some b -> segment data pos (S n) = b :: segment data (S pos) n.
Proof.
  intros H. unfold segment. rewrite (drop_S _ _ _ H). reflexivity.
Qed.

Lemma segment_byte_at data pos :
  (pos < length data)%nat -> segment data pos 1 = [byte_at data pos].
Proof.
  intros H. destruct (lookup_lt_is_Some_2 data pos H) as [b Hb].
  rewrite (segment_cons _ _ _ _ Hb). unfold byte_at, segment. rewrite Hb, take_0. reflexivity.
Qed.

Lemma push_le_field data pos n :
  (pos + n <= length data)%nat -> push_le n (field data pos n) = segment data pos n.
Proof.
  intros H. unfold field.
  rewrite <- (segment_length data pos n H) at 1. apply push_le_value.
Qed.

Lemma read_le_from_value n : forall i x data pos,
  (pos + n <= length data)%nat ->
  read_le_from i n x data pos = Got (le_acc i (segment data pos n) x) (pos + n)%nat.
Proof.
  induction n as [|n IH]; intros i x data pos Hlen; cbn [read_le_from].
  - unfold segment. rewrite take_0, Nat.add_0_r. reflexivity.
  - destruct (lookup_lt_is_Some_2 data pos ltac:(lia)) as [b Hb].
    erewrite bind_got by (unfold next_byte; rewrite Hb; reflexivity).
    rewrite IH by lia. rewrite (segment_cons _ _ _ _ Hb). cbn [le_acc]. f_equal. lia.
Qed.

Lemma read_le_value n data pos :
  (pos + n <= length data)%nat ->
  read_le n data pos = Got (field data pos n) (pos + n)%nat.
Proof.
  intros H. unfold read_le, field. rewrite read_le_from_value by exact H.
  rewrite le_acc_0. reflexivity.
Qed.

Lemma next_byte_value data pos :
  (pos < length data)%nat -> next_byte data pos = Got (byte_at data pos) (S pos).
Proof.
  intros H. destruct (lookup_lt_is_Some_2 data pos H) as [b Hb].
  unfold next_byte, byte_at. rewrite Hb. reflexivity.
Qed.

Lemma header_value self data :
  (26 <= length data)%nat ->
  Message.deserialize_header self data 0%nat
  = Got (header_of_bytes data (Message.receive_time_ self)) 26%nat.
Proof.
  intros Hlen. unfold Message.deserialize_header.
  erewrite bind_got by (apply next_byte_value; lia).
  erewrite bind_got by (apply next_byte_value; lia).
  erewrite bind_got by (apply read_le_value; lia).
  erewrite bind_got by (apply read_le_value; lia).
  erewrite bind_got by (apply read_le_value; lia).
  reflexivity.
Qed.

Lemma serialize_header_of_bytes data receive_time :
  (26 <= length data)%nat ->
  Message.serialize_header (header_of_bytes data receive_time) = segment data 0 26.
Proof.
  intros Hlen. unfold Message.serialize_header, header_of_bytes.
  cbn [Message.type_ Message.priority_ Message.sequence_number_ Message.timestamp_
       Message.client_id_].
  rewrite !push_le_field by lia.
  change 26%nat with (1 + (1 + (8 + (8 + 8))))%nat.
  rewrite !segment_split. cbn [Nat.add].
  rewrite !segment_byte_at by lia. reflexivity.
Qed.

Lemma length_byte_at data pos :
  byte_of_Z (Z.of_nat (Z.to_nat (byte_to_Z (byte_at data pos)))) = byte_at data pos.
Proof.
  pose proof (byte_to_Z_range (byte_at data pos)).
  rewrite Z2Nat.id by lia. apply byte_of_to_Z.
Qed.

(** Heartbeats: every frame of 26 bytes or more is accepted, and the
    object encodes back to the first 26 bytes. *)
Lemma heartbeat_deserialize_accepts self data :
  (26 <= length data)%nat ->
  HeartbeatMessage.deserialize self data = Returned true (heartbeat_of_bytes data self)
  /\ HeartbeatMessage.serialize (heartbeat_of_bytes data self) = take 26 data.
Proof.
  intros Hlen. split.
  - unfold HeartbeatMessage.deserialize, HeartbeatMessage.deserialize_body.
    destruct (Nat.ltb_spec (length data) 26); [lia|].
    erewrite bind_got by (apply header_value; lia). reflexivity.
  - unfold HeartbeatMessage.serialize, heartbeat_of_bytes.
    cbn [HeartbeatMessage.base]. rewrite serialize_header_of_bytes by lia. reflexivity.
Qed.

(** Market data: a frame that holds every field is accepted, and the object
    encodes back to the bytes that were read. *)
Lemma market_data_deserialize_accepts self data :
  let len := Z.to_nat (byte_to_Z (byte_at data 26)) in
  (50 <= length data)%nat -> (51 + len <= length data)%nat ->
  MarketDataMessage.deserialize self data
  = Returned true (market_data_of_bytes data self)
  /\ MarketDataMessage.serialize (market_data_of_bytes data self) = take (51 + len) data.
Proof.
  intros len H50 Hlen. split.
  - unfold MarketDataMessage.deserialize, MarketDataMessage.deserialize_body.
    destruct (Nat.ltb_spec (length data) 50); [lia|].
    erewrite bind_got by (apply header_value; lia).
    erewrite bind_got by (apply next_byte_value; lia).
    change (S 26) with 27%nat.
    rewrite bind_cursor, bind_size. fold len.
    destruct (Nat.ltb_spec (length data) (27 + len)); [lia|].
    rewrite bind_substring, bind_advance.
    erewrite bind_got by (apply read_le_value; lia).
    erewrite bind_got by (apply read_le_value; lia).
    erewrite bind_got by (apply read_le_value; lia).
    erewrite bind_got by (apply read_le_value; lia).
    reflexivity.
  - unfold MarketDataMessage.serialize, market_data_of_bytes. subst len.
    set (len := Z.to_nat (byte_to_Z (byte_at data 26))) in *.
    cbn [MarketDataMessage.base MarketDataMessage.symbol_ MarketDataMessage.bid_
         MarketDataMessage.ask_ MarketDataMessage.bid_size_ MarketDataMessage.ask_size_].
    rewrite serialize_header_of_bytes, !push_le_field by lia.
    rewrite segment_length by lia. unfold len at 1. rewrite length_byte_at.
    rewrite <- (segment_byte_at data 26) by lia.
    replace (51 + len)%nat with (26 + (1 + (len + (8 + (8 + (4 + 4))))))%nat by lia.
    change (take (26 + (1 + (len + (8 + (8 + (4 + 4)))))) data)
      with (segment data 0 (26 + (1 + (len + (8 + (8 + (4 + 4))))))).
    rewrite !segment_split. same_segments.
Qed.

(** Orders: a frame that holds every field up to the quantity is accepted;
    the object encodes back to the bytes that were read when the flag byte
    is there and is 0 or 1. *)
Lemma order_deserialize_accepts self data :
  let len := Z.to_nat (byte_to_Z (byte_at data 34)) in
  (50 <= length data)%nat -> (47 + len <= length data)%nat ->
  OrderMessage.deserialize self data = Returned true (order_of_bytes data self)
  /\ (byte_at data (47 + len) = Byte.x00 \/ byte_at data (47 + len) = Byte.x01 ->
      (48 + len <= length data)%nat ->
      OrderMessage.serialize (order_of_bytes data self) = take (48 + len) data).
Proof.
  intros len H50 Hlen. split.
  - unfold OrderMessage.deserialize, OrderMessage.deserialize_body.
    destruct (Nat.ltb_spec (length data) 50); [lia|].
    erewrite bind_got by (apply header_value; lia).
    erewrite bind_got by (apply read_le_value; lia).
    change (26 + 8)%nat with 34%nat.
    erewrite bind_got by (apply next_byte_value; lia).
    change (S 34) with 35%nat.
    rewrite bind_cursor, bind_size. fold len.
    destruct (Nat.ltb_spec (length data) (35 + len)); [lia|].
    rewrite bind_substring, bind_advance.
    erewrite bind_got by (apply read_le_value; lia).
    erewrite bind_got by (apply read_le_value; lia).
    rewrite bind_peek. reflexivity.
  - intros Hflag Hlen'.
    unfold OrderMessage.serialize, order_of_bytes. subst len.
    set (len := Z.to_nat (byte_to_Z (byte_at data 34))) in *.
    cbn [OrderMessage.base OrderMessage.order_id_ OrderMessage.symbol_
         OrderMessage.price_ OrderMessage.quantity_ OrderMessage.is_buy_].
    rewrite serialize_header_of_bytes, !push_le_field by lia.
    rewrite segment_length by lia. unfold len at 1. rewrite length_byte_at.
    rewrite <- (segment_byte_at data 34) by lia.
    assert (Hf : (if match data !! (35 + len + 8 + 4)%nat with
                     | Some f => negb (byte_to_Z f =? 0)
                     | None => OrderMessage.is_buy_ self
                     end then Byte.x01 else Byte.x00)
                 = byte_at data (47 + len)).
    { replace (35 + len + 8 + 4)%nat with (47 + len)%nat by lia.
      unfold byte_at in Hflag |- *.
      destruct (lookup_lt_is_Some_2 data (47 + len) ltac:(lia)) as [f Hfe].
      rewrite Hfe in Hflag |- *. change (default Byte.x00 (Some f)) with f in *.
      destruct Hflag as [-> | ->]; reflexivity. }
    rewrite Hf. rewrite <- (segment_byte_at data (47 + len)) by lia.
    replace (48 + len)%nat with (26 + (8 + (1 + (len + (8 + (4 + 1))))))%nat by lia.
    change (take (26 + (8 + (1 + (len + (8 + (4 + 1)))))) data)
      with (segment data 0 (26 + (8 + (1 + (len + (8 + (4 + 1))))))).
    rewrite !segment_split. same_segments.
Qed.

(** Errors: every frame of 30 bytes or more is accepted; the object encodes
    back to the bytes that were read when the text length byte is there and
    the text fits. *)
Lemma error_deserialize_accepts self data :
  let len := Z.to_nat (byte_to_Z (byte_at data 30)) in
  (30 <= length data)%nat ->
  ErrorMessage.deserialize self data = Returned true (error_of_bytes data self)
  /\ ((31 + len <= length data)%nat ->
      ErrorMessage.serialize (error_of_bytes data self) = take (31 + len) data).
Proof.
  intros len H30. split.
  - unfold ErrorMessage.deserialize, ErrorMessage.deserialize_body, error_of_bytes.
    fold len.
    destruct (Nat.ltb_spec (length data) 30); [lia|].
    erewrite bind_got by (apply header_value; lia).
    erewrite bind_got by (apply read_le_value; lia).
    change (26 + 4)%nat with 30%nat.
    rewrite bind_cursor, bind_size.
    destruct (Nat.ltb_spec 30 (length data)) as [Hlt|Hge].
    + erewrite bind_got by (apply next_byte_value; lia).
      change (S 30) with 31%nat.
      rewrite bind_cursor. fold len.
      destruct (Nat.leb_spec 31 (length data)); [|lia].
      destruct (31 + len <=? length data)%nat; reflexivity.
    + destruct (Nat.leb_spec 31 (length data)); [lia|]. reflexivity.
  - intros Hfits. unfold ErrorMessage.serialize, error_of_bytes. subst len.
    set (len := Z.to_nat (byte_to_Z (byte_at data 30))) in *.
    cbn [ErrorMessage.base ErrorMessage.error_code_ ErrorMessage.error_message_].
    destruct (Nat.leb_spec 31 (length data)); [|lia].
    destruct (Nat.leb_spec (31 + len) (length data)); [|lia]. cbn [andb].
    rewrite serialize_header_of_bytes, !push_le_field by lia.
    rewrite segment_length by lia. unfold len at 1. rewrite length_byte_at.
    rewrite <- (segment_byte_at data 30) by lia.
    replace (31 + len)%nat with (26 + (4 + (1 + len)))%nat by lia.
    change (take (26 + (4 + (1 + len))) data)
      with (segment data 0 (26 + (4 + (1 + len)))).
    rewrite !segment_split. same_segments.
Qed.

(** C2, as stated, fails where the decoder works as designed: the frame of
    26 bytes made of the type Heartbeat, the priority Normal and zeros is
    decoded to a heartbeat whose sequence number and timestamp are 0, which
    is not a valid message; and an order frame whose flag byte is 2 is
    decoded to a buy order, which encodes back with the flag byte 1. *)
Lemma decoded_message_need_not_be_valid :
  HeartbeatMessage.deserialize blank_heartbeat heartbeat_frame_zeros
  = Returned true (HeartbeatMessage.mk (Message.mk Byte.x06 Byte.x02 0 0 0 0))
  /\ ~ valid (IsHeartbeat (HeartbeatMessage.mk (Message.mk Byte.x06 Byte.x02 0 0 0 0)))
  /\ OrderMessage.deserialize blank_order order_frame_flag_2
     = Returned true (order_of_bytes order_frame_flag_2 blank_order)
  /\ OrderMessage.serialize (order_of_bytes order_frame_flag_2 blank_order)
     <> take 50 order_frame_flag_2.
Proof.
  split; [reflexivity|]. split; [|split].
  - intros (_ & _ & Hseq & _). apply Hseq. reflexivity.
  - vm_compute. reflexivity.
  - vm_compute. discriminate.
Qed.

(** C2, amended: for every byte string, the heartbeat decoder returns false
    on fewer than 26 bytes and a message otherwise; the error decoder
    returns false on fewer than 30 bytes and a message otherwise; the order
    and market data decoders return false on fewer than 50 bytes and when
    the symbol length byte announces more bytes than follow it, and a
    message when the frame holds every field (47 bytes plus the symbol for
    an order, 51 plus the symbol for market data).  The message returned is
    not checked against the invariants of the data model; its encoding is
    the frame up to the last byte read, provided, for an order, that the
    flag byte is there and is 0 or 1, and, for an error, that the text
    length byte is there and the text fits. *)
Theorem deserialize_outcomes :
  forall data : list byte,
    (forall self,
        ((length data < 26)%nat ->
           HeartbeatMessage.deserialize self data = Returned false self)
        /\ ((26 <= length data)%nat ->
              exists self',
                HeartbeatMessage.deserialize self data = Returned true self'
                /\ HeartbeatMessage.serialize self' = take 26 data))
    /\ (forall self,
          ((length data < 30)%nat ->
             ErrorMessage.deserialize self data = Returned false self)
          /\ ((30 <= length data)%nat ->
                exists self',
                  ErrorMessage.deserialize self data = Returned true self'
                  /\ ((31 + announced data 30 <= length data)%nat ->
                      ErrorMessage.serialize self' = take (31 + announced data 30) data)))
    /\ (forall self,
          ((length data < 50)%nat ->
             OrderMessage.deserialize self data = Returned false self)
          /\ ((50 <= length data < 35 + announced data 34)%nat ->
                exists self', OrderMessage.deserialize self data = Returned false self')
          /\ ((50 <= length data)%nat -> (47 + announced data 34 <= length data)%nat ->
                exists self',
                  OrderMessage.deserialize self data = Returned true self'
                  /\ ((48 + announced data 34 <= length data)%nat ->
                      byte_at data (47 + announced data 34) = Byte.x00
                      \/ byte_at data (47 + announced data 34) = Byte.x01 ->
                      OrderMessage.serialize self' = take (48 + announced data 34) data)))
    /\ (forall self,
          ((length data < 50)%nat ->
             MarketDataMessage.deserialize self data = Returned false self)
          /\ ((50 <= length data < 27 + announced data 26)%nat ->
                exists self', MarketDataMessage.deserialize self data = Returned false self')
          /\ ((50 <= length data)%nat -> (51 + announced data 26 <= length data)%nat ->
                exists self',
                  MarketDataMessage.deserialize self data = Returned true self'
                  /\ MarketDataMessage.serialize self'
                     = take (51 + announced data 26) data)).
Proof.
  intros data. split; [|split; [|split]]; intros self.
  - split.
    + intros H. unfold HeartbeatMessage.deserialize.
      destruct (Nat.ltb_spec (length data) 26); [reflexivity | lia].
    + intros H. exists (heartbeat_of_bytes data self).
      apply heartbeat_deserialize_accepts. exact H.
  - split.
    + apply error_deserialize_cases.
    + intros H. exists (error_of_bytes data self).
      apply (error_deserialize_accepts self data H).
  - destruct (order_deserialize_cases self data) as [Hsmall Hbig].
    split; [exact Hsmall|]. split.
    + intros [H50 Hshort].
      destruct (lookup_lt_is_Some_2 data 34 ltac:(lia)) as [len Hlen].
      destruct (Hbig len H50 Hlen) as (Hrefused & _). apply Hrefused.
      unfold announced, byte_at in Hshort. rewrite Hlen in Hshort. exact Hshort.
    + intros H50 Hfits. exists (order_of_bytes data self).
      destruct (order_deserialize_accepts self data H50 Hfits) as [Hd Hs].
      split; [exact Hd|]. intros Hflag Hlen. apply Hs; assumption.
  - destruct (market_data_deserialize_cases self data) as [Hsmall Hbig].
    split; [exact Hsmall|]. split.
    + intros [H50 Hshort].
      destruct (lookup_lt_is_Some_2 data 26 ltac:(lia)) as [len Hlen].
      destruct (Hbig len H50 Hlen) as (Hrefused & _). apply Hrefused.
      unfold announced, byte_at in Hshort. rewrite Hlen in Hshort. exact Hshort.
    + intros H50 Hfits. exists (market_data_of_bytes data self).
      apply (market_data_deserialize_accepts self data H50 Hfits).
Qed.

(** The heartbeat frame of zeros is accepted and encodes back to itself. *)
Lemma deserialize_outcomes_witness :
  exists self',
    HeartbeatMessage.deserialize blank_heartbeat heartbeat_frame_zeros = Returned true self'
    /\ HeartbeatMessage.serialize self' = take 26 heartbeat_frame_zeros.
Proof.
  refine (proj2 (proj1 (deserialize_outcomes heartbeat_frame_zeros) blank_heartbeat) _).
  cbn. lia.
Defined.

(** * Further properties of the code *)

(** ** message.cpp *)

(** Decoding the bytes of a message into an object of its class. *)
Lemma decode_own_bytes self m :
  in_range m -> string_fits m -> same_class self m -> ~ short_symbol m ->
  deserialize self (serialize m) = Returned true (decoded self m).
Proof.
  intros Hrange Hfits Hclass Hlong.
  destruct self as [s|s|s|s], m as [o|d|h|e]; try contradiction;
    cbn [in_range string_fits short_symbol deserialize serialize decoded] in *.
  - rewrite order_roundtrip by (assumption || lia). reflexivity.
  - rewrite market_data_roundtrip by assumption. reflexivity.
  - rewrite heartbeat_roundtrip by assumption. reflexivity.
  - rewrite error_roundtrip by assumption. reflexivity.
Qed.

Lemma decoded_but_receive_time self m :
  same_class self m ->
  set_receive_time (receive_time m) (decoded self m) = m
  /\ receive_time (decoded self m) = receive_time self
  /\ decoded self m = set_receive_time (receive_time self) m.
Proof.
  intros Hclass.
  destruct self as [s|s|s|s], m as [o|d|h|e]; try contradiction.
  - destruct o as [[]]; repeat split.
  - destruct d as [[]]; repeat split.
  - destruct h as [[]]; repeat split.
  - destruct e as [[]]; repeat split.
Qed.

Lemma serialize_set_receive_time time m :
  serialize (set_receive_time time m) = serialize m.
Proof. destruct m as [o|d|h|e]; reflexivity. Qed.

(** X1: encoding then decoding.  For every message whose fields are within
    the ranges of their types and whose string has at most 255 bytes, other
    than an order with a symbol of less than two bytes, [deserialize] on
    the bytes of [serialize], called on any object of the same class,
    returns true and leaves the object equal to the message in every field
    but the receive time, which stays that of the receiving object; the
    object encodes to the same bytes again. *)
Theorem codec_round_trip :
  forall self m : AnyMessage,
    in_range m -> string_fits m -> same_class self m -> ~ short_symbol m ->
    deserialize self (serialize m) = Returned true (decoded self m)
    /\ set_receive_time (receive_time m) (decoded self m) = m
    /\ receive_time (decoded self m) = receive_time self
    /\ serialize (decoded self m) = serialize m.
Proof.
  intros self m Hrange Hfits Hclass Hlong.
  destruct (decoded_but_receive_time self m Hclass) as (Hset & Htime & Hdec).
  split; [apply decode_own_bytes; assumption|].
  split; [exact Hset|]. split; [exact Htime|].
  rewrite Hdec. apply serialize_set_receive_time.
Qed.

Lemma first_order_in_range : in_range (IsOrder first_order).
Proof.
  cbn [in_range]. unfold OrderMessage.wf, Message.wf, is_uint64, is_uint32.
  repeat split; vm_compute; congruence.
Qed.

(** The order of main.cpp, decoded into an object built by the factory. *)
Lemma codec_round_trip_witness :
  deserialize (IsOrder blank_order) (serialize (IsOrder first_order))
  = Returned true (decoded (IsOrder blank_order) (IsOrder first_order)).
Proof.
  refine (proj1 (codec_round_trip (IsOrder blank_order) (IsOrder first_order) _ _ _ _)).
  - exact first_order_in_range.
  - cbn. lia.
  - exact I.
  - cbn. lia.
Defined.

Lemma serialize_head m :
  exists rest, serialize m = Message.type_ (base_of m) :: rest.
Proof.
  destruct m as [o|d|h|e]; cbn [serialize base_of];
    unfold OrderMessage.serialize, MarketDataMessage.serialize,
      HeartbeatMessage.serialize, ErrorMessage.serialize, Message.serialize_header;
    cbn [app]; eexists; reflexivity.
Qed.

(** X2: the factory and the decoder together.  For a message as in X1 whose
    type byte is one of its class, [MessageFactory::createMessage] on its
    bytes builds an object of the same class, taking one sequence number,
    and [deserialize] called on that object with the same bytes returns
    true and leaves it equal to the message, the receive time being the
    default one of a new object. *)
Theorem factory_then_decode :
  forall (m : AnyMessage) (now_us counter : Z),
    in_range m -> string_fits m -> type_of_class m -> ~ short_symbol m ->
    exists fresh,
      MessageFactory.createMessage (serialize m) now_us counter
      = (Some fresh, (counter + 1) mod UINT64_MOD)
      /\ same_class fresh m
      /\ deserialize fresh (serialize m) = Returned true (set_receive_time 0 m).
Proof.
  intros m now_us counter Hrange Hfits Htype Hlong.
  destruct (serialize_head m) as [rest Hrest].
  assert (Hnew : exists fresh,
             MessageFactory.createMessage (serialize m) now_us counter
             = (Some fresh, (counter + 1) mod UINT64_MOD)
             /\ same_class fresh m /\ receive_time fresh = 0).
  { rewrite Hrest. cbn [MessageFactory.createMessage].
    destruct m as [o|d|h|e]; cbn [type_of_class base_of] in *.
    - destruct Htype as [-> | [-> | [-> | ->]]]; eexists; repeat split.
    - rewrite Htype. eexists; repeat split.
    - rewrite Htype. eexists; repeat split.
    - rewrite Htype. eexists; repeat split. }
  destruct Hnew as (fresh & Hcreate & Hclass & Htime).
  exists fresh. split; [exact Hcreate|]. split; [exact Hclass|].
  rewrite decode_own_bytes by assumption.
  destruct (decoded_but_receive_time fresh m Hclass) as (_ & _ & ->).
  rewrite Htime. reflexivity.
Qed.

(** The order of main.cpp, received as the eighth message of a process. *)
Lemma factory_then_decode_witness :
  exists fresh,
    MessageFactory.createMessage (serialize (IsOrder first_order)) 1700000000000000 7
    = (Some fresh, (7 + 1) mod UINT64_MOD)
    /\ same_class fresh (IsOrder first_order)
    /\ deserialize fresh (serialize (IsOrder first_order))
       = Returned true (set_receive_time 0 (IsOrder first_order)).
Proof.
  refine (factory_then_decode (IsOrder first_order) 1700000000000000 7 _ _ _ _).
  - exact first_order_in_range.
  - cbn. lia.
  - left. reflexivity.
  - cbn. lia.
Defined.

(** *** Strings longer than the length byte can tell *)

Lemma byte_at_middle (pre rest : list byte) b n :
  n = length pre -> byte_at (pre ++ b :: rest) n = b.
Proof.
  intros ->. unfold byte_at. rewrite list_lookup_middle by reflexivity. reflexivity.
Qed.

Lemma segment_middle (pre s rest : list byte) pos n :
  pos = length pre -> (n <= length s)%nat ->
  segment (pre ++ s ++ rest) pos n = take n s.
Proof.
  intros -> Hn. unfold segment. rewrite drop_app_length.
  apply take_app_le. exact Hn.
Qed.

Lemma announced_length_byte (s : list byte) :
  Z.to_nat (byte_to_Z (length_byte s)) = (length s mod 256)%nat.
Proof.
  unfold length_byte. rewrite byte_to_of_Z. change 255 with (Z.ones 8).
  rewrite Z.land_ones by lia. change (2 ^ 8) with (Z.of_nat 256).
  rewrite <- Nat2Z.inj_mod. apply Nat2Z.id.
Qed.

Lemma mod_256_le (n : nat) : (n mod 256 <= n)%nat.
Proof. apply Nat.Div0.mod_le. Qed.

Lemma order_serialize_shape o :
  OrderMessage.serialize o
  = (Message.serialize_header (OrderMessage.base o) ++ push_le 8 (OrderMessage.order_id_ o))
      ++ length_byte (OrderMessage.symbol_ o)
      :: (OrderMessage.symbol_ o
            ++ (push_le 8 (OrderMessage.price_ o) ++ push_le 4 (OrderMessage.quantity_ o)
                  ++ [flag_byte (OrderMessage.is_buy_ o)])).
Proof. unfold OrderMessage.serialize. rewrite <- !app_assoc. reflexivity. Qed.

Lemma market_data_serialize_shape d :
  MarketDataMessage.serialize d
  = Message.serialize_header (MarketDataMessage.base d)
      ++ length_byte (MarketDataMessage.symbol_ d)
      :: (MarketDataMessage.symbol_ d
            ++ (push_le 8 (MarketDataMessage.bid_ d) ++ push_le 8 (MarketDataMessage.ask_ d)
                  ++ push_le 4 (MarketDataMessage.bid_size_ d)
                  ++ push_le 4 (MarketDataMessage.ask_size_ d))).
Proof. reflexivity. Qed.

Lemma error_serialize_shape e :
  ErrorMessage.serialize e
  = (Message.serialize_header (ErrorMessage.base e) ++ push_le 4 (ErrorMessage.error_code_ e))
      ++ length_byte (ErrorMessage.error_message_ e)
      :: (ErrorMessage.error_message_ e ++ []).
Proof.
  unfold ErrorMessage.serialize. rewrite <- !app_assoc, app_nil_r. reflexivity.
Qed.

Lemma order_symbol_decoded self o :
  (2 <= length (OrderMessage.symbol_ o))%nat ->
  exists o',
    OrderMessage.deserialize self (OrderMessage.serialize o) = Returned true o'
    /\ OrderMessage.symbol_ o'
       = take (length (OrderMessage.symbol_ o) mod 256) (OrderMessage.symbol_ o).
Proof.
  intros Hlen.
  pose proof (order_serialize_length o) as Hsize.
  pose proof (mod_256_le (length (OrderMessage.symbol_ o))) as Hmod.
  assert (Hat : byte_at (OrderMessage.serialize o) 34 = length_byte (OrderMessage.symbol_ o)).
  { rewrite order_serialize_shape. apply byte_at_middle.
    rewrite length_app, serialize_header_length, push_le_length. reflexivity. }
  destruct (order_deserialize_accepts self (OrderMessage.serialize o)) as [Hdec _].
  - lia.
  - rewrite Hat, announced_length_byte. lia.
  - eexists. split; [exact Hdec|].
    unfold order_of_bytes. cbn [OrderMessage.symbol_].
    rewrite Hat, announced_length_byte.
    rewrite order_serialize_shape at 1.
    change (?pre ++ ?b :: ?rest) with (pre ++ [b] ++ rest).
    rewrite (app_assoc _ [_]).
    apply segment_middle; [|exact Hmod].
    rewrite !length_app, serialize_header_length, push_le_length. reflexivity.
Qed.

Lemma market_data_symbol_decoded self d :
  exists d',
    MarketDataMessage.deserialize self (MarketDataMessage.serialize d) = Returned true d'
    /\ MarketDataMessage.symbol_ d'
       = take (length (MarketDataMessage.symbol_ d) mod 256) (MarketDataMessage.symbol_ d).
Proof.
  pose proof (market_data_serialize_length d) as Hsize.
  pose proof (mod_256_le (length (MarketDataMessage.symbol_ d))) as Hmod.
  assert (Hat : byte_at (MarketDataMessage.serialize d) 26
                = length_byte (MarketDataMessage.symbol_ d)).
  { rewrite market_data_serialize_shape. apply byte_at_middle.
    rewrite serialize_header_length. reflexivity. }
  destruct (market_data_deserialize_accepts self (MarketDataMessage.serialize d))
    as [Hdec _].
  - lia.
  - rewrite Hat, announced_length_byte. lia.
  - eexists. split; [exact Hdec|].
    unfold market_data_of_bytes. cbn [MarketDataMessage.symbol_].
    rewrite Hat, announced_length_byte.
    rewrite market_data_serialize_shape at 1.
    change (?pre ++ ?b :: ?rest) with (pre ++ [b] ++ rest).
    rewrite (app_assoc _ [_]).
    apply segment_middle; [|exact Hmod].
    rewrite !length_app, serialize_header_length. reflexivity.
Qed.

Lemma error_text_decoded self e :
  exists e',
    ErrorMessage.deserialize self (ErrorMessage.serialize e) = Returned true e'
    /\ ErrorMessage.error_message_ e'
       = take (length (ErrorMessage.error_message_ e) mod 256)
              (ErrorMessage.error_message_ e).
Proof.
  pose proof (error_serialize_length e) as Hsize.
  pose proof (mod_256_le (length (ErrorMessage.error_message_ e))) as Hmod.
  assert (Hat : byte_at (ErrorMessage.serialize e) 30
                = length_byte (ErrorMessage.error_message_ e)).
  { rewrite error_serialize_shape. apply byte_at_middle.
    rewrite length_app, serialize_header_length, push_le_length. reflexivity. }
  destruct (error_deserialize_accepts self (ErrorMessage.serialize e)) as [Hdec _].
  - lia.
  - eexists. split; [exact Hdec|].
    unfold error_of_bytes. cbn [ErrorMessage.error_message_].
    rewrite Hat, announced_length_byte, Hsize.
    destruct (Nat.leb_spec 31 (31 + length (ErrorMessage.error_message_ e))); [|lia].
    destruct (Nat.leb_spec
                (31 + length (ErrorMessage.error_message_ e) mod 256)
                (31 + length (ErrorMessage.error_message_ e))); [|lia].
    cbn [andb].
    rewrite error_serialize_shape at 1.
    change (?pre ++ ?b :: ?rest) with (pre ++ [b] ++ rest).
    rewrite (app_assoc _ [_]).
    apply segment_middle; [|exact Hmod].
    rewrite !length_app, serialize_header_length, push_le_length. reflexivity.
Qed.

(** X3: strings of 256 bytes and more do not survive the codec.
    [serialize] writes the length of the string converted to one byte and
    then the whole string; [deserialize] accepts such bytes and keeps as the
    string its first [length mod 256] bytes, for orders, market data and
    error texts alike.  A string of 256 bytes comes back empty. *)
Theorem long_strings_are_cut :
  (forall self o,
      (2 <= length (OrderMessage.symbol_ o))%nat ->
      exists o',
        OrderMessage.deserialize self (OrderMessage.serialize o) = Returned true o'
        /\ OrderMessage.symbol_ o'
           = take (length (OrderMessage.symbol_ o) mod 256) (OrderMessage.symbol_ o))
  /\ (forall self d,
        exists d',
          MarketDataMessage.deserialize self (MarketDataMessage.serialize d)
          = Returned true d'
          /\ MarketDataMessage.symbol_ d'
             = take (length (MarketDataMessage.symbol_ d) mod 256)
                    (MarketDataMessage.symbol_ d))
  /\ (forall self e,
        exists e',
          ErrorMessage.deserialize self (ErrorMessage.serialize e) = Returned true e'
          /\ ErrorMessage.error_message_ e'
             = take (length (ErrorMessage.error_message_ e) mod 256)
                    (ErrorMessage.error_message_ e)).
Proof.
  split; [exact order_symbol_decoded|].
  split; [exact market_data_symbol_decoded | exact error_text_decoded].
Qed.

(** An order with a symbol of 256 bytes is decoded with an empty symbol. *)
Lemma long_strings_are_cut_witness :
  exists o',
    OrderMessage.deserialize blank_order (OrderMessage.serialize order_256)
    = Returned true o'
    /\ OrderMessage.symbol_ o' = [].
Proof.
  refine (proj1 long_strings_are_cut blank_order order_256 _).
  cbn. lia.
Defined.

(** X4: sequence numbers.  As long as the 64-bit counter does not wrap, the
    objects built by successive constructor calls get consecutive sequence
    numbers, starting with the value of the counter: they increase
    strictly and no two objects share one.  The construction after number
    [2^64 - 1] gets 0. *)
Theorem sequence_numbers_until_wrap :
  forall (calls : list (MessageType.t * MessagePriority.t * Z)) (counter : Z),
    0 <= counter ->
    counter + Z.of_nat (length calls) <= UINT64_MOD ->
    (forall i : nat,
        (i < length calls)%nat ->
        sequence_numbers calls counter !! i = Some (counter + Z.of_nat i))
    /\ (forall i j a b,
          sequence_numbers calls counter !! i = Some a ->
          sequence_numbers calls counter !! j = Some b ->
          (i < j)%nat -> a < b)
    /\ NoDup (sequence_numbers calls counter)
    /\ (forall call call',
          sequence_numbers [call; call'] (UINT64_MOD - 1) = [UINT64_MOD - 1; 0]).
Proof.
  intros calls counter Hc Hwrap.
  pose proof (sequence_numbers_increasing calls counter Hc Hwrap) as Hinc.
  split.
  { intros i Hi. rewrite sequence_numbers_consecutive by assumption.
    rewrite list_lookup_fmap, lookup_seq_lt by exact Hi. reflexivity. }
  split; [exact Hinc|]. split.
  { apply NoDup_alt. intros i j x Hi Hj.
    destruct (Nat.lt_trichotomy i j) as [Hlt | [Heq | Hgt]]; [|exact Heq|].
    - pose proof (Hinc i j x x Hi Hj Hlt). lia.
    - pose proof (Hinc j i x x Hj Hi Hgt). lia. }
  intros [[type priority] now_us] [[type' priority'] now_us']. reflexivity.
Qed.

(** Three constructions from a counter at 7 get 7, 8 and 9. *)
Lemma sequence_numbers_until_wrap_witness :
  sequence_numbers three_constructions 7 !! 2%nat = Some (7 + Z.of_nat 2).
Proof.
  refine (proj1 (sequence_numbers_until_wrap three_constructions 7 _ _) 2%nat _).
  - lia.
  - vm_compute. congruence.
  - cbn. lia.
Defined.

(** *** Frames that are refused, and frames that are read past their end *)

Lemma order_refused_overwrites self data :
  (50 <= length data)%nat -> (length data < 35 + announced data 34)%nat ->
  OrderMessage.deserialize self data
  = Returned false
      (OrderMessage.mk
         (header_of_bytes data (Message.receive_time_ (OrderMessage.base self)))
         (field data 26 8) (OrderMessage.symbol_ self) (OrderMessage.price_ self)
         (OrderMessage.quantity_ self) (OrderMessage.is_buy_ self)).
Proof.
  intros H50 Hlen. unfold announced in Hlen.
  unfold OrderMessage.deserialize, OrderMessage.deserialize_body.
  destruct (Nat.ltb_spec (length data) 50); [lia|].
  erewrite bind_got by (apply header_value; lia).
  erewrite bind_got by (apply read_le_value; lia).
  change (26 + 8)%nat with 34%nat.
  erewrite bind_got by (apply next_byte_value; lia).
  change (S 34) with 35%nat.
  rewrite bind_cursor, bind_size.
  destruct (Nat.ltb_spec (length data) (35 + Z.to_nat (byte_to_Z (byte_at data 34))));
    [reflexivity | lia].
Qed.

Lemma market_data_refused_overwrites self data :
  (50 <= length data)%nat -> (length data < 27 + announced data 26)%nat ->
  MarketDataMessage.deserialize self data
  = Returned false
      (MarketDataMessage.mk
         (header_of_bytes data (Message.receive_time_ (MarketDataMessage.base self)))
         (MarketDataMessage.symbol_ self) (MarketDataMessage.bid_ self)
         (MarketDataMessage.ask_ self) (MarketDataMessage.bid_size_ self)
         (MarketDataMessage.ask_size_ self)).
Proof.
  intros H50 Hlen. unfold announced in Hlen.
  unfold MarketDataMessage.deserialize, MarketDataMessage.deserialize_body.
  destruct (Nat.ltb_spec (length data) 50); [lia|].
  erewrite bind_got by (apply header_value; lia).
  erewrite bind_got by (apply next_byte_value; lia).
  change (S 26) with 27%nat.
  rewrite bind_cursor, bind_size.
  destruct (Nat.ltb_spec (length data) (27 + Z.to_nat (byte_to_Z (byte_at data 26))));
    [reflexivity | lia].
Qed.

(** X5: a refused frame is not without effect.  When an order frame or a
    market data frame of 50 bytes or more is refused because the symbol
    length byte announces more bytes than follow it, [deserialize] returns
    false after it has assigned the five header fields (and the order id)
    from the frame: the object keeps only its own symbol, prices, sizes and
    receive time.  Only a frame of less than 50 bytes leaves the object as
    it was. *)
Theorem refused_frame_overwrites_header :
  forall data : list byte,
    (forall self,
        (50 <= length data)%nat -> (length data < 35 + announced data 34)%nat ->
        OrderMessage.deserialize self data
        = Returned false
            (OrderMessage.mk
               (header_of_bytes data (Message.receive_time_ (OrderMessage.base self)))
               (field data 26 8) (OrderMessage.symbol_ self) (OrderMessage.price_ self)
               (OrderMessage.quantity_ self) (OrderMessage.is_buy_ self)))
    /\ (forall self,
          (50 <= length data)%nat -> (length data < 27 + announced data 26)%nat ->
          MarketDataMessage.deserialize self data
          = Returned false
              (MarketDataMessage.mk
                 (header_of_bytes data
                    (Message.receive_time_ (MarketDataMessage.base self)))
                 (MarketDataMessage.symbol_ self) (MarketDataMessage.bid_ self)
                 (MarketDataMessage.ask_ self) (MarketDataMessage.bid_size_ self)
                 (MarketDataMessage.ask_size_ self)))
    /\ (forall self,
          (length data < 50)%nat ->
          OrderMessage.deserialize self data = Returned false self)
    /\ (forall self,
          (length data < 50)%nat ->
          MarketDataMessage.deserialize self data = Returned false self).
Proof.
  intros data. split; [|split; [|split]].
  - intros self. apply order_refused_overwrites.
  - intros self. apply market_data_refused_overwrites.
  - intros self Hlen. apply (proj1 (order_deserialize_cases self data) Hlen).
  - intros self Hlen. apply (proj1 (market_data_deserialize_cases self data) Hlen).
Qed.

(** The frame of 60 bytes that announces a symbol of 200 bytes: the object
    built by the factory with sequence number 7 has sequence number 0 and
    type OrderNew after the refusal. *)
Lemma refused_frame_overwrites_header_witness :
  OrderMessage.deserialize blank_order order_frame_60
  = Returned false
      (OrderMessage.mk (Message.mk Byte.x01 Byte.x00 0 0 0 0) 0 [] double_zero 0 true).
Proof.
  refine (proj1 (refused_frame_overwrites_header order_frame_60) blank_order _ _).
  - vm_compute. lia.
  - vm_compute. lia.
Defined.

Lemma lookup_byte_at (data : list byte) pos :
  (pos < length data)%nat -> data !! pos = Some (byte_at data pos).
Proof.
  intros H. destruct (lookup_lt_is_Some_2 data pos H) as [b Hb].
  unfold byte_at. rewrite Hb. reflexivity.
Qed.

(** X6: which frames make the decoders read past the end.  On a frame of
    50 bytes or more whose symbol fits, [OrderMessage::deserialize] reads
    the 8 bytes of the price and the 4 of the quantity with unchecked
    subscripts: it reads [data[size]], one past the end, exactly when the
    frame has fewer than [47 + symbol_len] bytes.  The same holds for
    [MarketDataMessage::deserialize] and its 24 bytes after the symbol,
    below [51 + symbol_len] bytes, which includes every frame of exactly 50
    bytes whose symbol fits.  The heartbeat and error decoders never read
    past the end. *)
Theorem reads_past_the_end_exactly :
  forall data : list byte,
    (forall self i,
        OrderMessage.deserialize self data = ReadPastEnd i
        <-> (50 <= length data)%nat
            /\ (35 + announced data 34 <= length data < 47 + announced data 34)%nat
            /\ i = length data)
    /\ (forall self i,
          MarketDataMessage.deserialize self data = ReadPastEnd i
          <-> (50 <= length data)%nat
              /\ (27 + announced data 26 <= length data < 51 + announced data 26)%nat
              /\ i = length data)
    /\ (forall self i, HeartbeatMessage.deserialize self data <> ReadPastEnd i)
    /\ (forall self i, ErrorMessage.deserialize self data <> ReadPastEnd i).
Proof.
  intros data. split; [|split; [|split]].
  - intros self i. unfold announced.
    destruct (order_deserialize_cases self data) as [Hshort Hlong].
    destruct (Nat.lt_ge_cases (length data) 50) as [H50 | H50].
    { rewrite (Hshort H50). split; [discriminate | lia]. }
    destruct (Hlong (byte_at data 34) H50 (lookup_byte_at data 34 ltac:(lia)))
      as (Hrefused & Hpast & Hok).
    set (len := Z.to_nat (byte_to_Z (byte_at data 34))) in *.
    destruct (Nat.lt_ge_cases (length data) (35 + len)) as [H35 | H35].
    { destruct (Hrefused H35) as [self' ->]. split; [discriminate | lia]. }
    destruct (Nat.lt_ge_cases (length data) (47 + len)) as [H47 | H47].
    { rewrite (Hpast (conj H35 H47)). split.
      - intros [= <-]. lia.
      - intros (_ & _ & ->). reflexivity. }
    destruct (Hok H47) as [self' ->]. split; [discriminate | lia].
  - intros self i. unfold announced.
    destruct (market_data_deserialize_cases self data) as [Hshort Hlong].
    destruct (Nat.lt_ge_cases (length data) 50) as [H50 | H50].
    { rewrite (Hshort H50). split; [discriminate | lia]. }
    destruct (Hlong (byte_at data 26) H50 (lookup_byte_at data 26 ltac:(lia)))
      as (Hrefused & Hpast & Hok).
    set (len := Z.to_nat (byte_to_Z (byte_at data 26))) in *.
    destruct (Nat.lt_ge_cases (length data) (27 + len)) as [H27 | H27].
    { destruct (Hrefused H27) as [self' ->]. split; [discriminate | lia]. }
    destruct (Nat.lt_ge_cases (length data) (51 + len)) as [H51 | H51].
    { rewrite (Hpast (conj H27 H51)). split.
      - intros [= <-]. lia.
      - intros (_ & _ & ->). reflexivity. }
    destruct (Hok H51) as [self' ->]. split; [discriminate | lia].
  - intros self i. destruct (heartbeat_deserialize_in_range self data) as (ok & self' & ->).
    discriminate.
  - intros self i. destruct (error_deserialize_cases self data) as [Hshort Hlong].
    destruct (Nat.lt_ge_cases (length data) 30) as [H30 | H30].
    { rewrite (Hshort H30). discriminate. }
    destruct (error_deserialize_accepts self data H30) as [-> _]. discriminate.
Qed.

(** A market data frame of 50 bytes with an empty symbol: the decoder reads
    [data[50]]. *)
Lemma reads_past_the_end_exactly_witness :
  MarketDataMessage.deserialize blank_quote quote_frame_50 = ReadPastEnd 50.
Proof.
  refine (proj2 (proj1 (proj2 (reads_past_the_end_exactly quote_frame_50)) blank_quote _) _).
  vm_compute. repeat split; lia.
Defined.

(** X7: what the factory builds from bytes.  [createMessage] looks at the
    first byte only: whatever follows it is ignored.  It returns null, and
    takes no sequence number, exactly when the vector is empty or the first
    byte is none of 1, 2, 3, 4, 5, 6 and 9 (so for Login, 7, and Logout, 8).
    Otherwise it takes one sequence number and the object is the
    default-constructed one of its class: priority Normal, client id 0, and
    for each of the four order types the type OrderNew. *)
Theorem factory_looks_at_the_first_byte :
  forall (type : byte) (rest : list byte) (now_us counter : Z),
    MessageFactory.createMessage (type :: rest) now_us counter
    = MessageFactory.createMessage [type] now_us counter
    /\ (fst (MessageFactory.createMessage (type :: rest) now_us counter) = None
        <-> ~ (1 <= byte_to_Z type <= 6 \/ byte_to_Z type = 9))
    /\ (fst (MessageFactory.createMessage (type :: rest) now_us counter) = None ->
        snd (MessageFactory.createMessage (type :: rest) now_us counter) = counter)
    /\ (forall m,
          fst (MessageFactory.createMessage (type :: rest) now_us counter) = Some m ->
          snd (MessageFactory.createMessage (type :: rest) now_us counter)
          = (counter + 1) mod UINT64_MOD
          /\ base_of m
             = Message.mk (if byte_to_Z type <=? 4 then MessageType.ORDER_NEW else type)
                 MessagePriority.NORMAL counter (now_us mod UINT64_MOD) 0 0
          /\ match m with
             | IsOrder o =>
                 1 <= byte_to_Z type <= 4
                 /\ OrderMessage.order_id_ o = 0 /\ OrderMessage.symbol_ o = []
                 /\ OrderMessage.price_ o = double_zero /\ OrderMessage.quantity_ o = 0
                 /\ OrderMessage.is_buy_ o = true
             | IsMarketData d =>
                 byte_to_Z type = 5
                 /\ MarketDataMessage.symbol_ d = []
                 /\ MarketDataMessage.bid_ d = double_zero
                 /\ MarketDataMessage.ask_ d = double_zero
                 /\ MarketDataMessage.bid_size_ d = 0 /\ MarketDataMessage.ask_size_ d = 0
             | IsHeartbeat _ => byte_to_Z type = 6
             | IsError e =>
                 byte_to_Z type = 9
                 /\ ErrorMessage.error_code_ e = 0 /\ ErrorMessage.error_message_ e = []
             end)
    /\ MessageFactory.createMessage [] now_us counter = (None, counter).
Proof.
  intros type rest now_us counter.
  split; [reflexivity|].
  cbn [MessageFactory.createMessage].
  split; [|split; [|split; [|reflexivity]]].
  - destruct type; cbn; (split; [intros H; try discriminate H; lia | intros H; try reflexivity; exfalso; apply H; lia]).
  - destruct type; cbn; intros H; try discriminate H; reflexivity.
  - intros m. destruct type; cbn; intros H; try discriminate H;
      injection H as <-; repeat split; lia.
Qed.

(** A Login frame: no object and no sequence number taken. *)
Lemma factory_looks_at_the_first_byte_witness :
  snd (MessageFactory.createMessage (Byte.x07 :: AAPL) 1700000000000000 7) = 7.
Proof.
  refine (proj1 (proj2 (proj2
            (factory_looks_at_the_first_byte Byte.x07 AAPL 1700000000000000 7))) _).
  reflexivity.
Defined.

Lemma order_body_on_serialize self m :
  OrderMessage.wf m -> (length (OrderMessage.symbol_ m) <= 255)%nat ->
  exists pos,
    OrderMessage.deserialize_body self (OrderMessage.serialize m) 0%nat
    = Got (inr (order_decoded self m)) pos.
Proof.
  intros Hwf Hsym.
  pose proof (order_body_reads self m Hwf Hsym) as Hbody. unfold reads in Hbody.
  change (length (@nil byte)) with 0%nat in Hbody.
  match type of Hbody with
  | _ ?data _ = _ => replace (OrderMessage.serialize m) with data
  end.
  - eexists. exact Hbody.
  - unfold OrderMessage.serialize, flag_byte, length_byte. rewrite <- !app_assoc.
    reflexivity.
Qed.

(** X8: [serialize] is injective.  Two messages of the same class, with
    fields within the ranges of their types and strings of at most 255
    bytes, that encode to the same bytes are equal in every field but the
    receive time, which is not part of the encoding; this includes the
    orders with a short symbol, which the decoder refuses. *)
Theorem serialize_is_injective :
  forall m1 m2 : AnyMessage,
    in_range m1 -> string_fits m1 -> in_range m2 -> string_fits m2 ->
    same_class m1 m2 ->
    serialize m1 = serialize m2 ->
    set_receive_time 0 m1 = set_receive_time 0 m2.
Proof.
  intros m1 m2 Hr1 Hf1 Hr2 Hf2 Hclass Heq.
  destruct m1 as [o1|d1|h1|e1], m2 as [o2|d2|h2|e2]; try contradiction;
    cbn [in_range string_fits serialize] in *.
  - destruct (order_body_on_serialize o1 o1 Hr1 Hf1) as [p1 H1].
    destruct (order_body_on_serialize o1 o2 Hr2 Hf2) as [p2 H2].
    rewrite Heq, H2 in H1.
    destruct o1 as [[]], o2 as [[]].
    unfold order_decoded, Message.setReceiveTime in H1. cbn in H1 |- *.
    inversion H1. reflexivity.
  - pose proof (market_data_roundtrip d1 d1 Hr1 Hf1) as H1.
    pose proof (market_data_roundtrip d1 d2 Hr2 Hf2) as H2.
    rewrite Heq, H2 in H1.
    destruct d1 as [[]], d2 as [[]].
    unfold market_data_decoded, Message.setReceiveTime in H1. cbn in H1 |- *.
    inversion H1. reflexivity.
  - pose proof (heartbeat_roundtrip h1 h1 Hr1) as H1.
    pose proof (heartbeat_roundtrip h1 h2 Hr2) as H2.
    rewrite Heq, H2 in H1.
    destruct h1 as [[]], h2 as [[]].
    unfold heartbeat_decoded, Message.setReceiveTime in H1. cbn in H1 |- *.
    inversion H1. reflexivity.
  - pose proof (error_roundtrip e1 e1 Hr1 Hf1) as H1.
    pose proof (error_roundtrip e1 e2 Hr2 Hf2) as H2.
    rewrite Heq, H2 in H1.
    destruct e1 as [[]], e2 as [[]].
    unfold error_decoded, Message.setReceiveTime in H1. cbn in H1 |- *.
    inversion H1. reflexivity.
Qed.

(** The order "F" of the sample data with two receive times. *)
Lemma serialize_is_injective_witness :
  set_receive_time 0 (IsOrder order_F)
  = set_receive_time 0 (set_receive_time 5 (IsOrder order_F)).
Proof.
  refine (serialize_is_injective (IsOrder order_F) (set_receive_time 5 (IsOrder order_F))
            _ _ _ _ _ _).
  - exact (proj1 order_F_valid).
  - cbn. lia.
  - exact (proj1 order_F_valid).
  - cbn. lia.
  - exact I.
  - reflexivity.
Defined.

Lemma verdict_cases m :
  verdict m
  = if Message.sequence_number_ (base_of m) =? 0
    then (false, "Invalid sequence number", "")
    else if Message.timestamp_ (base_of m) =? 0
         then (false, "Invalid timestamp", "")
         else match ValidationInterceptor.check_kind m with
              | Some why => (false, why, "")
              | None => (true, "", "passed")
              end.
Proof.
  unfold verdict, ValidationInterceptor.intercept, ValidationInterceptor.reject,
    InterceptorContext.new, InterceptorContext.getMessage, InterceptorContext.setMetadata,
    InterceptorContext.getMetadata.
  cbn [InterceptorContext.message_ InterceptorContext.metadata_].
  destruct (Message.sequence_number_ (base_of m) =? 0); [reflexivity|].
  destruct (Message.timestamp_ (base_of m) =? 0); [reflexivity|].
  destruct (ValidationInterceptor.check_kind m) as [why|]; [|reflexivity].
  cbn [fst snd InterceptorContext.metadata_].
  rewrite lookup_insert_eq, lookup_insert_ne, lookup_empty by discriminate. reflexivity.
Qed.

Lemma verdict_ignores_receive_time time m :
  verdict (set_receive_time time m) = verdict m.
Proof.
  rewrite !verdict_cases.
  destruct m as [[[]]|[[]]|[[]]|[[]]]; reflexivity.
Qed.

(** X9: validation does not depend on the wire.  The validator reads the
    sequence number, the timestamp, the type and the fields of the kind,
    never the receive time.  So for a message as in X1, the object that
    [deserialize] fills from the bytes of the message gets from the
    validator the verdict that the message itself gets: the same result
    and the same texts under "error" and "validation". *)
Theorem validation_survives_the_codec :
  forall self m : AnyMessage,
    in_range m -> string_fits m -> same_class self m -> ~ short_symbol m ->
    exists m',
      deserialize self (serialize m) = Returned true m'
      /\ verdict m' = verdict m.
Proof.
  intros self m Hrange Hfits Hclass Hlong.
  exists (decoded self m). split; [apply decode_own_bytes; assumption|].
  destruct (decoded_but_receive_time self m Hclass) as (_ & _ & ->).
  apply verdict_ignores_receive_time.
Qed.

(** The order of main.cpp: rejected for its sequence number 0 before and
    after the wire. *)
Lemma validation_survives_the_codec_witness :
  exists m',
    deserialize (IsOrder blank_order) (serialize (IsOrder first_order)) = Returned true m'
    /\ verdict m' = verdict (IsOrder first_order).
Proof.
  refine (validation_survives_the_codec (IsOrder blank_order) (IsOrder first_order)
            _ _ _ _).
  - exact first_order_in_range.
  - cbn. lia.
  - exact I.
  - cbn. lia.
Defined.

(** *** Bytes after the message *)

Lemma byte_at_app_l (f t : list byte) pos :
  (pos < length f)%nat -> byte_at (f ++ t) pos = byte_at f pos.
Proof. intros H. unfold byte_at. rewrite lookup_app_l by exact H. reflexivity. Qed.

Lemma segment_app_l (f t : list byte) pos n :
  (pos + n <= length f)%nat -> segment (f ++ t) pos n = segment f pos n.
Proof.
  intros H. unfold segment. rewrite drop_app_le by lia.
  apply take_app_le. rewrite length_drop. lia.
Qed.

Lemma field_app_l (f t : list byte) pos n :
  (pos + n <= length f)%nat -> field (f ++ t) pos n = field f pos n.
Proof. intros H. unfold field. rewrite segment_app_l by exact H. reflexivity. Qed.

Lemma header_of_bytes_app_l (f t : list byte) receive_time :
  (26 <= length f)%nat ->
  header_of_bytes (f ++ t) receive_time = header_of_bytes f receive_time.
Proof.
  intros H. unfold header_of_bytes.
  rewrite !byte_at_app_l, !field_app_l by lia. reflexivity.
Qed.

(** X26: bytes after the message are ignored.  When a frame holds every
    field of its kind (26 bytes for a heartbeat; 48 bytes plus the announced
    symbol for an order, and at least 50; 51 plus the symbol for market
    data; 31 plus the announced text for an error), [deserialize] gives on
    the frame followed by any further bytes exactly what it gives on the
    frame alone: it reads one message from the front and reports neither
    the bytes left over nor where the message ended. *)
Theorem trailing_bytes_are_ignored :
  forall frame trailing : list byte,
    (forall self,
        (26 <= length frame)%nat ->
        HeartbeatMessage.deserialize self (frame ++ trailing)
        = HeartbeatMessage.deserialize self frame)
    /\ (forall self,
          (50 <= length frame)%nat -> (48 + announced frame 34 <= length frame)%nat ->
          OrderMessage.deserialize self (frame ++ trailing)
          = OrderMessage.deserialize self frame)
    /\ (forall self,
          (51 + announced frame 26 <= length frame)%nat ->
          MarketDataMessage.deserialize self (frame ++ trailing)
          = MarketDataMessage.deserialize self frame)
    /\ (forall self,
          (31 + announced frame 30 <= length frame)%nat ->
          ErrorMessage.deserialize self (frame ++ trailing)
          = ErrorMessage.deserialize self frame).
Proof.
  intros f t. unfold announced.
  assert (Hlen : length (f ++ t) = (length f + length t)%nat) by apply length_app.
  split; [|split; [|split]].
  - intros self H26.
    rewrite (proj1 (heartbeat_deserialize_accepts self (f ++ t) ltac:(lia))).
    rewrite (proj1 (heartbeat_deserialize_accepts self f H26)).
    unfold heartbeat_of_bytes. rewrite header_of_bytes_app_l by exact H26. reflexivity.
  - intros self H50 H48.
    assert (Hat : byte_at (f ++ t) 34 = byte_at f 34) by (apply byte_at_app_l; lia).
    rewrite (proj1 (order_deserialize_accepts self (f ++ t) ltac:(lia)
                      ltac:(rewrite Hat; lia))).
    rewrite (proj1 (order_deserialize_accepts self f H50 ltac:(lia))).
    unfold order_of_bytes. rewrite Hat.
    set (len := Z.to_nat (byte_to_Z (byte_at f 34))) in *.
    rewrite header_of_bytes_app_l, !field_app_l, segment_app_l by lia.
    rewrite lookup_app_l by lia. reflexivity.
  - intros self H51.
    assert (Hat : byte_at (f ++ t) 26 = byte_at f 26) by (apply byte_at_app_l; lia).
    rewrite (proj1 (market_data_deserialize_accepts self (f ++ t) ltac:(lia)
                      ltac:(rewrite Hat; lia))).
    rewrite (proj1 (market_data_deserialize_accepts self f ltac:(lia) H51)).
    unfold market_data_of_bytes. rewrite Hat.
    set (len := Z.to_nat (byte_to_Z (byte_at f 26))) in *.
    rewrite header_of_bytes_app_l, !field_app_l, segment_app_l by lia. reflexivity.
  - intros self H31.
    assert (Hat : byte_at (f ++ t) 30 = byte_at f 30) by (apply byte_at_app_l; lia).
    rewrite (proj1 (error_deserialize_accepts self (f ++ t) ltac:(lia))).
    rewrite (proj1 (error_deserialize_accepts self f ltac:(lia))).
    unfold error_of_bytes. rewrite Hat, Hlen.
    set (len := Z.to_nat (byte_to_Z (byte_at f 30))) in *.
    rewrite header_of_bytes_app_l, field_app_l, segment_app_l by lia.
    destruct (Nat.leb_spec 31 (length f + length t)); [|lia].
    destruct (Nat.leb_spec (31 + len) (length f + length t)); [|lia].
    destruct (Nat.leb_spec 31 (length f)); [|lia].
    destruct (Nat.leb_spec (31 + len) (length f)); [|lia].
    reflexivity.
Qed.

(** The bytes of the order of main.cpp followed by four more bytes. *)
Lemma trailing_bytes_are_ignored_witness :
  OrderMessage.deserialize blank_order (OrderMessage.serialize first_order ++ AAPL)
  = OrderMessage.deserialize blank_order (OrderMessage.serialize first_order).
Proof.
  refine (proj1 (proj2 (trailing_bytes_are_ignored (OrderMessage.serialize first_order)
                          AAPL)) blank_order _ _).
  - vm_compute. lia.
  - vm_compute. lia.
Defined.

(** ** socket_server.cpp: [MessageHandler::handleMessage] *)

Lemma handled_frame type rest now_us receive_now counter :
  MessageHandler.handleMessage (Some (type :: rest)) now_us receive_now counter
  = match MessageFactory.createMessage_type type now_us counter with
    | (None, counter') => (None, counter')
    | (Some message, counter') => (Some (set_receive_time receive_now message), counter')
    end.
Proof. reflexivity. Qed.

Lemma order_without_id_rejected base symbol price quantity is_buy start :
  Message.type_ base = MessageType.ORDER_NEW ->
  exists why,
    ValidationInterceptor.intercept
      (InterceptorContext.new
         (Some (IsOrder (OrderMessage.mk base 0 symbol price quantity is_buy))) start)
    = (false,
       InterceptorContext.setMetadata "error" why
         (InterceptorContext.new
            (Some (IsOrder (OrderMessage.mk base 0 symbol price quantity is_buy))) start)).
Proof.
  intros Htype. unfold ValidationInterceptor.intercept.
  cbn [InterceptorContext.getMessage InterceptorContext.new InterceptorContext.message_
         base_of OrderMessage.base].
  destruct (Message.sequence_number_ base =? 0); [eexists; reflexivity|].
  destruct (Message.timestamp_ base =? 0); [eexists; reflexivity|].
  unfold ValidationInterceptor.check_kind. cbn [base_of OrderMessage.base].
  rewrite Htype. eexists. reflexivity.
Qed.

Lemma quote_without_symbol_rejected base bid ask bid_size ask_size start :
  Message.type_ base = MessageType.MARKET_DATA ->
  exists why,
    ValidationInterceptor.intercept
      (InterceptorContext.new
         (Some (IsMarketData (MarketDataMessage.mk base [] bid ask bid_size ask_size)))
         start)
    = (false,
       InterceptorContext.setMetadata "error" why
         (InterceptorContext.new
            (Some (IsMarketData (MarketDataMessage.mk base [] bid ask bid_size ask_size)))
            start)).
Proof.
  intros Htype. unfold ValidationInterceptor.intercept.
  cbn [InterceptorContext.getMessage InterceptorContext.new InterceptorContext.message_
         base_of MarketDataMessage.base].
  destruct (Message.sequence_number_ base =? 0); [eexists; reflexivity|].
  destruct (Message.timestamp_ base =? 0); [eexists; reflexivity|].
  unfold ValidationInterceptor.check_kind. cbn [base_of MarketDataMessage.base].
  rewrite Htype. eexists. reflexivity.
Qed.

(** X10: the receiving path carries no payload.  [handleMessage] builds the
    message with the factory and never calls [deserialize]: the message it
    hands to the callback is the one built from the first byte of the frame
    alone.  So for every frame that starts with an order type 1 to 4 or
    with the market data type 5, whatever the rest of the frame holds, the
    message has order id 0 or an empty symbol, and the validation
    interceptor rejects it; a frame that starts with 6 or 9 gives a message
    that the validator lets through unless the sequence counter or the
    clock was 0.  A null pointer, a length of 0 and an unknown first byte
    hand nothing to the callback. *)
Theorem handled_frames_carry_no_payload :
  forall (type : byte) (rest : list byte) (now_us receive_now counter start : Z),
    MessageHandler.handleMessage (Some (type :: rest)) now_us receive_now counter
    = MessageHandler.handleMessage (Some [type]) now_us receive_now counter
    /\ (1 <= byte_to_Z type <= 5 ->
        exists m why,
          MessageHandler.handleMessage (Some (type :: rest)) now_us receive_now counter
          = (Some m, (counter + 1) mod UINT64_MOD)
          /\ receive_time m = receive_now
          /\ ValidationInterceptor.intercept (InterceptorContext.new (Some m) start)
             = (false,
                InterceptorContext.setMetadata "error" why
                  (InterceptorContext.new (Some m) start)))
    /\ (byte_to_Z type = 6 \/ byte_to_Z type = 9 ->
        counter <> 0 -> now_us mod UINT64_MOD <> 0 ->
        exists m,
          MessageHandler.handleMessage (Some (type :: rest)) now_us receive_now counter
          = (Some m, (counter + 1) mod UINT64_MOD)
          /\ ValidationInterceptor.intercept (InterceptorContext.new (Some m) start)
             = (true,
                InterceptorContext.setMetadata "validation" "passed"
                  (InterceptorContext.new (Some m) start)))
    /\ MessageHandler.handleMessage None now_us receive_now counter = (None, counter)
    /\ MessageHandler.handleMessage (Some []) now_us receive_now counter = (None, counter)
    /\ (~ (1 <= byte_to_Z type <= 6 \/ byte_to_Z type = 9) ->
        MessageHandler.handleMessage (Some (type :: rest)) now_us receive_now counter
        = (None, counter)).
Proof.
  intros type rest now_us receive_now counter start.
  split; [reflexivity|]. rewrite !handled_frame.
  split; [|split; [|split; [reflexivity|split; [reflexivity|]]]].
  - intros Htype.
    assert (Hcases : type = Byte.x01 \/ type = Byte.x02 \/ type = Byte.x03
                     \/ type = Byte.x04 \/ type = Byte.x05).
    { destruct type; cbn in Htype; try lia; tauto. }
    destruct Hcases as [-> | [-> | [-> | [-> | ->]]]];
      cbn [MessageFactory.createMessage_type OrderMessage.default
             MarketDataMessage.default Message.new Message.fetch_add_1
             set_receive_time OrderMessage.base MarketDataMessage.base
             OrderMessage.order_id_ OrderMessage.symbol_ OrderMessage.price_
             OrderMessage.quantity_ OrderMessage.is_buy_ MarketDataMessage.symbol_
             MarketDataMessage.bid_ MarketDataMessage.ask_ MarketDataMessage.bid_size_
             MarketDataMessage.ask_size_];
      eexists;
      [ edestruct (order_without_id_rejected
                     (Message.setReceiveTime receive_now
                        (Message.mk MessageType.ORDER_NEW MessagePriority.NORMAL
                           counter (now_us mod UINT64_MOD) 0 0))
                     [] double_zero 0 true start eq_refl) as [why Hwhy] ..
      | edestruct (quote_without_symbol_rejected
                     (Message.setReceiveTime receive_now
                        (Message.mk MessageType.MARKET_DATA MessagePriority.NORMAL
                           counter (now_us mod UINT64_MOD) 0 0))
                     double_zero double_zero 0 0 start eq_refl) as [why Hwhy] ];
      exists why; (split; [reflexivity|split; [reflexivity|exact Hwhy]]).
  - intros Htype Hc Hts.
    assert (Hcases : type = Byte.x06 \/ type = Byte.x09).
    { destruct type; cbn in Htype; try lia; tauto. }
    destruct Hcases as [-> | ->];
      cbn [MessageFactory.createMessage_type HeartbeatMessage.default
             ErrorMessage.default Message.new Message.fetch_add_1];
      eexists; (split; [reflexivity|]);
      unfold ValidationInterceptor.intercept;
      cbn [InterceptorContext.getMessage InterceptorContext.new
             InterceptorContext.message_ base_of set_receive_time
             HeartbeatMessage.base ErrorMessage.base Message.setReceiveTime
             Message.sequence_number_ Message.timestamp_ Message.type_
             Message.priority_ Message.client_id_];
      (destruct (Z.eqb_spec counter 0); [contradiction|]);
      (destruct (Z.eqb_spec (now_us mod UINT64_MOD) 0); [contradiction|]);
      reflexivity.
  - intros Htype. destruct type; cbn in Htype |- *; try reflexivity; exfalso; apply Htype; lia.
Qed.

(** The bytes of the order of main.cpp, received as a frame: the message
    handed to the callback is rejected by the validator. *)
Lemma handled_frames_carry_no_payload_witness :
  exists m why,
    MessageHandler.handleMessage (Some (OrderMessage.serialize first_order))
      1700000000000000 1700000000000001 7
    = (Some m, (7 + 1) mod UINT64_MOD)
    /\ receive_time m = 1700000000000001
    /\ ValidationInterceptor.intercept (InterceptorContext.new (Some m) 0)
       = (false,
          InterceptorContext.setMetadata "error" why (InterceptorContext.new (Some m) 0)).
Proof.
  refine (proj1 (proj2 (handled_frames_carry_no_payload Byte.x01
                          (tail (OrderMessage.serialize first_order)) 1700000000000000
                          1700000000000001 7 0)) _).
  vm_compute. split; congruence.
Defined.

(** ** interceptor.cpp *)

(** X11: the metadata of a context.  [getMetadata] gives back what
    [setMetadata] stored under the key, and the empty string for a key that
    was never set (so a stored empty string cannot be told from a missing
    key); setting a key changes no other key and not the message; a second
    value for a key replaces the first; keys are independent of the order in
    which they are set. *)
Theorem metadata_set_then_get :
  forall (context : InterceptorContext.t) (key other value value' : string),
    InterceptorContext.getMetadata key (InterceptorContext.setMetadata key value context)
    = value
    /\ (other <> key ->
        InterceptorContext.getMetadata other
          (InterceptorContext.setMetadata key value context)
        = InterceptorContext.getMetadata other context)
    /\ (forall msg now,
          InterceptorContext.getMetadata key (InterceptorContext.new msg now) = "")
    /\ InterceptorContext.getMessage (InterceptorContext.setMetadata key value context)
       = InterceptorContext.getMessage context
    /\ InterceptorContext.setMetadata key value'
         (InterceptorContext.setMetadata key value context)
       = InterceptorContext.setMetadata key value' context
    /\ (other <> key ->
        InterceptorContext.setMetadata key value
          (InterceptorContext.setMetadata other value' context)
        = InterceptorContext.setMetadata other value'
            (InterceptorContext.setMetadata key value context)).
Proof.
  intros context key other value value'.
  unfold InterceptorContext.getMetadata, InterceptorContext.setMetadata,
    InterceptorContext.getMessage, InterceptorContext.new.
  cbn [InterceptorContext.metadata_ InterceptorContext.message_
         InterceptorContext.start_time_ InterceptorContext.end_time_].
  split; [rewrite lookup_insert_eq; reflexivity|].
  split; [intros Hne; rewrite lookup_insert_ne by congruence; reflexivity|].
  split; [intros msg now; rewrite lookup_empty; reflexivity|].
  split; [reflexivity|].
  split; [rewrite insert_insert_eq; reflexivity|].
  intros Hne. rewrite insert_insert_ne by congruence. reflexivity.
Qed.

(** Setting "log" leaves the "validation" mark. *)
Lemma metadata_set_then_get_witness :
  InterceptorContext.getMetadata "validation"
    (InterceptorContext.setMetadata "log" "seen" marked_context)
  = InterceptorContext.getMetadata "validation" marked_context.
Proof.
  refine (proj1 (proj2 (metadata_set_then_get marked_context "log" "validation" "seen" ""))
            _).
  discriminate.
Defined.

(** X12: the logging interceptor.  On a context without message it returns
    stop and leaves the context as it is (it sets no error, unlike the
    validator).  On a context with a message it returns continue, stores
    under "log" the line built from the type, the sequence number, the
    client id and the priority in decimal, and changes nothing else: every
    other key and the message stay; logging a second time changes nothing
    more. *)
Theorem logging_sets_only_the_log :
  forall context : InterceptorContext.t,
    (InterceptorContext.getMessage context = None ->
     LoggingInterceptor.intercept context = (false, context))
    /\ (forall message,
          InterceptorContext.getMessage context = Some message ->
          fst (LoggingInterceptor.intercept context) = true
          /\ InterceptorContext.getMetadata "log"
               (snd (LoggingInterceptor.intercept context))
             = LoggingInterceptor.summary message
          /\ (forall key, key <> "log" ->
                InterceptorContext.getMetadata key
                  (snd (LoggingInterceptor.intercept context))
                = InterceptorContext.getMetadata key context)
          /\ InterceptorContext.getMessage (snd (LoggingInterceptor.intercept context))
             = Some message
          /\ LoggingInterceptor.intercept (snd (LoggingInterceptor.intercept context))
             = LoggingInterceptor.intercept context)
    /\ LoggingInterceptor.summary (IsOrder first_order)
       = "Processing message: Type=1, Seq=0, Client=0, Priority=2".
Proof.
  intros context. unfold LoggingInterceptor.intercept.
  split; [intros ->; reflexivity|]. split; [|vm_compute; reflexivity].
  intros message Hm. rewrite Hm. cbn [fst snd].
  unfold InterceptorContext.getMetadata, InterceptorContext.setMetadata,
    InterceptorContext.getMessage in *.
  cbn [InterceptorContext.metadata_ InterceptorContext.message_
         InterceptorContext.start_time_ InterceptorContext.end_time_].
  rewrite Hm.
  split; [reflexivity|].
  split; [rewrite lookup_insert_eq; reflexivity|].
  split; [intros key Hne; rewrite lookup_insert_ne by congruence; reflexivity|].
  split; [reflexivity|].
  rewrite insert_insert_eq. reflexivity.
Qed.

(** The order of main.cpp after the validator: logged, the mark kept. *)
Lemma logging_sets_only_the_log_witness :
  fst (LoggingInterceptor.intercept marked_context) = true
  /\ InterceptorContext.getMetadata "log"
       (snd (LoggingInterceptor.intercept marked_context))
     = LoggingInterceptor.summary (IsOrder first_order).
Proof.
  destruct (proj1 (proj2 (logging_sets_only_the_log marked_context))
              (IsOrder first_order) eq_refl) as (Hok & Hlog & _).
  exact (conj Hok Hlog).
Defined.

(** *** The throttler over any sequence of calls *)

Lemma intercept_keeps_invariant now context self :
  0 <= ThrottlingInterceptor.message_count_ self
    <= ThrottlingInterceptor.max_messages_per_second_ self ->
  ThrottlingInterceptor.max_messages_per_second_ self < ThrottlingInterceptor.SIZE_MOD ->
  ThrottlingInterceptor.max_messages_per_second_
    (snd (ThrottlingInterceptor.intercept now context self))
  = ThrottlingInterceptor.max_messages_per_second_ self
  /\ 0 <= ThrottlingInterceptor.message_count_
            (snd (ThrottlingInterceptor.intercept now context self))
       <= ThrottlingInterceptor.max_messages_per_second_ self
  /\ (fst (ThrottlingInterceptor.intercept now context self) = accepted context
      \/ fst (ThrottlingInterceptor.intercept now context self) = throttled context)
  /\ (ThrottlingInterceptor.last_check_
        (snd (ThrottlingInterceptor.intercept now context self))
      = ThrottlingInterceptor.last_check_ self
      \/ ThrottlingInterceptor.last_check_
           (snd (ThrottlingInterceptor.intercept now context self)) = now).
Proof.
  intros Hcount Hmax.
  unfold ThrottlingInterceptor.intercept, ThrottlingInterceptor.reset_if_elapsed.
  destruct self as [N last count].
  cbn [ThrottlingInterceptor.max_messages_per_second_ ThrottlingInterceptor.last_check_
         ThrottlingInterceptor.message_count_] in *.
  destruct (1000 <=? ThrottlingInterceptor.elapsed_ms now last);
    cbn [ThrottlingInterceptor.max_messages_per_second_ ThrottlingInterceptor.last_check_
           ThrottlingInterceptor.message_count_].
  - destruct (Z.leb_spec N 0); cbn [fst snd ThrottlingInterceptor.max_messages_per_second_
      ThrottlingInterceptor.last_check_ ThrottlingInterceptor.message_count_].
    + repeat split; try lia; auto.
    + rewrite Z.mod_small by lia. repeat split; try lia; auto.
  - destruct (Z.leb_spec N count); cbn [fst snd ThrottlingInterceptor.max_messages_per_second_
      ThrottlingInterceptor.last_check_ ThrottlingInterceptor.message_count_].
    + repeat split; try lia; auto.
    + rewrite Z.mod_small by lia. repeat split; try lia; auto.
Qed.

Lemma intercept_all_cons now context rest self :
  ThrottlingInterceptor.intercept_all ((now, context) :: rest) self
  = (fst (ThrottlingInterceptor.intercept now context self)
       :: fst (ThrottlingInterceptor.intercept_all rest
                 (snd (ThrottlingInterceptor.intercept now context self))),
     snd (ThrottlingInterceptor.intercept_all rest
            (snd (ThrottlingInterceptor.intercept now context self)))).
Proof.
  cbn [ThrottlingInterceptor.intercept_all].
  destruct (ThrottlingInterceptor.intercept now context self) as [[ok context'] self'].
  cbn [fst snd].
  destruct (ThrottlingInterceptor.intercept_all rest self') as [results self''].
  reflexivity.
Qed.

Lemma intercept_all_app calls1 : forall calls2 self,
  ThrottlingInterceptor.intercept_all (calls1 ++ calls2) self
  = (fst (ThrottlingInterceptor.intercept_all calls1 self)
       ++ fst (ThrottlingInterceptor.intercept_all calls2
                 (snd (ThrottlingInterceptor.intercept_all calls1 self))),
     snd (ThrottlingInterceptor.intercept_all calls2
            (snd (ThrottlingInterceptor.intercept_all calls1 self)))).
Proof.
  induction calls1 as [|[now context] calls1 IH]; intros calls2 self.
  - cbn [app ThrottlingInterceptor.intercept_all fst snd].
    destruct (ThrottlingInterceptor.intercept_all calls2 self). reflexivity.
  - change (((now, context) :: calls1) ++ calls2)
      with ((now, context) :: (calls1 ++ calls2)).
    rewrite !intercept_all_cons, IH. reflexivity.
Qed.

(** X13: what the throttler keeps, whatever the clock does.  From a state
    with a count between 0 and the limit (as the constructor leaves it),
    after any sequence of calls at any clock readings: the limit is
    unchanged, the count is again between 0 and the limit (it never wraps
    around and never exceeds the limit), every call returned either
    continue with "throttle_status" set or stop with "throttled" set, and
    the start of the window is the old one or the reading of one of the
    calls.  With a limit of 0 every call is turned down. *)
Theorem throttle_count_within_limit :
  forall (calls : list (Z * InterceptorContext.t)) (self : ThrottlingInterceptor.t),
    0 <= ThrottlingInterceptor.message_count_ self
      <= ThrottlingInterceptor.max_messages_per_second_ self ->
    ThrottlingInterceptor.max_messages_per_second_ self < ThrottlingInterceptor.SIZE_MOD ->
    ThrottlingInterceptor.max_messages_per_second_
      (snd (ThrottlingInterceptor.intercept_all calls self))
    = ThrottlingInterceptor.max_messages_per_second_ self
    /\ 0 <= ThrottlingInterceptor.message_count_
              (snd (ThrottlingInterceptor.intercept_all calls self))
         <= ThrottlingInterceptor.max_messages_per_second_ self
    /\ length (fst (ThrottlingInterceptor.intercept_all calls self)) = length calls
    /\ (forall (i : nat) now context,
          calls !! i = Some (now, context) ->
          fst (ThrottlingInterceptor.intercept_all calls self) !! i
          = Some (accepted context)
          \/ fst (ThrottlingInterceptor.intercept_all calls self) !! i
             = Some (throttled context))
    /\ (ThrottlingInterceptor.last_check_
          (snd (ThrottlingInterceptor.intercept_all calls self))
        = ThrottlingInterceptor.last_check_ self
        \/ In (ThrottlingInterceptor.last_check_
                 (snd (ThrottlingInterceptor.intercept_all calls self)))
              (List.map fst calls))
    /\ (ThrottlingInterceptor.max_messages_per_second_ self = 0 ->
        forall (i : nat) now context,
          calls !! i = Some (now, context) ->
          fst (ThrottlingInterceptor.intercept_all calls self) !! i
          = Some (throttled context)).
Proof.
  induction calls as [|[now context] calls IH]; intros self Hcount Hmax.
  - cbn [ThrottlingInterceptor.intercept_all fst snd length].
    repeat split; try lia; auto; intros; discriminate.
  - rewrite intercept_all_cons. cbn [fst snd].
    destruct (intercept_keeps_invariant now context self Hcount Hmax)
      as (Hmax1 & Hcount1 & Hres1 & Hlast1).
    destruct (IH (snd (ThrottlingInterceptor.intercept now context self)))
      as (Hmax2 & Hcount2 & Hlen2 & Hres2 & Hlast2 & Hzero2).
    { rewrite Hmax1. exact Hcount1. }
    { rewrite Hmax1. exact Hmax. }
    rewrite Hmax1 in *.
    split; [exact Hmax2|]. split; [exact Hcount2|].
    split; [cbn [length]; rewrite Hlen2; reflexivity|].
    split; [|split].
    + intros [|i] now' context' Hi.
      * injection Hi as <- <-. cbn [lookup list_lookup].
        destruct Hres1 as [-> | ->]; auto.
      * apply (Hres2 i now' context' Hi).
    + cbn [List.map fst In].
      destruct Hlast2 as [Hl | Hl]; [|right; right; exact Hl].
      rewrite Hl. destruct Hlast1 as [Hl1 | Hl1]; [left; exact Hl1|].
      right. left. symmetry. exact Hl1.
    + intros Hz [|i] now' context' Hi.
      * injection Hi as <- <-. cbn [lookup list_lookup].
        destruct Hres1 as [Hacc | ->]; [|reflexivity].
        exfalso. revert Hacc.
        unfold ThrottlingInterceptor.intercept, ThrottlingInterceptor.reset_if_elapsed.
        destruct self as [N last count].
        cbn [ThrottlingInterceptor.max_messages_per_second_
               ThrottlingInterceptor.last_check_
               ThrottlingInterceptor.message_count_] in *.
        subst N.
        destruct (1000 <=? ThrottlingInterceptor.elapsed_ms now last);
          cbn [ThrottlingInterceptor.max_messages_per_second_
                 ThrottlingInterceptor.last_check_
                 ThrottlingInterceptor.message_count_].
        -- cbn. discriminate.
        -- destruct (Z.leb_spec 0 count); [cbn; discriminate | lia].
      * apply (Hzero2 Hz i now' context' Hi).
Qed.

(** Three calls on a throttler that allows two per second: the count ends
    within the limit. *)
Lemma throttle_count_within_limit_witness :
  0 <= ThrottlingInterceptor.message_count_
         (snd (ThrottlingInterceptor.intercept_all three_calls
                 (ThrottlingInterceptor.new 2 0)))
    <= 2.
Proof.
  refine (proj1 (proj2 (throttle_count_within_limit three_calls
                          (ThrottlingInterceptor.new 2 0) _ _))).
  - cbn. lia.
  - vm_compute. reflexivity.
Defined.

(** X14: the window is fixed, not sliding.  When a limit's worth of calls
    comes before the end of a window and another limit's worth starts at or
    after the end of the window (1000 ms after its start), all of them are
    accepted, however close together the two groups are: twice the limit
    can pass within little more than a millisecond. *)
Theorem throttle_burst_across_windows :
  forall (N window_start t : Z) (context : InterceptorContext.t)
         (calls rest : list (Z * InterceptorContext.t)),
    0 <= N < ThrottlingInterceptor.SIZE_MOD ->
    Z.of_nat (length calls) = N ->
    Z.of_nat (length ((t, context) :: rest)) = N ->
    Forall (fun call => ThrottlingInterceptor.elapsed_ms (fst call) window_start < 1000)
      calls ->
    1000 <= ThrottlingInterceptor.elapsed_ms t window_start ->
    Forall (fun call => ThrottlingInterceptor.elapsed_ms (fst call) t < 1000) rest ->
    (forall (i : nat) now context',
        (calls ++ (t, context) :: rest) !! i = Some (now, context') ->
        fst (ThrottlingInterceptor.intercept_all (calls ++ (t, context) :: rest)
               (ThrottlingInterceptor.mk N window_start 0)) !! i
        = Some (accepted context'))
    /\ snd (ThrottlingInterceptor.intercept_all (calls ++ (t, context) :: rest)
              (ThrottlingInterceptor.mk N window_start 0))
       = ThrottlingInterceptor.mk N t N.
Proof.
  intros N w t context calls rest HN Hlen1 Hlen2 Hwin1 Hafter Hwin2.
  assert (Hrun : forall window (cs : list (Z * InterceptorContext.t)),
             Z.of_nat (length cs) = N ->
             Forall (fun call => ThrottlingInterceptor.elapsed_ms (fst call) window < 1000)
               cs ->
             length (fst (ThrottlingInterceptor.intercept_all cs
                            (ThrottlingInterceptor.mk N window 0))) = length cs
             /\ (forall (i : nat) now context',
                   cs !! i = Some (now, context') ->
                   fst (ThrottlingInterceptor.intercept_all cs
                          (ThrottlingInterceptor.mk N window 0)) !! i
                   = Some (accepted context'))
             /\ snd (ThrottlingInterceptor.intercept_all cs
                       (ThrottlingInterceptor.mk N window 0))
                = ThrottlingInterceptor.mk N window N).
  { intros window cs Hlen Hwin.
    destruct (intercept_all_in_window N window cs ltac:(lia) Hwin 0 ltac:(lia))
      as (Hl & Hidx & Hst & _).
    split; [exact Hl|]. split.
    - intros i now ctx Hi. rewrite (Hidx i now ctx Hi).
      pose proof (lookup_lt_Some _ _ _ Hi) as Hlt.
      destruct (Z.ltb_spec (0 + Z.of_nat i) N); [reflexivity | lia].
    - rewrite Hst. f_equal. lia. }
  destruct (Hrun w calls Hlen1 Hwin1) as (Hl1 & Hres1 & Hst1).
  assert (Hwin2' : Forall (fun call => ThrottlingInterceptor.elapsed_ms (fst call) t < 1000)
                     ((t, context) :: rest)).
  { constructor; [|exact Hwin2]. cbn [fst]. unfold ThrottlingInterceptor.elapsed_ms.
    rewrite Z.sub_diag. reflexivity. }
  destruct (Hrun t ((t, context) :: rest) Hlen2 Hwin2') as (Hl2 & Hres2 & Hst2).
  assert (Hsame : ThrottlingInterceptor.intercept_all ((t, context) :: rest)
                    (ThrottlingInterceptor.mk N w N)
                  = ThrottlingInterceptor.intercept_all ((t, context) :: rest)
                      (ThrottlingInterceptor.mk N t 0)).
  { rewrite (intercept_all_cons t context rest (ThrottlingInterceptor.mk N w N)).
    rewrite (intercept_after_window N w N t context Hafter).
    rewrite <- intercept_all_cons. reflexivity. }
  rewrite intercept_all_app, Hst1, Hsame. cbn [fst snd].
  split; [|exact Hst2].
  intros i now context' Hi.
  destruct (Nat.lt_ge_cases i (length calls)) as [Hlt | Hge].
  - rewrite lookup_app_l in Hi by exact Hlt.
    rewrite lookup_app_l by (rewrite Hl1; exact Hlt).
    apply (Hres1 i now context' Hi).
  - rewrite lookup_app_r in Hi by exact Hge.
    rewrite lookup_app_r by (rewrite Hl1; exact Hge).
    rewrite Hl1. apply (Hres2 _ now context' Hi).
Qed.

(** A limit of two: calls 999.0 ms and 999.5 ms after the start of the
    window and calls 1000.0 ms and 1000.5 ms after it; the fourth call in
    1.5 ms is accepted. *)
Lemma throttle_burst_across_windows_witness :
  fst (ThrottlingInterceptor.intercept_all
         (late_calls ++ (1000000000, InterceptorContext.new None 0) :: next_calls)
         (ThrottlingInterceptor.mk 2 0 0)) !! 3%nat
  = Some (accepted (InterceptorContext.new None 0)).
Proof.
  refine (proj1 (throttle_burst_across_windows 2 0 1000000000
                   (InterceptorContext.new None 0) late_calls next_calls _ _ _ _ _ _)
            3%nat 1000500000 (InterceptorContext.new None 0) _).
  - vm_compute. split; congruence.
  - reflexivity.
  - reflexivity.
  - repeat constructor.
  - vm_compute. congruence.
  - repeat constructor.
  - reflexivity.
Defined.

(** *** Chains *)

Lemma process_single {W : Type} (i : IInterceptor W) context w :
  process [i] context w = i context w.
Proof.
  cbn [process]. destruct (i context w) as [[[] context'] w']; reflexivity.
Qed.

(** X15: how chains compose.  Processing a chain made of two parts is
    processing the first part and, if it returned continue, the second part
    on the context and the interceptor state that the first part left;
    [addInterceptor] puts the interceptor behind all the others, so it sees
    what they left and is not called when one of them stops; an empty or
    cleared chain returns continue and changes nothing. *)
Theorem chain_composition :
  forall (W : Type) (pre post : InterceptorChain W) (i : IInterceptor W)
         (context : InterceptorContext.t) (w : W),
    process (pre ++ post) context w
    = (if fst (fst (process pre context w))
       then process post (snd (fst (process pre context w))) (snd (process pre context w))
       else (false, snd (fst (process pre context w)), snd (process pre context w)))
    /\ process (addInterceptor i pre) context w
       = (if fst (fst (process pre context w))
          then i (snd (fst (process pre context w))) (snd (process pre context w))
          else (false, snd (fst (process pre context w)), snd (process pre context w)))
    /\ process (clear pre) context w = (true, context, w).
Proof.
  intros W pre post i context w.
  assert (Happ : forall post',
             process (pre ++ post') context w
             = (if fst (fst (process pre context w))
                then process post' (snd (fst (process pre context w)))
                       (snd (process pre context w))
                else (false, snd (fst (process pre context w)),
                      snd (process pre context w)))).
  { intros post'. rewrite process_app.
    destruct (process pre context w) as [[ok context'] w']. reflexivity. }
  split; [apply Happ|]. split; [|reflexivity].
  unfold addInterceptor. rewrite Happ, process_single. reflexivity.
Qed.

(** X16: the order of validator and throttler matters.  A chain that starts
    with the validator stops at it on a message that the validator rejects:
    the interceptors behind it are not called, so the message is not
    logged and takes nothing from the quota of a throttler further down
    (the order used in main.cpp).  With the throttler in front, the same
    rejected message is counted against the limit. *)
Theorem rejected_message_takes_no_quota :
  forall (context : InterceptorContext.t),
    fst (ValidationInterceptor.intercept context) = false ->
    (forall (W : Type) (rest : InterceptorChain W) (w : W),
        process (validator_link :: rest) context w
        = (false, snd (ValidationInterceptor.intercept context), w))
    /\ (forall now self,
          process [validator_link; logging_link; throttling_link now] context self
          = (false, snd (ValidationInterceptor.intercept context), self)
          /\ InterceptorContext.getMetadata "log"
               (snd (ValidationInterceptor.intercept context))
             = InterceptorContext.getMetadata "log" context)
    /\ (forall now N window_start count,
          0 <= count < N -> N < ThrottlingInterceptor.SIZE_MOD ->
          ThrottlingInterceptor.elapsed_ms now window_start < 1000 ->
          snd (process [throttling_link now; validator_link] context
                 (ThrottlingInterceptor.mk N window_start count))
          = ThrottlingInterceptor.mk N window_start (count + 1)
          /\ fst (fst (process [throttling_link now; validator_link] context
                         (ThrottlingInterceptor.mk N window_start count))) = false).
Proof.
  intros context Hrej.
  assert (Hfirst : forall (W : Type) (rest : InterceptorChain W) (w : W),
             process (validator_link :: rest) context w
             = (false, snd (ValidationInterceptor.intercept context), w)).
  { intros W rest w. cbn [process]. unfold validator_link.
    destruct (ValidationInterceptor.intercept context) as [ok context'].
    cbn [fst snd] in *. subst ok. reflexivity. }
  split; [exact Hfirst|]. split.
  - intros now self. split; [apply Hfirst|].
    revert Hrej. unfold ValidationInterceptor.intercept, ValidationInterceptor.reject.
    assert (Hkeep : forall why,
               InterceptorContext.getMetadata "log"
                 (InterceptorContext.setMetadata "error" why context)
               = InterceptorContext.getMetadata "log" context).
    { intros why. unfold InterceptorContext.getMetadata, InterceptorContext.setMetadata.
      cbn [InterceptorContext.metadata_]. rewrite lookup_insert_ne by discriminate.
      reflexivity. }
    destruct (InterceptorContext.getMessage context) as [message|]; [|intros _; apply Hkeep].
    destruct (Message.sequence_number_ (base_of message) =? 0); [intros _; apply Hkeep|].
    destruct (Message.timestamp_ (base_of message) =? 0); [intros _; apply Hkeep|].
    destruct (ValidationInterceptor.check_kind message); [intros _; apply Hkeep|].
    cbn [fst]. discriminate.
  - intros now N w count Hcount HN Hwin.
    cbn [process]. unfold throttling_link.
    rewrite (intercept_in_window N w count now context) by lia.
    destruct (Z.ltb_spec count N); [|lia].
    unfold accepted, validator_link.
    assert (Hrej' : forall c,
               fst (ValidationInterceptor.intercept
                      (InterceptorContext.setMetadata "throttle_status" "accepted" c))
               = fst (ValidationInterceptor.intercept c)).
    { intros c. unfold ValidationInterceptor.intercept, ValidationInterceptor.reject,
        InterceptorContext.getMessage, InterceptorContext.setMetadata.
      cbn [InterceptorContext.message_].
      destruct (InterceptorContext.message_ c) as [message|]; [|reflexivity].
      destruct (Message.sequence_number_ (base_of message) =? 0); [reflexivity|].
      destruct (Message.timestamp_ (base_of message) =? 0); [reflexivity|].
      destruct (ValidationInterceptor.check_kind message); reflexivity. }
    specialize (Hrej' context). rewrite Hrej in Hrej'.
    destruct (ValidationInterceptor.intercept
                (InterceptorContext.setMetadata "throttle_status" "accepted" context))
      as [ok context'].
    cbn [fst] in Hrej'. subst ok. split; reflexivity.
Qed.

(** The first order of a process has sequence number 0 and is rejected: the
    throttler behind the validator keeps its count of 0. *)
Lemma rejected_message_takes_no_quota_witness :
  process [validator_link; logging_link; throttling_link 5]
    (InterceptorContext.new (Some (IsOrder first_order)) 0)
    (ThrottlingInterceptor.new 2 0)
  = (false,
     snd (ValidationInterceptor.intercept
            (InterceptorContext.new (Some (IsOrder first_order)) 0)),
     ThrottlingInterceptor.new 2 0).
Proof.
  refine (proj1 (proj1 (proj2 (rejected_message_takes_no_quota
                                 (InterceptorContext.new (Some (IsOrder first_order)) 0) _))
                   5 (ThrottlingInterceptor.new 2 0))).
  reflexivity.
Defined.

(** X27: a message on its way through the chain.  In the chain of the
    validator, the logger and the throttler, a message that the validator
    accepts collects the marks of all three when the throttler has room in
    its window: "validation" = "passed", "log" = the log line,
    "throttle_status" = "accepted", the result is continue and the
    throttler has counted one more.  When the window is full the result is
    stop with "throttled" set beside the first two marks, and the count is
    unchanged.  The message itself is never changed. *)
Theorem accepted_message_collects_marks :
  forall (context : InterceptorContext.t) (message : AnyMessage) (now N window_start count : Z),
    InterceptorContext.getMessage context = Some message ->
    fst (ValidationInterceptor.intercept context) = true ->
    0 <= count -> N < ThrottlingInterceptor.SIZE_MOD ->
    ThrottlingInterceptor.elapsed_ms now window_start < 1000 ->
    process [validator_link; logging_link; throttling_link now] context
      (ThrottlingInterceptor.mk N window_start count)
    = (if count <? N
       then (true,
             InterceptorContext.setMetadata "throttle_status" "accepted"
               (InterceptorContext.setMetadata "log" (LoggingInterceptor.summary message)
                  (InterceptorContext.setMetadata "validation" "passed" context)),
             ThrottlingInterceptor.mk N window_start (count + 1))
       else (false,
             InterceptorContext.setMetadata "throttled" "Rate limit exceeded"
               (InterceptorContext.setMetadata "log" (LoggingInterceptor.summary message)
                  (InterceptorContext.setMetadata "validation" "passed" context)),
             ThrottlingInterceptor.mk N window_start count))
    /\ InterceptorContext.getMessage
         (snd (fst (process [validator_link; logging_link; throttling_link now] context
                      (ThrottlingInterceptor.mk N window_start count))))
       = Some message.
Proof.
  intros context message now N w count Hmsg Hok Hcount HN Hwin.
  assert (Hval : ValidationInterceptor.intercept context
                 = (true, InterceptorContext.setMetadata "validation" "passed" context)).
  { revert Hok. unfold ValidationInterceptor.intercept, ValidationInterceptor.reject.
    rewrite Hmsg.
    destruct (Message.sequence_number_ (base_of message) =? 0); [discriminate|].
    destruct (Message.timestamp_ (base_of message) =? 0); [discriminate|].
    destruct (ValidationInterceptor.check_kind message); [discriminate | reflexivity]. }
  assert (Hrun : process [validator_link; logging_link; throttling_link now] context
                   (ThrottlingInterceptor.mk N w count)
                 = ThrottlingInterceptor.intercept now
                     (InterceptorContext.setMetadata "log"
                        (LoggingInterceptor.summary message)
                        (InterceptorContext.setMetadata "validation" "passed" context))
                     (ThrottlingInterceptor.mk N w count)).
  { cbn [process]. unfold validator_link. rewrite Hval.
    unfold logging_link, LoggingInterceptor.intercept.
    change (InterceptorContext.getMessage
              (InterceptorContext.setMetadata "validation" "passed" context))
      with (InterceptorContext.getMessage context).
    rewrite Hmsg. unfold throttling_link.
    destruct (ThrottlingInterceptor.intercept now _ _) as [[[] c] s]; reflexivity. }
  rewrite Hrun, intercept_in_window by assumption.
  unfold accepted, throttled.
  destruct (count <? N); split; try reflexivity; exact Hmsg.
Qed.

(** The order of main.cpp built as the second message of a process, through
    the chain with a limit of two: all three marks. *)
Lemma accepted_message_collects_marks_witness :
  InterceptorContext.getMetadata "throttle_status"
    (snd (fst (process [validator_link; logging_link; throttling_link 5]
                 second_order_context (ThrottlingInterceptor.mk 2 0 0))))
  = "accepted".
Proof.
  rewrite (proj1 (accepted_message_collects_marks second_order_context
                    (IsOrder (fst (OrderMessage.new 12345 AAPL bits_150_50 100 true
                                     1700000000000000 1)))
                    5 2 0 0 eq_refl eq_refl ltac:(lia) ltac:(reflexivity)
                    ltac:(reflexivity))).
  reflexivity.
Defined.

(** ** service_manager.cpp *)

(** X17: the registry of services.  A registered service is found under
    its own name, and replaces a service registered under that name before;
    other names are not affected; a null service is ignored.
    [unregisterService] removes the name and stops the service if it runs;
    on a name that is not registered it does nothing.  No registry
    operation touches the message queue. *)
Theorem registry_register_and_lookup :
  forall (self : Dispatcher.t) (s s' : Service.t) (name : string),
    Dispatcher.getService (Service.getName s) (Dispatcher.registerService (Some s) self)
    = Some s
    /\ (name <> Service.getName s ->
        Dispatcher.getService name (Dispatcher.registerService (Some s) self)
        = Dispatcher.getService name self)
    /\ (Service.getName s' = Service.getName s ->
        Dispatcher.registerService (Some s') (Dispatcher.registerService (Some s) self)
        = Dispatcher.registerService (Some s') self)
    /\ Dispatcher.registerService None self = self
    /\ Dispatcher.getService name Dispatcher.initial = None
    /\ Dispatcher.getService name (fst (Dispatcher.unregisterService name self)) = None
    /\ (forall other, other <> name ->
          Dispatcher.getService other (fst (Dispatcher.unregisterService name self))
          = Dispatcher.getService other self)
    /\ (Dispatcher.getService name self = None ->
        Dispatcher.unregisterService name self = (self, None))
    /\ (Dispatcher.getService name self = Some s ->
        exists stopped,
          snd (Dispatcher.unregisterService name self) = Some stopped
          /\ Service.isRunning stopped = false
          /\ Service.received_ stopped = Service.received_ s)
    /\ Dispatcher.message_queue_ (Dispatcher.registerService (Some s) self)
       = Dispatcher.message_queue_ self
    /\ Dispatcher.message_queue_ (fst (Dispatcher.unregisterService name self))
       = Dispatcher.message_queue_ self.
Proof.
  intros self s s' name.
  unfold Dispatcher.getService, Dispatcher.registerService, Dispatcher.unregisterService,
    Dispatcher.initial.
  cbn [Dispatcher.services_ Dispatcher.message_queue_ Dispatcher.running_
         Dispatcher.processor_started_].
  split; [apply lookup_insert_eq|].
  split; [intros Hne; apply lookup_insert_ne; congruence|].
  split; [intros ->; rewrite insert_insert_eq; reflexivity|].
  split; [reflexivity|].
  split; [apply lookup_empty|].
  split.
  { destruct (Dispatcher.services_ self !! name) eqn:E; cbn [fst Dispatcher.services_].
    - apply lookup_delete_eq.
    - exact E. }
  split.
  { intros other Hne.
    destruct (Dispatcher.services_ self !! name) eqn:E; cbn [fst Dispatcher.services_].
    - apply lookup_delete_ne. congruence.
    - reflexivity. }
  split; [intros ->; reflexivity|].
  split.
  { intros ->. cbn [snd]. eexists. split; [reflexivity|].
    unfold Service.isRunning, Service.stop.
    destruct (Service.running_ s) eqn:E; cbn [Service.running_ Service.received_]; auto. }
  split; [reflexivity|].
  destruct (Dispatcher.services_ self !! name); reflexivity.
Qed.

(** Unregistering the running order matching service hands it back
    stopped. *)
Lemma registry_register_and_lookup_witness :
  exists stopped,
    snd (Dispatcher.unregisterService "OrderMatching" two_services) = Some stopped
    /\ Service.isRunning stopped = false
    /\ Service.received_ stopped = Service.received_ matching_service.
Proof.
  refine (proj1 (proj2 (proj2 (proj2 (proj2 (proj2 (proj2 (proj2 (proj2
            (registry_register_and_lookup two_services matching_service matching_service
               "OrderMatching"))))))))) _).
  reflexivity.
Defined.

Lemma count_all_running (l : list (string * Service.t)) :
  Forall (fun entry => Service.isRunning (snd entry) = true) l ->
  length (List.filter (fun entry => Service.isRunning (snd entry)) l) = length l.
Proof.
  induction 1 as [|entry l Hentry _ IH]; [reflexivity|].
  cbn [List.filter]. rewrite Hentry. cbn [length]. rewrite IH. reflexivity.
Qed.

Lemma count_none_running (l : list (string * Service.t)) :
  Forall (fun entry => Service.isRunning (snd entry) = false) l ->
  length (List.filter (fun entry => Service.isRunning (snd entry)) l) = 0%nat.
Proof.
  induction 1 as [|entry l Hentry _ IH]; [reflexivity|].
  cbn [List.filter]. rewrite Hentry. exact IH.
Qed.

Lemma started_service s :
  (if Service.isRunning s then s else Service.start s)
  = Service.mk (Service.name_ s) true (Service.received_ s).
Proof.
  unfold Service.isRunning, Service.start. destruct s as [n [] r]; reflexivity.
Qed.

Lemma stopped_service s :
  (if Service.isRunning s then Service.stop s else s)
  = Service.mk (Service.name_ s) false (Service.received_ s).
Proof.
  unfold Service.isRunning, Service.stop. destruct s as [n [] r]; reflexivity.
Qed.

(** X18: starting and stopping all services.  [startAllServices] leaves
    every registered service running and [stopAllServices] leaves every one
    stopped, with its name and what it has received unchanged and no
    service added or removed; the number of active services is then the
    number of registered services, and 0.  Starting twice is starting
    once.  Neither touches the message queue. *)
Theorem start_and_stop_all_services :
  forall (self : Dispatcher.t) (name : string),
    Dispatcher.getService name (Dispatcher.startAllServices self)
    = (fun s => Service.mk (Service.name_ s) true (Service.received_ s))
        <$> Dispatcher.getService name self
    /\ Dispatcher.getService name (Dispatcher.stopAllServices self)
       = (fun s => Service.mk (Service.name_ s) false (Service.received_ s))
           <$> Dispatcher.getService name self
    /\ Dispatcher.getActiveServiceCount (Dispatcher.startAllServices self)
       = stdpp.base.size (Dispatcher.services_ self)
    /\ Dispatcher.getActiveServiceCount (Dispatcher.stopAllServices self) = 0%nat
    /\ Dispatcher.getActiveServiceCount
         (Dispatcher.stopAllServices (Dispatcher.startAllServices self)) = 0%nat
    /\ Dispatcher.startAllServices (Dispatcher.startAllServices self)
       = Dispatcher.startAllServices self
    /\ Dispatcher.message_queue_ (Dispatcher.startAllServices self)
       = Dispatcher.message_queue_ self
    /\ Dispatcher.message_queue_ (Dispatcher.stopAllServices self)
       = Dispatcher.message_queue_ self.
Proof.
  intros self name.
  assert (Hstart : forall m : gmap string Service.t,
             (fun s => if Service.isRunning s then s else Service.start s) <$> m
             = (fun s => Service.mk (Service.name_ s) true (Service.received_ s)) <$> m).
  { intros m. apply map_fmap_ext. intros k s _. apply started_service. }
  assert (Hstop : forall m : gmap string Service.t,
             (fun s => if Service.isRunning s then Service.stop s else s) <$> m
             = (fun s => Service.mk (Service.name_ s) false (Service.received_ s)) <$> m).
  { intros m. apply map_fmap_ext. intros k s _. apply stopped_service. }
  assert (Hcount_stop : forall st,
             Dispatcher.getActiveServiceCount (Dispatcher.stopAllServices st) = 0%nat).
  { intros st. unfold Dispatcher.getActiveServiceCount, Dispatcher.stopAllServices.
    cbn [Dispatcher.services_]. rewrite Hstop.
    apply count_none_running. apply Forall_forall. intros [k s] Hin.
    apply elem_of_map_to_list in Hin.
    rewrite lookup_fmap in Hin.
    destruct (Dispatcher.services_ st !! k); [|discriminate].
    injection Hin as <-. reflexivity. }
  unfold Dispatcher.getService, Dispatcher.startAllServices, Dispatcher.stopAllServices.
  cbn [Dispatcher.services_ Dispatcher.message_queue_].
  split; [rewrite Hstart; apply lookup_fmap|].
  split; [rewrite Hstop; apply lookup_fmap|].
  split.
  { unfold Dispatcher.getActiveServiceCount. cbn [Dispatcher.services_].
    rewrite Hstart, count_all_running.
    - rewrite length_map_to_list. apply map_size_fmap.
    - apply Forall_forall. intros [k s] Hin.
      apply elem_of_map_to_list in Hin.
      rewrite lookup_fmap in Hin.
      destruct (Dispatcher.services_ self !! k); [|discriminate].
      injection Hin as <-. reflexivity. }
  split; [apply Hcount_stop|].
  split; [apply (Hcount_stop (Dispatcher.startAllServices self))|].
  split; [|split; reflexivity].
  cbn [Dispatcher.running_ Dispatcher.processor_started_]. f_equal.
  rewrite !Hstart, <- map_fmap_compose. apply map_fmap_ext. intros k s _. reflexivity.
Qed.

Lemma fed_service (m : AnyMessage) s :
  (if Service.isRunning s then Service.processMessage (Some m) s else s)
  = Service.processMessage (Some m) s.
Proof.
  unfold Service.isRunning, Service.processMessage. destruct (Service.running_ s); reflexivity.
Qed.

(** X19: broadcasting.  [broadcastMessage] hands the message once to every
    registered service that runs, at once and not through the queue: such a
    service has it as the last message received; a stopped service and the
    queue stay as they are, and a null message changes nothing.  After
    [startAllServices] every registered service gets the message. *)
Theorem broadcast_reaches_running_services :
  forall (self : Dispatcher.t) (m : AnyMessage) (name : string),
    (forall s,
        Dispatcher.getService name self = Some s ->
        Dispatcher.getService name (Dispatcher.broadcastMessage (Some m) self)
        = Some (if Service.isRunning s
                then Service.mk (Service.name_ s) true (Service.received_ s ++ [m])
                else s))
    /\ (Dispatcher.getService name self = None ->
        Dispatcher.getService name (Dispatcher.broadcastMessage (Some m) self) = None)
    /\ Dispatcher.message_queue_ (Dispatcher.broadcastMessage (Some m) self)
       = Dispatcher.message_queue_ self
    /\ Dispatcher.broadcastMessage None self = self
    /\ (forall s,
          Dispatcher.getService name self = Some s ->
          Dispatcher.getService name
            (Dispatcher.broadcastMessage (Some m) (Dispatcher.startAllServices self))
          = Some (Service.mk (Service.name_ s) true (Service.received_ s ++ [m]))).
Proof.
  intros self m name.
  unfold Dispatcher.getService, Dispatcher.broadcastMessage, Dispatcher.startAllServices.
  cbn [Dispatcher.services_ Dispatcher.message_queue_].
  split; [|split; [|split; [reflexivity|split; [reflexivity|]]]].
  - intros s Hs. rewrite lookup_fmap, Hs. cbn [fmap option_fmap option_map].
    f_equal. rewrite fed_service.
    unfold Service.processMessage, Service.isRunning.
    destruct s as [n [] r]; reflexivity.
  - intros Hs. rewrite lookup_fmap, Hs. reflexivity.
  - intros s Hs. rewrite !lookup_fmap, Hs. cbn [fmap option_fmap option_map].
    f_equal. rewrite fed_service, started_service. reflexivity.
Qed.

(** Broadcasting to the two sample services: order matching, which runs,
    gets the message. *)
Lemma broadcast_reaches_running_services_witness :
  Dispatcher.getService "OrderMatching"
    (Dispatcher.broadcastMessage (Some (IsOrder first_order)) two_services)
  = Some (Service.mk "OrderMatching" true [IsOrder first_order]).
Proof.
  refine (proj1 (broadcast_reaches_running_services two_services (IsOrder first_order)
                   "OrderMatching") matching_service _).
  reflexivity.
Defined.

(** *** The queue and the processor *)

Lemma after_delivery_running n r messages :
  after_delivery messages (Service.mk n true r) = Service.mk n true (r ++ messages).
Proof.
  unfold after_delivery. revert r.
  induction messages as [|m messages IH]; intros r; cbn [fold_left].
  - rewrite app_nil_r. reflexivity.
  - unfold Service.processMessage at 2. cbn [Service.running_ Service.name_ Service.received_].
    rewrite IH, <- app_assoc. reflexivity.
Qed.

Lemma after_delivery_stopped n r messages :
  after_delivery messages (Service.mk n false r) = Service.mk n false r.
Proof.
  unfold after_delivery.
  induction messages as [|m messages IH]; cbn [fold_left]; [reflexivity|].
  exact IH.
Qed.

Lemma after_delivery_app l1 l2 s :
  after_delivery (l1 ++ l2) s = after_delivery l2 (after_delivery l1 s).
Proof. unfold after_delivery. apply fold_left_app. Qed.

Lemma addressed_cons service_name n m q :
  addressed service_name ((n, m) :: q)
  = if decide (n = service_name) then m :: addressed service_name q
    else addressed service_name q.
Proof.
  unfold addressed. rewrite filter_cons. cbn [fst].
  destruct (decide (n = service_name)); reflexivity.
Qed.

Lemma addressed_app service_name q1 q2 :
  addressed service_name (q1 ++ q2)
  = addressed service_name q1 ++ addressed service_name q2.
Proof. unfold addressed. rewrite filter_app, fmap_app. reflexivity. Qed.

Lemma deliver_lookup n m services service_name :
  Dispatcher.deliver n m services !! service_name
  = after_delivery (if decide (n = service_name) then [m] else [])
      <$> services !! service_name.
Proof.
  unfold Dispatcher.deliver.
  destruct (decide (n = service_name)) as [-> | Hne].
  - destruct (services !! service_name) as [s|] eqn:Hs; [|rewrite Hs; reflexivity].
    unfold Service.isRunning. destruct s as [sn [] r].
    + cbn [Service.running_]. rewrite lookup_insert_eq. reflexivity.
    + cbn [Service.running_]. rewrite Hs. reflexivity.
  - assert (Hid : forall o : option Service.t, after_delivery [] <$> o = o).
    { intros [s|]; reflexivity. }
    rewrite Hid.
    destruct (services !! n) as [s|]; [|reflexivity].
    destruct (Service.isRunning s); [|reflexivity].
    apply lookup_insert_ne. exact Hne.
Qed.

Lemma process_batch_spec budget : forall self,
  Dispatcher.message_queue_ (Dispatcher.process_batch budget self)
  = drop budget (Dispatcher.message_queue_ self)
  /\ (forall service_name,
        Dispatcher.getService service_name (Dispatcher.process_batch budget self)
        = after_delivery
            (addressed service_name (take budget (Dispatcher.message_queue_ self)))
            <$> Dispatcher.getService service_name self)
  /\ Dispatcher.running_ (Dispatcher.process_batch budget self) = Dispatcher.running_ self
  /\ Dispatcher.processor_started_ (Dispatcher.process_batch budget self)
     = Dispatcher.processor_started_ self.
Proof.
  assert (Hid : forall o : option Service.t, after_delivery [] <$> o = o).
  { intros [s|]; reflexivity. }
  induction budget as [|budget IH]; intros self; cbn [Dispatcher.process_batch].
  - rewrite drop_0, take_0. repeat split. intros service_name. symmetry. apply Hid.
  - destruct (Dispatcher.message_queue_ self) as [|[n m] rest] eqn:Hq.
    + rewrite Hq. repeat split. intros service_name. symmetry. apply Hid.
    + destruct (IH (Dispatcher.mk (Dispatcher.deliver n m (Dispatcher.services_ self))
                      (Dispatcher.running_ self) rest
                      (Dispatcher.processor_started_ self)))
        as (Hqueue & Hserv & Hrun & Hproc).
      cbn [Dispatcher.message_queue_ Dispatcher.running_ Dispatcher.processor_started_]
        in *.
      split; [exact Hqueue|]. split; [|split; assumption].
      intros service_name. rewrite Hserv.
      unfold Dispatcher.getService at 1. cbn [Dispatcher.services_].
      rewrite deliver_lookup. unfold Dispatcher.getService.
      cbn [take]. rewrite addressed_cons.
      destruct (Dispatcher.services_ self !! service_name) as [s|]; [|reflexivity].
      cbn [fmap option_fmap option_map]. f_equal.
      rewrite <- after_delivery_app.
      destruct (decide (n = service_name)); reflexivity.
Qed.

Lemma processor_loop_spec rounds : forall self,
  Dispatcher.running_ self = true ->
  Dispatcher.message_queue_ (Dispatcher.messageProcessorLoop rounds self)
  = drop (rounds * Dispatcher.max_batch) (Dispatcher.message_queue_ self)
  /\ (forall service_name,
        Dispatcher.getService service_name (Dispatcher.messageProcessorLoop rounds self)
        = after_delivery
            (addressed service_name
               (take (rounds * Dispatcher.max_batch) (Dispatcher.message_queue_ self)))
            <$> Dispatcher.getService service_name self).
Proof.
  assert (Hid : forall o : option Service.t, after_delivery [] <$> o = o).
  { intros [s|]; reflexivity. }
  induction rounds as [|rounds IH]; intros self Hrunning.
  - cbn [Dispatcher.messageProcessorLoop Nat.mul]. rewrite drop_0, take_0.
    split; [reflexivity|]. intros service_name. symmetry. apply Hid.
  - cbn [Dispatcher.messageProcessorLoop]. rewrite Hrunning.
    unfold Dispatcher.processMessageQueue.
    destruct (process_batch_spec Dispatcher.max_batch self)
      as (Hqueue & Hserv & Hrun & _).
    destruct (IH (Dispatcher.process_batch Dispatcher.max_batch self))
      as (IHqueue & IHserv).
    { rewrite Hrun. exact Hrunning. }
    rewrite IHqueue, Hqueue, drop_drop.
    split; [f_equal; lia|].
    intros service_name. rewrite IHserv, Hserv, Hqueue.
    replace (S rounds * Dispatcher.max_batch)%nat
      with (Dispatcher.max_batch + rounds * Dispatcher.max_batch)%nat by lia.
    rewrite <- take_take_drop, addressed_app.
    destruct (Dispatcher.getService service_name self) as [s|]; [|reflexivity].
    cbn [fmap option_fmap option_map]. rewrite after_delivery_app. reflexivity.
Qed.

Lemma processor_loop_not_running rounds self :
  Dispatcher.running_ self = false -> Dispatcher.messageProcessorLoop rounds self = self.
Proof. intros H. destruct rounds; cbn [Dispatcher.messageProcessorLoop]; rewrite ?H; reflexivity. Qed.

Lemma send_all_spec sends : forall self,
  Dispatcher.message_queue_ (send_all sends self) = Dispatcher.message_queue_ self ++ sends
  /\ Dispatcher.services_ (send_all sends self) = Dispatcher.services_ self
  /\ Dispatcher.running_ (send_all sends self) = Dispatcher.running_ self.
Proof.
  unfold send_all.
  induction sends as [|[n m] sends IH]; intros self; cbn [fold_left].
  - rewrite app_nil_r. repeat split.
  - destruct (IH (Dispatcher.sendMessage n (Some m) self)) as (Hq & Hs & Hr).
    cbn [fst snd]. rewrite Hq, Hs, Hr.
    unfold Dispatcher.sendMessage, ServiceManager.sendMessage.
    cbn [Dispatcher.message_queue_ Dispatcher.services_ Dispatcher.running_].
    rewrite <- app_assoc. repeat split.
Qed.

Lemma after_delivery_cases messages s :
  after_delivery messages s
  = if Service.isRunning s
    then Service.mk (Service.name_ s) true (Service.received_ s ++ messages)
    else s.
Proof.
  destruct s as [n [] r]; cbn [Service.isRunning Service.running_ Service.name_
                                 Service.received_].
  - apply after_delivery_running.
  - apply after_delivery_stopped.
Qed.

(** X20: one call of [processMessageQueue].  It takes the first 100 entries
    of the queue, or all of them if there are fewer, and leaves the others
    queued in their order.  Each entry taken is handed to the service
    registered under its name if that service runs: a running service has
    received, after what it had, the messages of the entries addressed to it
    among those taken, in queue order.  Entries addressed to a stopped
    service or to a name that is not registered are taken from the queue and
    handed to nobody; no service is added or removed. *)
Theorem processMessageQueue_takes_a_batch :
  forall (self : Dispatcher.t) (name : string),
    Dispatcher.message_queue_ (Dispatcher.processMessageQueue self)
    = drop 100 (Dispatcher.message_queue_ self)
    /\ (forall s,
          Dispatcher.getService name self = Some s ->
          Dispatcher.getService name (Dispatcher.processMessageQueue self)
          = Some (if Service.isRunning s
                  then Service.mk (Service.name_ s) true
                         (Service.received_ s
                            ++ addressed name (take 100 (Dispatcher.message_queue_ self)))
                  else s))
    /\ (Dispatcher.getService name self = None ->
        Dispatcher.getService name (Dispatcher.processMessageQueue self) = None).
Proof.
  intros self name. unfold Dispatcher.processMessageQueue.
  destruct (process_batch_spec Dispatcher.max_batch self) as (Hqueue & Hserv & _).
  split; [exact Hqueue|]. split.
  - intros s Hs. rewrite Hserv, Hs. cbn [fmap option_fmap option_map].
    rewrite after_delivery_cases. reflexivity.
  - intros Hs. rewrite Hserv, Hs. reflexivity.
Qed.

(** The three sample sends in the queue of the two sample services: order
    matching gets its two messages in order; the heartbeat for the stopped
    market data service is gone. *)
Lemma processMessageQueue_takes_a_batch_witness :
  Dispatcher.getService "OrderMatching"
    (Dispatcher.processMessageQueue (send_all three_sends two_services))
  = Some (Service.mk "OrderMatching" true [IsOrder first_order; IsOrder order_F]).
Proof.
  refine (proj1 (proj2 (processMessageQueue_takes_a_batch
                          (send_all three_sends two_services) "OrderMatching"))
            matching_service _).
  reflexivity.
Defined.

(** X21: from [sendMessage] to the services.  Messages sent to a dispatcher
    with an empty queue are queued in the order of the calls.  While the
    dispatcher runs (after [startAllServices]), once the processor loop has
    made enough turns for them (100 messages a turn), the queue is empty
    again and every running service has received, after what it had,
    exactly the messages sent to its name, in the order in which they were
    sent; the messages sent to a stopped service or to an unknown name are
    lost without a trace.  When the dispatcher does not run, the loop does
    nothing and the messages stay queued. *)
Theorem sent_messages_arrive_in_order :
  forall (self : Dispatcher.t) (sends : list (string * AnyMessage)) (rounds : nat)
         (name : string),
    Dispatcher.message_queue_ self = [] ->
    (length sends <= rounds * 100)%nat ->
    Dispatcher.message_queue_ (send_all sends self) = sends
    /\ (Dispatcher.running_ self = true ->
        Dispatcher.message_queue_
          (Dispatcher.messageProcessorLoop rounds (send_all sends self)) = []
        /\ (forall s,
              Dispatcher.getService name self = Some s ->
              Dispatcher.getService name
                (Dispatcher.messageProcessorLoop rounds (send_all sends self))
              = Some (if Service.isRunning s
                      then Service.mk (Service.name_ s) true
                             (Service.received_ s ++ addressed name sends)
                      else s))
        /\ (Dispatcher.getService name self = None ->
            Dispatcher.getService name
              (Dispatcher.messageProcessorLoop rounds (send_all sends self)) = None))
    /\ (Dispatcher.running_ self = false ->
        Dispatcher.messageProcessorLoop rounds (send_all sends self)
        = send_all sends self).
Proof.
  intros self sends rounds name Hempty Hrounds.
  destruct (send_all_spec sends self) as (Hq & Hs & Hr).
  rewrite Hempty in Hq. cbn [app] in Hq.
  split; [exact Hq|]. split.
  - intros Hrunning.
    destruct (processor_loop_spec rounds (send_all sends self)) as [Hqueue Hserv].
    { rewrite Hr. exact Hrunning. }
    rewrite Hq in Hqueue, Hserv.
    change Dispatcher.max_batch with 100%nat in *.
    rewrite drop_ge in Hqueue by exact Hrounds.
    assert (Hfind : Dispatcher.getService name (send_all sends self)
                    = Dispatcher.getService name self).
    { unfold Dispatcher.getService. rewrite Hs. reflexivity. }
    split; [exact Hqueue|]. split.
    + intros s Hsn. rewrite Hserv, Hfind, Hsn, take_ge by exact Hrounds.
      cbn [fmap option_fmap option_map]. rewrite after_delivery_cases. reflexivity.
    + intros Hsn. rewrite Hserv, Hfind, Hsn. reflexivity.
  - intros Hstopped. apply processor_loop_not_running. rewrite Hr. exact Hstopped.
Qed.

(** The three sample sends and one turn of the loop: the queue is empty and
    the stopped market data service has received nothing. *)
Lemma sent_messages_arrive_in_order_witness :
  Dispatcher.message_queue_
    (Dispatcher.messageProcessorLoop 1 (send_all three_sends two_services)) = []
  /\ Dispatcher.getService "MarketData"
       (Dispatcher.messageProcessorLoop 1 (send_all three_sends two_services))
     = Some market_service.
Proof.
  destruct (sent_messages_arrive_in_order two_services three_sends 1 "MarketData"
              eq_refl ltac:(cbn; lia)) as (_ & Hrun & _).
  destruct (Hrun eq_refl) as (Hqueue & Hserv & _).
  exact (conj Hqueue (Hserv market_service eq_refl)).
Defined.

(** ** socket_server.cpp: [PerformanceMonitor] *)

Lemma recordLatency_window x (m : PerformanceMonitor.t) :
  Z.of_nat (length m) <= PerformanceMonitor.MAX_SAMPLES ->
  PerformanceMonitor.recordLatency x m
  = drop (length (m ++ [x]) - Z.to_nat PerformanceMonitor.MAX_SAMPLES) (m ++ [x]).
Proof.
  intros Hlen. unfold PerformanceMonitor.recordLatency.
  rewrite length_app. cbn [length].
  assert (HK : Z.of_nat (Z.to_nat PerformanceMonitor.MAX_SAMPLES)
               = PerformanceMonitor.MAX_SAMPLES) by (apply Z2Nat.id; discriminate).
  assert (Hpos : 0 < PerformanceMonitor.MAX_SAMPLES) by reflexivity.
  revert HK Hpos Hlen.
  generalize (Z.to_nat PerformanceMonitor.MAX_SAMPLES) as K.
  generalize PerformanceMonitor.MAX_SAMPLES as M.
  intros M K HK Hpos Hlen.
  destruct (Z.leb_spec M (Z.of_nat (length m))).
  - replace (length m + 1 - K)%nat with 1%nat by lia.
    destruct m as [|y m]; [cbn [length] in *; lia|]. reflexivity.
  - replace (length m + 1 - K)%nat with 0%nat by lia. reflexivity.
Qed.

Lemma record_all_window samples : forall m : PerformanceMonitor.t,
  Z.of_nat (length m) <= PerformanceMonitor.MAX_SAMPLES ->
  PerformanceMonitor.record_all samples m
  = drop (length (m ++ samples) - Z.to_nat PerformanceMonitor.MAX_SAMPLES) (m ++ samples).
Proof.
  unfold PerformanceMonitor.record_all.
  assert (HK : Z.of_nat (Z.to_nat PerformanceMonitor.MAX_SAMPLES)
               = PerformanceMonitor.MAX_SAMPLES) by (apply Z2Nat.id; discriminate).
  induction samples as [|x samples IH]; intros m Hlen; cbn [fold_left].
  - rewrite app_nil_r. replace (length m - _)%nat with 0%nat by lia. reflexivity.
  - rewrite IH.
    + rewrite (recordLatency_window x m Hlen).
      revert HK Hlen. generalize (Z.to_nat PerformanceMonitor.MAX_SAMPLES) as K.
      generalize PerformanceMonitor.MAX_SAMPLES as M. intros M K HK Hlen.
      replace (m ++ x :: samples) with ((m ++ [x]) ++ samples)
        by (rewrite <- app_assoc; reflexivity).
      assert (Hmx : length (m ++ [x]) = (length m + 1)%nat)
        by (rewrite length_app; reflexivity).
      revert Hmx. generalize (m ++ [x]) as mx. intros mx Hmx.
      rewrite (length_app (drop _ mx)), length_drop, (length_app mx).
      destruct (Nat.le_gt_cases (length mx) K) as [Hle | Hgt].
      * replace (length mx - K)%nat with 0%nat by lia. rewrite drop_0.
        f_equal. lia.
      * rewrite <- (drop_app_le mx samples) by lia.
        rewrite drop_drop. f_equal. lia.
    + rewrite (recordLatency_window x m Hlen), length_drop, length_app. cbn [length]. lia.
Qed.

(** X22: the monitor is a sliding window.  Starting from a monitor that
    holds at most [MAX_SAMPLES] = 100000 samples, after any number of
    [recordLatency] calls the monitor holds the latest 100000 of all the
    samples, those it had and those recorded, in the order of their
    arrival, or all of them if they are fewer: it never holds more than
    100000, and each sample beyond that pushes out the oldest one. *)
Theorem monitor_keeps_latest_samples :
  forall (samples : list B64.t) (m : PerformanceMonitor.t),
    Z.of_nat (length m) <= PerformanceMonitor.MAX_SAMPLES ->
    PerformanceMonitor.record_all samples m
    = drop (length (m ++ samples) - Z.to_nat PerformanceMonitor.MAX_SAMPLES)
        (m ++ samples)
    /\ Z.of_nat (length (PerformanceMonitor.record_all samples m))
       = Z.min PerformanceMonitor.MAX_SAMPLES (Z.of_nat (length (m ++ samples)))
    /\ (Z.of_nat (length (m ++ samples)) <= PerformanceMonitor.MAX_SAMPLES ->
        PerformanceMonitor.record_all samples m = m ++ samples).
Proof.
  intros samples m Hlen.
  pose proof (record_all_window samples m Hlen) as Hrun.
  assert (HK : Z.of_nat (Z.to_nat PerformanceMonitor.MAX_SAMPLES)
               = PerformanceMonitor.MAX_SAMPLES) by (apply Z2Nat.id; discriminate).
  revert Hrun HK. generalize (Z.to_nat PerformanceMonitor.MAX_SAMPLES) as K.
  generalize PerformanceMonitor.MAX_SAMPLES as M. intros M K Hrun HK.
  split; [exact Hrun|]. split.
  - rewrite Hrun, length_drop. lia.
  - intros Hfit. rewrite Hrun.
    replace (length (m ++ samples) - K)%nat with 0%nat by lia. reflexivity.
Qed.

(** Twenty samples recorded into an empty monitor are all kept. *)
Lemma monitor_keeps_latest_samples_witness :
  Z.of_nat (length (PerformanceMonitor.record_all (latencies twenty_sevens)
                      PerformanceMonitor.empty))
  = Z.min PerformanceMonitor.MAX_SAMPLES
      (Z.of_nat (length (PerformanceMonitor.empty ++ latencies twenty_sevens))).
Proof.
  refine (proj1 (proj2 (monitor_keeps_latest_samples (latencies twenty_sevens)
                          PerformanceMonitor.empty _))).
  vm_compute. congruence.
Defined.

(** *** Statistics of samples that are whole microseconds *)

(** **** The subscripts [size * 0.95] and [size * 0.99]

    The product of an integer and a literal, rounded to 53 bits and
    truncated: [shr] shifts the 106-bit product right and keeps the round
    and sticky bits, [round_nearest_even] uses them. *)

Lemma shr_1_nonneg m r s :
  0 <= m ->
  shr_1 (Build_shr_record m r s) = Build_shr_record (m / 2) (Z.odd m) (r || s).
Proof.
  intros Hm. rewrite <- Z.div2_div.
  destruct m as [|[p|p|]|p]; try lia; reflexivity.
Qed.

Lemma iter_shr_1 m (t : nat) :
  0 <= m ->
  Nat.iter (S t) shr_1 (Build_shr_record m false false)
  = Build_shr_record (m / 2 ^ Z.of_nat (S t)) (Z.odd (m / 2 ^ Z.of_nat t))
      (negb (m mod 2 ^ Z.of_nat t =? 0)).
Proof.
  intros Hm. induction t as [|t IH].
  - change (Nat.iter 1 shr_1 ?x) with (shr_1 x). rewrite shr_1_nonneg by exact Hm.
    change (2 ^ Z.of_nat 1) with 2. change (2 ^ Z.of_nat 0) with 1.
    rewrite Z.div_1_r, Z.mod_1_r. reflexivity.
  - change (Nat.iter (S (S t)) shr_1 ?x) with (shr_1 (Nat.iter (S t) shr_1 x)).
    rewrite IH, shr_1_nonneg by (apply Z.div_pos; lia).
    assert (Hpow : 2 ^ Z.of_nat (S (S t)) = 2 ^ Z.of_nat (S t) * 2).
    { rewrite (Nat2Z.inj_succ (S t)), Z.pow_succ_r by lia. lia. }
    assert (Hpow' : 2 ^ Z.of_nat (S t) = 2 ^ Z.of_nat t * 2).
    { rewrite (Nat2Z.inj_succ t), Z.pow_succ_r by lia. lia. }
    assert (Hpos : 0 < 2 ^ Z.of_nat t) by (apply Z.pow_pos_nonneg; lia).
    f_equal.
    + rewrite Hpow, Z.div_div by lia. reflexivity.
    + rewrite Hpow' at 1. rewrite Z.rem_mul_r by lia.
      pose proof (Z.mod_pos_bound m (2 ^ Z.of_nat t) Hpos) as Hu.
      pose proof (Z.mod_pos_bound (m / 2 ^ Z.of_nat t) 2 ltac:(lia)) as Hv.
      rewrite Zodd_mod.
      destruct (Z.eqb_spec ((m / 2 ^ Z.of_nat t) mod 2) 1) as [Hv1 | Hv1];
        destruct (Z.eqb_spec (m mod 2 ^ Z.of_nat t) 0) as [Hu0 | Hu0];
        cbn [orb negb]; symmetry.
      * apply negb_true_iff, Z.eqb_neq. nia.
      * apply negb_true_iff, Z.eqb_neq. nia.
      * apply negb_false_iff, Z.eqb_eq. nia.
      * apply negb_true_iff, Z.eqb_neq. nia.
Qed.

Lemma nearest_even_spec m s :
  0 <= m -> 1 <= s ->
  2 * m - 2 ^ s <= 2 * (nearest_even m s * 2 ^ s) <= 2 * m + 2 ^ s
  /\ (2 ^ s < 2 * (m mod 2 ^ s) -> nearest_even m s = m / 2 ^ s + 1)
  /\ m / 2 ^ s <= nearest_even m s <= m / 2 ^ s + 1.
Proof.
  intros Hm Hs. unfold nearest_even.
  assert (Hpow : 2 ^ s = 2 ^ (s - 1) * 2).
  { replace s with (Z.succ (s - 1)) at 1 by lia. rewrite Z.pow_succ_r by lia. lia. }
  assert (Hpos : 0 < 2 ^ (s - 1)) by (apply Z.pow_pos_nonneg; lia).
  set (H := 2 ^ (s - 1)) in *.
  assert (Hq : m / 2 ^ s = m / H / 2) by (rewrite Hpow, Z.div_div by lia; reflexivity).
  assert (Hrem : m mod 2 ^ s = m mod H + H * ((m / H) mod 2))
    by (rewrite Hpow; apply Z.rem_mul_r; lia).
  pose proof (Z.mod_pos_bound m H Hpos) as Hu.
  pose proof (Z.mod_pos_bound (m / H) 2 ltac:(lia)) as Hv.
  pose proof (Z.div_mod m H ltac:(lia)) as Hm1.
  pose proof (Z.div_mod (m / H) 2 ltac:(lia)) as Hm2.
  rewrite Zodd_mod, Hrem, Hq, Hpow.
  set (q := m / H / 2) in *. set (u := m mod H) in *. set (v := (m / H) mod 2) in *.
  set (w := m / H) in *.
  assert (Hm3 : m = 2 * (H * q) + H * v + u) by nia.
  unfold loc_of_shr_record, round_nearest_even.
  destruct (Z.eqb_spec v 1) as [Hv1 | Hv1];
    destruct (Z.eqb_spec u 0) as [Hu0 | Hu0]; cbn [negb].
  - destruct (Z.even q); repeat split; try nia.
  - repeat split; try nia.
  - repeat split; try nia.
  - repeat split; try nia.
Qed.

Lemma digits_unique p n :
  2 ^ (n - 1) <= Z.pos p < 2 ^ n -> digits p = n.
Proof.
  intros [Hlo Hhi]. pose proof (digits_bounds p) as [Hlo' Hhi'].
  pose proof (digits_pos p) as Hd.
  assert (Hn : 1 <= n).
  { destruct (Z.le_gt_cases 1 n) as [H | H]; [exact H|].
    assert (2 ^ n <= 2 ^ 0) by (apply Z.pow_le_mono_r; lia). change (2 ^ 0) with 1 in *. lia. }
  destruct (Z.lt_trichotomy (digits p) n) as [Hlt | [Heq | Hgt]]; [|exact Heq|].
  - assert (2 ^ digits p <= 2 ^ (n - 1)) by (apply Z.pow_le_mono_r; lia). lia.
  - assert (2 ^ n <= 2 ^ (digits p - 1)) by (apply Z.pow_le_mono_r; lia). lia.
Qed.

(** The integer part of a value rounded to 53 bits: a mantissa [M] of more
    than 53 bits with a result exponent below 0. *)
Lemma round_aux_nearest M e :
  54 <= digits M -> -1074 <= digits M + e - 53 < 0 ->
  B64.to_size_t (binary_round_aux 53 1024 false (Z.pos M) e loc_Exact)
  = Some (nearest_even (Z.pos M) (digits M - 53) / 2 ^ (53 - digits M - e)).
Proof.
  intros HD He.
  pose proof (digits_bounds M) as [Mlo Mhi].
  set (D := digits M) in *. set (s := D - 53).
  assert (Hs : 1 <= s) by (unfold s; lia).
  assert (Hpow_s : 0 < 2 ^ s) by (apply Z.pow_pos_nonneg; lia).
  assert (Hsplit : 2 ^ D = 2 ^ s * 2 ^ 53).
  { rewrite <- Z.pow_add_r by lia. f_equal. unfold s. lia. }
  assert (Hsplit' : 2 ^ (D - 1) = 2 ^ s * 2 ^ 52).
  { rewrite <- Z.pow_add_r by lia. f_equal. unfold s. lia. }
  destruct (nearest_even_spec (Z.pos M) s ltac:(lia) Hs) as (_ & _ & Hq').
  set (q' := nearest_even (Z.pos M) s) in *.
  assert (Hq : 2 ^ 52 <= Z.pos M / 2 ^ s < 2 ^ 53).
  { split.
    - apply Z.div_le_lower_bound; lia.
    - apply Z.div_lt_upper_bound; lia. }
  assert (Hfirst : shr_fexp 53 1024 (Z.pos M) e loc_Exact
                   = (Build_shr_record (Z.pos M / 2 ^ s) (Z.odd (Z.pos M / 2 ^ (s - 1)))
                        (negb (Z.pos M mod 2 ^ (s - 1) =? 0)), e + s)).
  { unfold shr_fexp. change (Zdigits2 (Z.pos M)) with D.
    unfold fexp, emin. rewrite Z.max_l by lia.
    replace (D + e - 53 - e) with s by (unfold s; lia).
    destruct s as [|sp|sp] eqn:Es; try lia.
    unfold shr. cbn [shr_record_of_loc]. rewrite iter_pos_nat.
    destruct (Pos2Nat.is_succ sp) as [t Ht]. rewrite Ht, iter_shr_1 by lia.
    rewrite <- Ht, positive_nat_Z.
    replace (Z.of_nat t) with (Z.pos sp - 1) by lia. reflexivity. }
  unfold binary_round_aux. rewrite Hfirst.
  cbn [shr_m]. fold (nearest_even (Z.pos M) s). fold q'.
  replace (53 - D - e) with (- (e + s)) by (unfold s; lia).
  set (e' := e + s) in *.
  assert (He' : -1074 <= e' < 0) by (unfold e', s; lia).
  destruct (Z.eq_dec q' (2 ^ 53)) as [Hcarry | Hnocarry].
  - rewrite Hcarry. change (2 ^ 53) with (Z.pos (shl 1 53)).
    unfold shr_fexp. change (Zdigits2 (Z.pos (shl 1 53))) with 54.
    unfold fexp, emin. rewrite Z.max_l by lia.
    replace (54 + e' - 53 - e') with 1 by lia.
    unfold shr. cbn [shr_record_of_loc SpecFloat.iter_pos].
    change (shr_1 (Build_shr_record (Z.pos (shl 1 53)) false false))
      with (Build_shr_record (Z.pos (shl 1 52)) false false).
    cbn [shr_m]. destruct (Z.leb_spec (e' + 1) (1024 - 53)); [|lia].
    unfold B64.to_size_t. rewrite Z.shiftl_div_pow2 by lia.
    change (Z.pos (shl 1 52)) with (2 ^ 52). change (Z.pos (shl 1 53)) with (2 * 2 ^ 52).
    replace (2 ^ (- e')) with (2 * 2 ^ (- (e' + 1))).
    2:{ rewrite <- Z.pow_succ_r by lia. f_equal. lia. }
    rewrite Z.div_mul_cancel_l by (try lia; apply Z.pow_nonzero; lia).
    assert (2 ^ 52 / 2 ^ (- (e' + 1)) <= 2 ^ 52).
    { apply Z.div_le_upper_bound; [apply Z.pow_pos_nonneg; lia|].
      assert (0 < 2 ^ (- (e' + 1))) by (apply Z.pow_pos_nonneg; lia).
      nia. }
    destruct (Z.ltb_spec (2 ^ 52 / 2 ^ (- (e' + 1))) (2 ^ 64)); [reflexivity|].
    assert (2 ^ 52 < 2 ^ 64) by reflexivity. lia.
  - assert (Hrange : 2 ^ 52 <= q' < 2 ^ 53) by lia.
    destruct q' as [|qp|qp] eqn:Eq; try lia.
    assert (Hdq : digits qp = 53) by (apply digits_unique; exact Hrange).
    unfold shr_fexp. change (Zdigits2 (Z.pos qp)) with (digits qp). rewrite Hdq.
    unfold fexp, emin. rewrite Z.max_l by lia.
    replace (53 + e' - 53 - e') with 0 by lia.
    unfold shr. cbn [shr_record_of_loc shr_m].
    destruct (Z.leb_spec e' (1024 - 53)); [|lia].
    unfold B64.to_size_t. rewrite Z.shiftl_div_pow2 by lia.
    assert (Z.pos qp / 2 ^ (- e') <= Z.pos qp).
    { apply Z.div_le_upper_bound; [apply Z.pow_pos_nonneg; lia|].
      assert (0 < 2 ^ (- e')) by (apply Z.pow_pos_nonneg; lia).
      nia. }
    destruct (Z.ltb_spec (Z.pos qp / 2 ^ (- e')) (2 ^ 64)); [reflexivity|].
    assert (2 ^ 53 < 2 ^ 64) by reflexivity. lia.
Qed.

(** The arithmetic of the subscript: [q'] is a nearest integer to
    [M / Ps], [M] is [P * Pk * C] and [C] is [num / den] of [2^53] but for
    the small [rho]. *)
Lemma nearest_quotient num den rho C P Pk Ps Pj M q' :
  den * C = num * 2 ^ 53 - rho ->
  0 <= rho -> 0 <= num -> 0 < den -> 2 * rho + den < 256 ->
  2 * rho * 2 ^ 53 <= den * C ->
  0 < P -> 128 <= Pk -> P * Pk < 2 ^ 53 ->
  M = P * Pk * C ->
  0 < Ps -> 128 <= Pj -> Ps * Pj = Pk * 2 ^ 53 -> M < Ps * 2 ^ 53 ->
  2 * M - Ps <= 2 * (q' * Ps) <= 2 * M + Ps ->
  (Ps < 2 * (M mod Ps) -> q' = M / Ps + 1) ->
  M / Ps <= q' ->
  q' / Pj = num * P / den.
Proof.
  intros HC Hrho Hnum Hden Hsmall Hhalf HP HPk HPPk HM HPs HPj HT HMhi Hq' Htie Hfloor.
  pose proof (Z.div_mod (num * P) den ltac:(lia)) as Hab.
  pose proof (Z.mod_pos_bound (num * P) den Hden) as Hb.
  assert (HnumP : 0 <= num * P) by (apply Z.mul_nonneg_nonneg; lia).
  assert (HPPk0 : 0 < P * Pk) by (apply Z.mul_pos_pos; lia).
  set (a := num * P / den) in *. set (b := (num * P) mod den) in *.
  assert (Ha : 0 <= a) by (apply Z.div_pos; lia).
  set (T := Ps * Pj) in *. set (R := rho * (P * Pk)).
  assert (HR0 : 0 <= R) by (apply Z.mul_nonneg_nonneg; lia).
  assert (HR1 : R <= rho * 2 ^ 53) by (apply Z.mul_le_mono_nonneg_l; lia).
  assert (HT128 : 128 * 2 ^ 53 <= T) by (rewrite HT; lia).
  assert (HdenPs : 0 < den * Ps) by (apply Z.mul_pos_pos; lia).
  assert (Hkey : den * M = T * (den * a + b) - R).
  { rewrite <- Hab, HT, HM. unfold R.
    replace (den * (P * Pk * C)) with (den * C * (P * Pk)) by ring.
    rewrite HC. ring. }
  assert (Hupper : q' < (a + 1) * Pj).
  { destruct (Z.lt_ge_cases q' ((a + 1) * Pj)) as [H | H]; [exact H|]. exfalso.
    assert (H1 : (a + 1) * Pj * Ps <= q' * Ps) by (apply Z.mul_le_mono_nonneg_r; lia).
    replace ((a + 1) * Pj * Ps) with ((a + 1) * T) in H1 by (unfold T; ring).
    assert (H2 : den * (2 * ((a + 1) * T)) <= den * (2 * M + Ps))
      by (apply Z.mul_le_mono_nonneg_l; lia).
    assert (H3 : T * b <= T * (den - 1)) by (apply Z.mul_le_mono_nonneg_l; lia).
    assert (H5 : Ps * 128 <= Ps * Pj) by (apply Z.mul_le_mono_nonneg_l; lia).
    fold T in H5.
    assert (H6 : den * Ps < 256 * Ps) by (apply Z.mul_lt_mono_pos_r; lia).
    lia. }
  assert (Hlower : a * Pj <= q').
  { destruct (Z.eq_dec b 0) as [Hb0 | Hb0].
    - rewrite Hb0 in Hkey.
      assert (Hh : den * (T * a - M) = R) by lia.
      assert (Hh0 : 0 <= T * a - M).
      { apply (Z.mul_nonneg_cancel_l den); [exact Hden | lia]. }
      destruct (Z.eq_dec (T * a - M) 0) as [Hz | Hnz].
      + assert (HMa : M = a * Pj * Ps) by (unfold T in Hz; lia).
        rewrite HMa, Z.div_mul in Hfloor by lia. exact Hfloor.
      + set (h := T * a - M) in *.
        assert (Hh2 : 2 * h < Ps).
        { assert (H1 : den * M < den * (Ps * 2 ^ 53)) by (apply Z.mul_lt_mono_pos_l; lia).
          assert (H2 : 2 * rho * 2 ^ 53 * (P * Pk) <= den * C * (P * Pk))
            by (apply Z.mul_le_mono_nonneg_r; lia).
          assert (H3 : den * M = den * C * (P * Pk)) by (rewrite HM; ring).
          assert (H4 : 2 ^ 53 * (den * (2 * h)) < 2 ^ 53 * (den * Ps)).
          { unfold R in Hh. lia. }
          apply Z.mul_lt_mono_pos_l in H4; [|reflexivity].
          apply Z.mul_lt_mono_pos_l in H4; [exact H4 | exact Hden]. }
        assert (HMdiv : M = Ps * (a * Pj - 1) + (Ps - h)) by (unfold h, T; ring).
        assert (Hdiv : M / Ps = a * Pj - 1).
        { symmetry. apply (Z.div_unique_pos M Ps (a * Pj - 1) (Ps - h)); [lia | exact HMdiv]. }
        assert (Hmod : M mod Ps = Ps - h).
        { symmetry. apply (Z.mod_unique_pos M Ps (a * Pj - 1) (Ps - h)); [lia | exact HMdiv]. }
        rewrite Hmod, Hdiv in Htie. rewrite Htie by lia. lia.
    - destruct (Z.le_gt_cases (a * Pj) q') as [H | H]; [exact H|]. exfalso.
      assert (H1 : q' * Ps <= (a * Pj - 1) * Ps) by (apply Z.mul_le_mono_nonneg_r; lia).
      replace ((a * Pj - 1) * Ps) with (a * T - Ps) in H1 by (unfold T; ring).
      assert (H2 : den * (2 * M) <= den * (2 * (a * T) - Ps))
        by (apply Z.mul_le_mono_nonneg_l; lia).
      assert (H3 : T * 1 <= T * b) by (apply Z.mul_le_mono_nonneg_l; lia).
      lia. }
  symmetry. apply (Z.div_unique_pos q' Pj a (q' - a * Pj)); lia.
Qed.

(** The subscript [static_cast<size_t>(n * c)] for a literal [c] that is
    the double next below [num / den]. *)
Lemma product_index num den rho C p :
  den * Z.pos C = num * 2 ^ 53 - rho ->
  0 <= rho -> 0 <= num -> 0 < den -> 2 * rho + den < 256 ->
  2 * rho * 2 ^ 53 <= den * Z.pos C ->
  digits C = 53 -> digits p <= 46 ->
  B64.to_size_t (B64.mul (B64.of_Z (Z.pos p)) (S754_finite false C (-53)))
  = Some (num * Z.pos p / den).
Proof.
  intros HC Hrho Hnum Hden Hsmall Hhalf HdC Hdp.
  rewrite of_Z_int by lia. unfold int_double.
  pose proof (digits_pos p) as Hd1. pose proof (digits_bounds p) as [Plo Phi].
  pose proof (digits_bounds C) as [Clo Chi]. rewrite HdC in Clo, Chi.
  change (2 ^ (53 - 1)) with (2 ^ 52) in Clo.
  set (d := digits p) in *.
  set (k := Z.to_nat (53 - d)).
  change (B64.mul (S754_finite false (shl p k) (d - 53)) (S754_finite false C (-53)))
    with (binary_round_aux 53 1024 false (Z.pos (shl p k * C)) (d - 53 + -53) loc_Exact).
  set (M := (shl p k * C)%positive).
  set (Pk := 2 ^ (53 - d)).
  assert (HMval : Z.pos M = Z.pos p * Pk * Z.pos C).
  { unfold M, Pk. rewrite Pos2Z.inj_mul, shl_Z. unfold k. rewrite Z2Nat.id by lia.
    reflexivity. }
  assert (HPk : 128 <= Pk).
  { change 128 with (2 ^ 7). apply Z.pow_le_mono_r; lia. }
  assert (HPPk_hi : Z.pos p * Pk < 2 ^ 53).
  { replace (2 ^ 53) with (2 ^ d * Pk).
    - apply Z.mul_lt_mono_pos_r; lia.
    - unfold Pk. rewrite <- Z.pow_add_r by lia. f_equal. lia. }
  assert (HPPk_lo : 2 ^ 52 <= Z.pos p * Pk).
  { replace (2 ^ 52) with (2 ^ (d - 1) * Pk).
    - apply Z.mul_le_mono_nonneg_r; lia.
    - unfold Pk. rewrite <- Z.pow_add_r by lia. f_equal. lia. }
  assert (HM_hi : Z.pos M < 2 ^ 106).
  { rewrite HMval. change (2 ^ 106) with (2 ^ 53 * 2 ^ 53).
    apply Z.mul_lt_mono_nonneg; lia. }
  assert (HM_lo : 2 ^ 104 <= Z.pos M).
  { rewrite HMval. change (2 ^ 104) with (2 ^ 52 * 2 ^ 52).
    apply Z.mul_le_mono_nonneg; lia. }
  pose proof (digits_bounds M) as [Mlo Mhi].
  set (D := digits M) in *.
  assert (HD : 105 <= D <= 106).
  { split.
    - destruct (Z.le_gt_cases 105 D) as [H | H]; [exact H|].
      assert (2 ^ D <= 2 ^ 104) by (apply Z.pow_le_mono_r; lia). lia.
    - destruct (Z.le_gt_cases D 106) as [H | H]; [exact H|].
      assert (2 ^ 106 <= 2 ^ (D - 1)) by (apply Z.pow_le_mono_r; lia). lia. }
  rewrite round_aux_nearest by (fold D; lia). fold D. f_equal.
  destruct (nearest_even_spec (Z.pos M) (D - 53) ltac:(lia) ltac:(lia))
    as (Hnear & Htie & Hfloor & _).
  assert (HPs : 0 < 2 ^ (D - 53)) by (apply Z.pow_pos_nonneg; lia).
  assert (HPj : 128 <= 2 ^ (53 - D - (d - 53 + -53))).
  { change 128 with (2 ^ 7). apply Z.pow_le_mono_r; lia. }
  assert (HT : 2 ^ (D - 53) * 2 ^ (53 - D - (d - 53 + -53)) = Pk * 2 ^ 53).
  { unfold Pk. rewrite <- !Z.pow_add_r by lia. f_equal. lia. }
  assert (HMhi' : Z.pos M < 2 ^ (D - 53) * 2 ^ 53).
  { replace (2 ^ (D - 53) * 2 ^ 53) with (2 ^ D); [exact Mhi|].
    rewrite <- Z.pow_add_r by lia. f_equal. lia. }
  exact (nearest_quotient num den rho (Z.pos C) (Z.pos p) Pk (2 ^ (D - 53))
           (2 ^ (53 - D - (d - 53 + -53))) (Z.pos M) _
           HC Hrho Hnum Hden Hsmall Hhalf (Pos2Z.is_pos p) HPk HPPk_hi HMval
           HPs HPj HT HMhi' Hnear Htie Hfloor).
Qed.

Lemma p95_index_all n :
  1 <= n < 2 ^ 46 ->
  B64.to_size_t (B64.mul (B64.of_Z n) B64.lit_0_95) = Some (95 * n / 100).
Proof.
  intros Hn. destruct n as [|p|p]; try lia.
  change B64.lit_0_95 with (S754_finite false 8556839292003942 (-53)).
  apply (product_index 95 100 40); try lia; try reflexivity.
  pose proof (digits_bounds p) as [Hlo _].
  destruct (Z.le_gt_cases (digits p) 46) as [H | H]; [exact H|].
  assert (2 ^ 46 <= 2 ^ (digits p - 1)) by (apply Z.pow_le_mono_r; lia). lia.
Qed.

Lemma p99_index_all n :
  1 <= n < 2 ^ 46 ->
  B64.to_size_t (B64.mul (B64.of_Z n) B64.lit_0_99) = Some (99 * n / 100).
Proof.
  intros Hn. destruct n as [|p|p]; try lia.
  change B64.lit_0_99 with (S754_finite false 8917127262193582 (-53)).
  apply (product_index 99 100 8); try lia; try reflexivity.
  pose proof (digits_bounds p) as [Hlo _].
  destruct (Z.le_gt_cases (digits p) 46) as [H | H]; [exact H|].
  assert (2 ^ 46 <= 2 ^ (digits p - 1)) by (apply Z.pow_le_mono_r; lia). lia.
Qed.

Lemma recorded_window l :
  recorded l = latencies (window l)
  /\ Z.of_nat (length (window l))
     = Z.min PerformanceMonitor.MAX_SAMPLES (Z.of_nat (length l)).
Proof.
  unfold recorded, window.
  rewrite record_all_window by (unfold PerformanceMonitor.empty; cbn [length]; discriminate).
  unfold PerformanceMonitor.empty. cbn [app].
  assert (HK : Z.of_nat (Z.to_nat PerformanceMonitor.MAX_SAMPLES)
               = PerformanceMonitor.MAX_SAMPLES) by (apply Z2Nat.id; discriminate).
  revert HK. generalize (Z.to_nat PerformanceMonitor.MAX_SAMPLES) as K.
  generalize PerformanceMonitor.MAX_SAMPLES as M. intros M K HK.
  unfold latencies. rewrite length_map. split.
  - symmetry. apply fmap_drop.
  - rewrite length_drop. lia.
Qed.

Lemma percentile_of_integer_samples num min_samples fraction l :
  Forall small l ->
  (0 < length l)%nat -> (min_samples <= length l)%nat ->
  0 <= num < 100 ->
  B64.to_size_t (B64.mul (B64.of_Z (Z.of_nat (length l))) fraction)
  = Some (num * Z.of_nat (length l) / 100) ->
  exists x,
    sort_Z l !! Z.to_nat (num * Z.of_nat (length l) / 100) = Some x
    /\ PerformanceMonitor.percentile min_samples fraction (latencies l)
       = PerformanceMonitor.Value (B64.of_Z x).
Proof.
  intros Hsmall Hpos Hmin Hnum Hindex.
  assert (Hlen : length (sort_Z l) = length l)
    by (apply Permutation_length, sort_Z_Permutation).
  assert (Hlt : (Z.to_nat (num * Z.of_nat (length l) / 100) < length (sort_Z l))%nat).
  { rewrite Hlen.
    assert (num * Z.of_nat (length l) / 100 < Z.of_nat (length l)).
    { apply Z.div_lt_upper_bound; nia. }
    assert (0 <= num * Z.of_nat (length l) / 100) by (apply Z.div_pos; nia).
    lia. }
  destruct (lookup_lt_is_Some_2 _ _ Hlt) as [x Hx].
  exists x. split; [exact Hx|].
  unfold PerformanceMonitor.percentile.
  assert (Hl : length (latencies l) = length l) by (unfold latencies; apply length_map).
  rewrite Hl.
  destruct (Nat.ltb_spec (length l) min_samples); [lia|].
  rewrite (sort_latencies l Hsmall).
  assert (Hl' : length (latencies (sort_Z l)) = length l)
    by (unfold latencies; rewrite length_map; exact Hlen).
  rewrite Hl', Hindex.
  unfold latencies. rewrite list_lookup_fmap, Hx. reflexivity.
Qed.

(** X23: the percentiles of whole-microsecond samples.  Let any number of
    samples that are positive integers below 2^53 be recorded into an empty
    monitor; the monitor then holds the latest 100000 of them, [n] samples.
    When at least 20 samples were recorded, [getP95Latency] returns the
    sample at index [95 * n / 100] (rounded down, counted from 0) of the
    held samples in ascending order, and when at least 100 were recorded,
    [getP99Latency] returns the one at index [99 * n / 100]: the subscript
    computed in binary64 is always inside the vector.  With fewer than 20
    (100) samples the reader calls [getAverageLatency] while it holds the
    mutex that [getAverageLatency] locks. *)
Theorem percentiles_of_integer_samples :
  forall l : list Z,
    Forall small l ->
    recorded l = latencies (window l)
    /\ Sorted Z.le (sort_Z (window l)) /\ sort_Z (window l) ≡ₚ window l
    /\ (20 <= Z.of_nat (length l) ->
        exists x,
          sort_Z (window l) !! Z.to_nat (95 * Z.of_nat (length (window l)) / 100) = Some x
          /\ PerformanceMonitor.getP95Latency (recorded l)
             = PerformanceMonitor.Value (B64.of_Z x))
    /\ (100 <= Z.of_nat (length l) ->
        exists x,
          sort_Z (window l) !! Z.to_nat (99 * Z.of_nat (length (window l)) / 100) = Some x
          /\ PerformanceMonitor.getP99Latency (recorded l)
             = PerformanceMonitor.Value (B64.of_Z x))
    /\ (Z.of_nat (length l) < 20 ->
        PerformanceMonitor.getP95Latency (recorded l) = PerformanceMonitor.SelfDeadlock)
    /\ (Z.of_nat (length l) < 100 ->
        PerformanceMonitor.getP99Latency (recorded l) = PerformanceMonitor.SelfDeadlock).
Proof.
  intros l Hsmall.
  destruct (recorded_window l) as [Hrec Hlen].
  assert (Hw : Forall small (window l)) by (apply Forall_drop; exact Hsmall).
  assert (Hl : length (latencies (window l)) = length (window l))
    by (unfold latencies; apply length_map).
  unfold PerformanceMonitor.MAX_SAMPLES in Hlen.
  split; [exact Hrec|]. split; [apply sort_Z_Sorted|]. split; [apply sort_Z_Permutation|].
  rewrite Hrec.
  split; [|split; [|split]].
  - intros Hn.
    apply (percentile_of_integer_samples 95 20 B64.lit_0_95 (window l) Hw); try lia.
    apply p95_index_all. lia.
  - intros Hn.
    apply (percentile_of_integer_samples 99 100 B64.lit_0_99 (window l) Hw); try lia.
    apply p99_index_all. lia.
  - intros Hn.
    unfold PerformanceMonitor.getP95Latency, PerformanceMonitor.percentile.
    rewrite Hl. destruct (Nat.ltb_spec (length (window l)) 20); [reflexivity | lia].
  - intros Hn.
    unfold PerformanceMonitor.getP99Latency, PerformanceMonitor.percentile.
    rewrite Hl. destruct (Nat.ltb_spec (length (window l)) 100); [reflexivity | lia].
Qed.


(** Twenty samples of 7 us: the 95th percentile is the sample at index 19. *)
Lemma percentiles_of_integer_samples_witness :
  exists x,
    sort_Z (window twenty_sevens)
      !! Z.to_nat (95 * Z.of_nat (length (window twenty_sevens)) / 100) = Some x
    /\ PerformanceMonitor.getP95Latency (recorded twenty_sevens)
       = PerformanceMonitor.Value (B64.of_Z x).
Proof.
  refine (proj1 (proj2 (proj2 (proj2 (percentiles_of_integer_samples twenty_sevens _)))) _).
  - repeat constructor.
  - vm_compute. congruence.
Defined.


(** X24: the average of whole-microsecond samples.  For positive integer
    samples recorded into an empty monitor, when the sum of the samples that
    the monitor holds is below 2^53, the sum that [getAverageLatency]
    accumulates in binary64 is their exact sum, so that the result is the
    correctly rounded quotient of the sum by the number of held samples;
    for at most 100000 samples it does not depend on the order in which
    they arrived.  An empty monitor gives 0.0. *)
Theorem average_of_integer_samples :
  forall l : list Z,
    Forall small l -> sum_Z (window l) < 2 ^ 53 ->
    0 < Z.of_nat (length l) ->
    PerformanceMonitor.getAverageLatency (recorded l)
    = PerformanceMonitor.Value
        (B64.div (B64.of_Z (sum_Z (window l))) (B64.of_Z (Z.of_nat (length (window l)))))
    /\ (Z.of_nat (length l) <= PerformanceMonitor.MAX_SAMPLES ->
        window l = l
        /\ forall l', l' ≡ₚ l ->
             PerformanceMonitor.getAverageLatency (recorded l')
             = PerformanceMonitor.getAverageLatency (recorded l))
    /\ PerformanceMonitor.getAverageLatency PerformanceMonitor.empty
       = PerformanceMonitor.Value B64.zero.
Proof.
  assert (Havg : forall l : list Z,
             Forall small l -> sum_Z (window l) < 2 ^ 53 ->
             0 < Z.of_nat (length l) ->
             PerformanceMonitor.getAverageLatency (recorded l)
             = PerformanceMonitor.Value
                 (B64.div (B64.of_Z (sum_Z (window l)))
                    (B64.of_Z (Z.of_nat (length (window l)))))).
  { intros l Hsmall Hsum Hlen.
    destruct (recorded_window l) as [Hrec Hwlen]. rewrite Hrec.
    unfold PerformanceMonitor.MAX_SAMPLES in Hwlen.
    assert (Hw : Forall small (window l)) by (apply Forall_drop; exact Hsmall).
    assert (Hl : length (latencies (window l)) = length (window l))
      by (unfold latencies; apply length_map).
    assert (Hshape : PerformanceMonitor.getAverageLatency (latencies (window l))
                     = PerformanceMonitor.Value
                         (B64.div (PerformanceMonitor.accumulate (latencies (window l)))
                            (B64.of_Z (Z.of_nat (length (latencies (window l))))))).
    { destruct (window l); [cbn [length] in Hwlen; lia | reflexivity]. }
    rewrite Hshape, Hl, accumulate_latencies; [reflexivity| |exact Hsum].
    eapply Forall_impl; [exact Hw|]. intros z Hz. unfold small in Hz. lia. }
  assert (Hfit : forall l : list Z,
             Z.of_nat (length l) <= PerformanceMonitor.MAX_SAMPLES -> window l = l).
  { intros l Hlen. unfold window.
    replace (length l - Z.to_nat PerformanceMonitor.MAX_SAMPLES)%nat with 0%nat; [reflexivity|].
    assert (HK : Z.of_nat (Z.to_nat PerformanceMonitor.MAX_SAMPLES)
                 = PerformanceMonitor.MAX_SAMPLES) by (apply Z2Nat.id; discriminate).
    revert HK Hlen. generalize (Z.to_nat PerformanceMonitor.MAX_SAMPLES) as K.
    generalize PerformanceMonitor.MAX_SAMPLES as M. intros M K HK Hlen. lia. }
  intros l Hsmall Hsum Hlen. split; [apply Havg; assumption|]. split; [|reflexivity].
  intros Hmax. split; [apply Hfit; exact Hmax|].
  intros l' Hperm.
  assert (Hmax' : Z.of_nat (length l') <= PerformanceMonitor.MAX_SAMPLES)
    by (rewrite (Permutation_length Hperm); exact Hmax).
  rewrite (Havg l Hsmall Hsum Hlen). rewrite (Havg l').
  - rewrite (Hfit l Hmax), (Hfit l' Hmax').
    rewrite (sum_Z_Permutation _ _ Hperm), (Permutation_length Hperm). reflexivity.
  - eapply Permutation_Forall; [symmetry; exact Hperm | exact Hsmall].
  - rewrite (Hfit l' Hmax'), (sum_Z_Permutation _ _ Hperm), <- (Hfit l Hmax). exact Hsum.
  - rewrite (Permutation_length Hperm). exact Hlen.
Qed.


(** Twenty samples of 7 us average to 140 / 20. *)
Lemma average_of_integer_samples_witness :
  PerformanceMonitor.getAverageLatency (recorded twenty_sevens)
  = PerformanceMonitor.Value
      (B64.div (B64.of_Z (sum_Z (window twenty_sevens)))
         (B64.of_Z (Z.of_nat (length (window twenty_sevens))))).
Proof.
  refine (proj1 (average_of_integer_samples twenty_sevens _ _ _)).
  - repeat constructor.
  - vm_compute. reflexivity.
  - vm_compute. reflexivity.
Defined.

(** X25: the subscripts computed from a sample count.  For every count [n]
    from 1 up to 2^46, the product of [n] and the literal [0.5], [0.95] or
    [0.99], computed in binary64 (round to nearest even) and converted to
    [size_t], is [n / 2], [95 * n / 100] and [99 * n / 100] rounded down: a
    rounding error of the product never moves the subscript, and the
    subscript is always less than [n], inside a vector of [n] samples (the
    readers of the monitor and the benchmark of main.cpp, which subscripts
    its 100000 sorted latencies this way). *)
Theorem percentile_subscripts_are_in_range :
  forall n : Z,
    1 <= n < 2 ^ 46 ->
    B64.to_size_t (B64.mul (B64.of_Z n) lit_0_5) = Some (n / 2)
    /\ B64.to_size_t (B64.mul (B64.of_Z n) B64.lit_0_95) = Some (95 * n / 100)
    /\ B64.to_size_t (B64.mul (B64.of_Z n) B64.lit_0_99) = Some (99 * n / 100)
    /\ 0 <= n / 2 < n
    /\ 0 <= 95 * n / 100 < n
    /\ 0 <= 99 * n / 100 < n.
Proof.
  intros n Hn.
  split; [|split; [apply p95_index_all; exact Hn|split; [apply p99_index_all; exact Hn|]]].
  - destruct n as [|p|p]; try lia.
    change lit_0_5 with (S754_finite false 4503599627370496 (-53)).
    replace (Z.pos p / 2) with (1 * Z.pos p / 2) by (f_equal; lia).
    apply (product_index 1 2 0); try lia; try reflexivity.
    pose proof (digits_bounds p) as [Hlo _].
    destruct (Z.le_gt_cases (digits p) 46) as [H | H]; [exact H|].
    assert (2 ^ 46 <= 2 ^ (digits p - 1)) by (apply Z.pow_le_mono_r; lia). lia.
  - repeat split; try (apply Z.div_pos; lia); apply Z.div_lt_upper_bound; lia.
Qed.

(** The 100000 latencies of the benchmark: subscripts 50000, 95000 and
    99000. *)
Lemma percentile_subscripts_are_in_range_witness :
  B64.to_size_t (B64.mul (B64.of_Z 100000) lit_0_5) = Some (100000 / 2)
  /\ B64.to_size_t (B64.mul (B64.of_Z 100000) B64.lit_0_95) = Some (95 * 100000 / 100)
  /\ B64.to_size_t (B64.mul (B64.of_Z 100000) B64.lit_0_99) = Some (99 * 100000 / 100).
Proof.
  destruct (percentile_subscripts_are_in_range 100000 ltac:(vm_compute; split; congruence))
    as (H50 & H95 & H99 & _).
  exact (conj H50 (conj H95 H99)).
Defined.
